(** * Hanabi belief tracking: a shallow embedding of [game.py]

    The first half of the file follows the source top to bottom: Python
    outcomes and subscripts, numpy arrays, [Information], [Card],
    [Hand], [Game] and the probability queries.  The second half states
    and proves the properties of each. *)

From Stdlib Require Import ZArith Lia Bool.
From stdpp Require Import base list.

Open Scope Z_scope.

(** ** Python outcomes *)

(** The exceptions the source can raise.  [AttributeError] is what
    Python reports when a reference that is not a [Card] is used as
    one, [RecursionError] what it reports when the sibling recursion of
    [Card.probabilities] does not bottom out. *)
Inductive exn : Set :=
| ValueError
| IndexError
| AssertionError
| AttributeError
| RecursionError.

Inductive result (A : Type) : Type :=
| Ok (a : A)
| Raise (e : exn).
Arguments Ok {A} a.
Arguments Raise {A} e.

Definition rbind {A B} (r : result A) (k : A -> result B) : result B :=
  match r with
  | Ok a => k a
  | Raise e => Raise e
  end.

Notation "'let*' x ':=' e 'in' k" := (rbind e (fun x => k))
  (at level 10, x name, e at level 100, k at level 200).

(** A Python [for] loop whose body may raise, threading the loop state. *)
Fixpoint rfold {A S} (body : S -> A -> result S) (l : list A) (s : S) : result S :=
  match l with
  | [] => Ok s
  | a :: l' => let* s' := body s a in rfold body l' s'
  end.

(** A list comprehension [[f(x) for x in l]] whose expression may raise. *)
Fixpoint rmap {A B} (f : A -> result B) (l : list A) : result (list B) :=
  match l with
  | [] => Ok []
  | a :: l' =>
      let* b := f a in
      let* bs := rmap f l' in
      Ok (b :: bs)
  end.

(** Statements that mutate objects: the store is threaded through, and
    a raised exception leaves the store as it was at the raise (Python
    does not roll anything back). *)
Definition M (S A : Type) : Type := S -> result A * S.

Definition ret {S A} (a : A) : M S A := fun s => (Ok a, s).
Definition raise {S A} (e : exn) : M S A := fun s => (Raise e, s).
Definition lift {S A} (r : result A) : M S A := fun s => (r, s).
Definition gets {S A} (f : S -> A) : M S A := fun s => (Ok (f s), s).
Definition modify {S} (f : S -> S) : M S unit := fun s => (Ok tt, f s).

Definition bind {S A B} (m : M S A) (k : A -> M S B) : M S B :=
  fun s =>
    match m s with
    | (Ok a, s') => k a s'
    | (Raise e, s') => (Raise e, s')
    end.

Notation "'let!' x ':=' e 'in' k" := (bind e (fun x => k))
  (at level 10, x name, e at level 100, k at level 200).

Fixpoint for_each {S A} (l : list A) (body : A -> M S unit) : M S unit :=
  match l with
  | [] => ret tt
  | a :: l' => let! _ := body a in for_each l' body
  end.

(** ** Python subscripts *)

Module Py.

(** An integer subscript on a sequence of length [n]: negative
    subscripts count from the end, anything outside [-n, n) raises
    [IndexError].  Lists and numpy axes agree on this. *)
Definition index (n : nat) (i : Z) : result nat :=
  if (0 <=? i) && (i <? Z.of_nat n) then Ok (Z.to_nat i)
  else if (- Z.of_nat n <=? i) && (i <? 0) then Ok (Z.to_nat (i + Z.of_nat n))
  else Raise IndexError.

(** A slice bound on a sequence of length [n]: negative bounds count
    from the end and everything is clamped to [0, n]; slices never
    raise. *)
Definition bound (n : nat) (i : Z) : nat :=
  if i <? 0 then Z.to_nat (Z.max 0 (i + Z.of_nat n))
  else Z.to_nat (Z.min i (Z.of_nat n)).

(** [l[i]] *)
Definition item {A} (l : list A) (i : Z) : result A :=
  let* k := index (length l) i in
  match l !! k with
  | Some x => Ok x
  | None => Raise IndexError
  end.

(** [x in l] for integers. *)
Definition contains (l : list Z) (x : Z) : bool := existsb (Z.eqb x) l.

(** [l.remove(x)]: drops the first occurrence, [ValueError] if there is
    none.  Card objects compare by identity, that is, by reference. *)
Fixpoint remove (x : nat) (l : list nat) : result (list nat) :=
  match l with
  | [] => Raise ValueError
  | y :: l' =>
      if Nat.eqb x y then Ok l'
      else let* r := remove x l' in Ok (y :: r)
  end.

(** [l[i] = x] *)
Definition setitem {A} (l : list A) (i : Z) (x : A) : result (list A) :=
  let* k := index (length l) i in
  Ok (<[k := x]> l).

End Py.

(** ** numpy arrays *)

Module Np.

Definition within (lo hi i : nat) : bool :=
  Nat.leb lo i && Nat.ltb i hi.

(** Arithmetic on [dtype='int32'] entries wraps around. *)
Definition wrap32 (x : Z) : Z := (x + 2 ^ 31) mod 2 ^ 32 - 2 ^ 31.

Definition nrows {A} (m : list (list A)) : nat := length m.

Definition ncols {A} (m : list (list A)) : nat :=
  match m with
  | [] => 0%nat
  | r :: _ => length r
  end.

(** [m[i, j]] for subscripts already resolved by [Py.index]. *)
Definition cell {A} (m : list (list A)) (i j : nat) : option A :=
  match m !! i with
  | Some r => r !! j
  | None => None
  end.

(** [m[lo:hi, :] = x] *)
Definition fill_rows {A} (x : A) (lo hi : nat) (m : list (list A)) : list (list A) :=
  imap (fun i r => if within lo hi i then fmap (fun _ => x) r else r) m.

(** [m[:, lo:hi] = x] *)
Definition fill_cols {A} (x : A) (lo hi : nat) (m : list (list A)) : list (list A) :=
  fmap (imap (fun j y => if within lo hi j then x else y)) m.

(** [m[i, j] = x] for resolved subscripts. *)
Definition set {A} (m : list (list A)) (i j : nat) (x : A) : list (list A) :=
  alter (fun r => <[j := x]> r) i m.

(** [m[i, j]] with Python subscripts. *)
Definition get {A} (m : list (list A)) (i j : Z) : result A :=
  let* i' := Py.index (nrows m) i in
  let* j' := Py.index (ncols m) j in
  match cell m i' j' with
  | Some x => Ok x
  | None => Raise IndexError
  end.

(** [m[i, j] -= 1] on an int32 array: read, subtract, write back. *)
Definition decr (m : list (list Z)) (i j : Z) : result (list (list Z)) :=
  let* i' := Py.index (nrows m) i in
  let* j' := Py.index (ncols m) j in
  match cell m i' j' with
  | Some x => Ok (set m i' j' (wrap32 (x - 1)))
  | None => Raise IndexError
  end.

(** [np.sum(m)] *)
Definition sum (m : list (list Z)) : Z :=
  foldr Z.add 0 (fmap (foldr Z.add 0) m).

Definition shape {A} (r c : nat) (m : list (list A)) : Prop :=
  length m = r /\ Forall (fun row => length row = c) m.

Definition shapeb {A} (r c : nat) (m : list (list A)) : bool :=
  Nat.eqb (length m) r && forallb (fun row => Nat.eqb (length row) c) m.

(** [np.ones((5, 5), dtype='bool')] *)
Definition ones : list (list bool) := replicate 5 (replicate 5 true).

(** Row-major coordinates [(i, j)] of the entries satisfying [p], as
    [np.argwhere] lists them. *)
Definition argwhere {A} (p : A -> bool) (m : list (list A)) : list (nat * nat) :=
  concat (imap (fun i r =>
            omap (fun jx => if p (snd jx) then Some (i, fst jx) else None)
                 (imap (fun j x => (j, x)) r)) m).

(** [np.max(m)] of a non-empty array. *)
Definition max (m : list (list Z)) : result Z :=
  match concat m with
  | [] => Raise ValueError
  | x :: l => Ok (foldr Z.max x l)
  end.

End Np.

(** The module-level constant of the source. *)
Definition INIT_ARRAY : list (list Z) :=
  [ [3; 2; 2; 2; 1];
    [3; 2; 2; 2; 1];
    [3; 2; 2; 2; 1];
    [3; 2; 2; 2; 1];
    [3; 2; 2; 2; 1] ].

(** Modelled from the spec: [utils.check_isin] is imported by the source
    but is not part of it.  The spec gives the ranges it accepts as
    half-open: colours and values in [0, 5) where the source passes the
    bounds (0, 5), player ids in [0, player_count) where it passes
    (0, len(Game.players)).  The source documents the failure as a
    [ValueError]. *)
Definition check_isin (x : Z) (bounds : Z * Z) : result unit :=
  if (fst bounds <=? x) && (x <? snd bounds) then Ok tt else Raise ValueError.

(** ** Information *)

Module Information.

(** An [Information] object once constructed.  [is_value] is always the
    complement of [is_color] and [type] is the string naming the same
    choice, so the record keeps [is_color] only. *)
Record t : Set := make {
  is_color : bool;
  data : Z;
  negative : bool
}.

(** [negate] builds a new object of the same type and data with the
    polarity flipped. *)
Definition negate (self : t) : t :=
  make (is_color self) (data self) (negb (negative self)).

End Information.

(** ** Card *)

Module Card.

(** A [Card] object.  [cards_in_hand] holds references (positions in the
    object heap) to the sibling cards; [player_id] is the id of the hand
    passed to the constructor, which is also what [card.hand.id]
    evaluates to since hand ids are never reassigned. *)
Record t : Type := make {
  color : Z;
  value : Z;
  player_id : Z;
  played : bool;
  states : list (list bool);
  cards_in_hand : list nat
}.

Definition set_states (m : list (list bool)) (self : t) : t :=
  make (color self) (value self) (player_id self) (played self) m (cards_in_hand self).

Definition set_played (b : bool) (self : t) : t :=
  make (color self) (value self) (player_id self) b (states self) (cards_in_hand self).

Definition set_cards_in_hand (l : list nat) (self : t) : t :=
  make (color self) (value self) (player_id self) (played self) (states self) l.

(** The effect of [add_information] on the belief mask [self.states]. *)
Definition add_information_mask (info : Information.t) (m : list (list bool))
  : result (list (list bool)) :=
  let d := Information.data info in
  if Information.is_color info then
    if Information.negative info then
      let* i := Py.index (Np.nrows m) d in
      Ok (Np.fill_rows false i (S i) m)
    else
      let m1 := Np.fill_rows false 0 (Py.bound (Np.nrows m) d) m in
      Ok (Np.fill_rows false (Py.bound (Np.nrows m1) (d + 1)) (Np.nrows m1) m1)
  else
    if Information.negative info then
      let* j := Py.index (Np.ncols m) d in
      Ok (Np.fill_cols false j (S j) m)
    else
      let m1 := Np.fill_cols false 0 (Py.bound (Np.ncols m) d) m in
      Ok (Np.fill_cols false (Py.bound (Np.ncols m1) (d + 1)) (Np.ncols m1) m1).

(** [Card.add_information]: only the mask changes; the [played] flag is
    not consulted. *)
Definition add_information (info : Information.t) (self : t) : result t :=
  let* m := add_information_mask info (states self) in
  Ok (set_states m self).

End Card.

(** ** The object heap *)

(** Card objects live in a heap addressed by position; a reference is
    the position at which the constructor stored the object. *)
Abbreviation heap := (list Card.t).

(** Reading an attribute through a reference. *)
Definition deref (r : nat) : M heap Card.t :=
  fun h =>
    match h !! r with
    | Some c => (Ok c, h)
    | None => (Raise AttributeError, h)
    end.

(** [card.add_information(info)] on the object behind [r]. *)
Definition card_add_information (r : nat) (info : Information.t) : M heap unit :=
  let! c := deref r in
  let! c' := lift (Card.add_information info c) in
  modify (fun h => <[r := c']> h).

(** [check_iscard(card)]: a reference that is not a [Card] object is
    rejected. *)
Definition check_iscard (r : nat) : M heap unit :=
  fun h =>
    match h !! r with
    | Some _ => (Ok tt, h)
    | None => (Raise ValueError, h)
    end.

(** ** Hand *)

Module Hand.

(** A [Hand] object: its id and the references of its cards, in order. *)
Record t : Set := make {
  id : Z;
  cards : list nat
}.

(** [Hand(player_id)] *)
Definition init (player_id : Z) : t := make player_id [].

(** [add_card]: unless the game is starting, every card already in the
    hand is appended to the new card's [cards_in_hand]; then the card
    is appended to the hand.  Returns the hand as mutated. *)
Definition add_card (self : t) (card : nat) (game_start : bool) : M heap t :=
  let! _ := check_iscard card in
  let! _ :=
    (if game_start then ret tt
     else for_each (cards self) (fun card_hand =>
            modify (alter (fun c =>
              Card.set_cards_in_hand (Card.cards_in_hand c ++ [card_hand]) c) card))) in
  ret (make (id self) (cards self ++ [card])).

(** [remove_card] for a [Card] argument. *)
Definition remove_card (self : t) (card : nat) : result t :=
  let* l := Py.remove card (cards self) in
  Ok (make (id self) l).

(** [add_information]: [card_index] is the list [make_iterable]
    returns.  The first loop, with body [give_addressed], checks and
    updates the addressed cards one after the other; the second, with
    body [give_other], gives the negated information to the cards whose
    position is not in [card_index] and which are not played. *)
Definition give_addressed (self : t) (info : Information.t) (idx : Z) : M heap unit :=
  let! r := lift (Py.item (cards self) idx) in
  let! c := deref r in
  if Card.played c then raise ValueError
  else card_add_information r info.

Definition give_other (card_index : list Z) (info : Information.t) (ir : nat * nat)
  : M heap unit :=
  if Py.contains card_index (Z.of_nat (fst ir)) then ret tt
  else
    let! c := deref (snd ir) in
    if Card.played c then ret tt
    else card_add_information (snd ir) (Information.negate info).

Definition add_information (self : t) (card_index : list Z) (info : Information.t)
  : M heap unit :=
  let! _ := for_each card_index (give_addressed self info) in
  for_each (imap pair (cards self)) (give_other card_index info).

(** [remove_card] for an [int] argument: the object found at that
    position is removed by value, so its first occurrence goes. *)
Definition remove_card_at (self : t) (card : Z) : result t :=
  let* r := Py.item (cards self) card in
  let* l := Py.remove r (cards self) in
  Ok (make (id self) l).

(** [n_cards] *)
Definition n_cards (self : t) : nat := length (cards self).

(** [reorder]: the identity arrangement with the two arguments written
    at each other's position, then the cards picked in that order.  The
    hand is assigned last, so a raise leaves it as it was. *)
Definition reorder (self : t) (card_idx new_idx : Z) : result t :=
  let arangement := Z.of_nat <$> seq 0 (n_cards self) in
  let* a1 := Py.setitem arangement card_idx new_idx in
  let* a2 := Py.setitem a1 new_idx card_idx in
  let* l := rmap (fun k => Py.item (cards self) k) a2 in
  Ok (make (id self) l).

End Hand.

(** [Card(color, value, hand)]: the range checks, then the fresh object
    (not yet stored in the heap). *)
Definition Card_init (color value : Z) (hand : Hand.t) : result Card.t :=
  let* _ := check_isin color (0, 5) in
  let* _ := check_isin value (0, 5) in
  Ok (Card.make color value (Hand.id hand) false Np.ones []).

(** ** Game *)

Module Game.

(** The process state: the class attributes of [Game] together with the
    [Card] objects allocated so far. *)
Record t : Type := make {
  objects : heap;
  deck : list (list Z);
  states : list (list (list Z));
  players : list Hand.t;
  stacks : list Z;
  score : Z;
  penalty : Z
}.

Definition set_objects (h : heap) (g : t) : t :=
  make h (deck g) (states g) (players g) (stacks g) (score g) (penalty g).
Definition set_deck (d : list (list Z)) (g : t) : t :=
  make (objects g) d (states g) (players g) (stacks g) (score g) (penalty g).
Definition set_states (s : list (list (list Z))) (g : t) : t :=
  make (objects g) (deck g) s (players g) (stacks g) (score g) (penalty g).
Definition set_players (p : list Hand.t) (g : t) : t :=
  make (objects g) (deck g) (states g) p (stacks g) (score g) (penalty g).
Definition set_stacks (s : list Z) (g : t) : t :=
  make (objects g) (deck g) (states g) (players g) s (score g) (penalty g).
Definition set_score (n : Z) (g : t) : t :=
  make (objects g) (deck g) (states g) (players g) (stacks g) n (penalty g).
Definition set_penalty (n : Z) (g : t) : t :=
  make (objects g) (deck g) (states g) (players g) (stacks g) (score g) n.

(** The class body: a full deck, no players, empty stacks. *)
Definition initial : t :=
  make [] INIT_ARRAY [] [] (replicate 5 0) 0 0.

(** Running a statement that only touches card objects. *)
Definition with_objects {A} (m : M heap A) : M t A :=
  fun g => let '(r, h) := m (objects g) in (r, set_objects h g).

(** Evaluating an expression that reads the state and may raise. *)
Definition eval {A} (f : t -> result A) : M t A := fun g => (f g, g).

(** Constructing a card: the object is stored at the next free position
    of the heap, which is the reference returned. *)
Definition new_card (color value : Z) (hand : Hand.t) : M t nat :=
  let! c := lift (Card_init color value hand) in
  fun g => (Ok (length (objects g)), set_objects (objects g ++ [c]) g).

(** [add_player] *)
Definition add_player : M t unit :=
  modify (fun g =>
    let g1 := set_players (players g ++ [Hand.init (Z.of_nat (length (players g)))]) g in
    set_states (states g1 ++ [INIT_ARRAY]) g1).

(** The loop of [deal_card] that tells the other players. *)
Definition tell_others (player_id color value : Z) : M t unit :=
  let! n := gets (fun g => length (states g)) in
  for_each (seq 0 n) (fun i =>
    if Z.of_nat i =? player_id then ret tt
    else
      let! st := eval (fun g => Py.item (states g) (Z.of_nat i)) in
      let! st' := lift (Np.decr st color value) in
      modify (fun g => set_states (<[i := st']> (states g)) g)).

(** [deal_card] *)
Definition deal_card (card : nat) (game_start : bool) : M t unit :=
  let! _ := with_objects (check_iscard card) in
  let! c := with_objects (deref card) in
  let player_id := Card.player_id c in
  let! n := gets (fun g => Z.of_nat (length (players g))) in
  let! _ := lift (check_isin player_id (0, n)) in
  let! d := eval (fun g => Np.get (deck g) (Card.color c) (Card.value c)) in
  if d =? 0 then raise ValueError
  else
    let! dk := eval (fun g => Np.decr (deck g) (Card.color c) (Card.value c)) in
    let! _ := modify (set_deck dk) in
    let! _ := tell_others player_id (Card.color c) (Card.value c) in
    let! k := eval (fun g => Py.index (length (players g)) player_id) in
    let! hand := eval (fun g => Py.item (players g) player_id) in
    let! hand' := with_objects (Hand.add_card hand card game_start) in
    modify (fun g => set_players (<[k := hand']> (players g)) g).

(** [random_card].  [np.random.choice] draws a flattened position with
    the deck's weights; the position drawn is the argument [sample]. *)
Definition random_card (player_id : Z) (sample : Z) : M t nat :=
  let! s := gets (fun g => Np.sum (deck g)) in
  if s =? 0 then raise ValueError
  else
    let! hand := eval (fun g => Py.item (players g) player_id) in
    new_card (sample / 5) (sample mod 5) hand.

(** [deal_hand]: one draw per element of [samples], so [n] is the length
    of [samples]. *)
Definition deal_hand (player_id : Z) (samples : list Z) (game_start : bool) : M t unit :=
  let! n := gets (fun g => Z.of_nat (length (players g))) in
  let! _ := lift (check_isin player_id (0, n)) in
  for_each samples (fun sample =>
    let! card := random_card player_id sample in
    deal_card card game_start).

(** [play_card] for a [Card] argument (the source sets [card.played], so
    a position is not accepted there). *)
Definition play_card (player_id : Z) (card : nat) : M t unit :=
  let! n := gets (fun g => Z.of_nat (length (players g))) in
  let! _ := lift (check_isin player_id (0, n)) in
  let! c := with_objects (deref card) in
  let! _ := with_objects (modify (fun h => <[card := Card.set_played true c]> h)) in
  let! k := eval (fun g => Py.index (length (players g)) player_id) in
  let! hand := eval (fun g => Py.item (players g) player_id) in
  let! hand' := lift (Hand.remove_card hand card) in
  let! _ := modify (fun g => set_players (<[k := hand']> (players g)) g) in
  let! ks := eval (fun g => Py.index (length (states g)) player_id) in
  let! st := eval (fun g => Py.item (states g) player_id) in
  let! st' := lift (Np.decr st (Card.color c) (Card.value c)) in
  let! _ := modify (fun g => set_states (<[ks := st']> (states g)) g) in
  let! kc := eval (fun g => Py.index (length (stacks g)) (Card.color c)) in
  let! top := eval (fun g => Py.item (stacks g) (Card.color c)) in
  if top =? Card.value c then
    let! _ := modify (fun g => set_stacks (<[kc := top + 1]> (stacks g)) g) in
    modify (fun g => set_score (score g + 1) g)
  else
    modify (fun g => set_penalty (penalty g + 1) g).

(** [give_information] *)
Definition give_information (player_id : Z) (card_index : list Z) (info : Information.t)
  : M t unit :=
  let! hand := eval (fun g => Py.item (players g) player_id) in
  with_objects (Hand.add_information hand card_index info).

End Game.

(** ** Probability queries *)

(** [utils.FractionMatrix] is imported by the source but is not part of
    it.  The queries use it through the operations the source applies
    to it, collected in this interface. *)
Class FractionMatrix (FM : Type) : Type := {
  (** [arr.copy().view(FractionMatrix)] *)
  view : list (list Z) -> FM;
  (** [a - b] *)
  sub : FM -> FM -> FM;
  (** [mask * a] for a boolean array [mask] *)
  mask_mul : list (list bool) -> FM -> FM;
  (** [a.make_proba()]: the object after the in-place call *)
  make_proba : FM -> FM;
  (** [a.denominator] *)
  denominator : FM -> option Z;
  (** the entries of the array, as [np.where], [np.max] and [==] see them *)
  entries : FM -> list (list Z)
}.

(** Modelled from the spec: the missing [utils.FractionMatrix], a grid of
    rational counts sharing one denominator: the entry at a cell is its
    numerator over [den].  A grid of counts is viewed over the
    denominator 1.  Subtraction is the elementwise difference of the
    fractions, both grids brought to the product of their denominators;
    multiplication by a boolean mask makes a masked-out cell zero;
    normalisation takes the sum of the entries as the new denominator
    and keeps the entries as the numerators over it. *)
Record frac : Type := Frac {
  num : list (list Z);
  den : Z
}.

(** Every numerator of a grid multiplied by [k]. *)
Definition scaled (k : Z) (m : list (list Z)) : list (list Z) :=
  fmap (M := list) (fmap (M := list) (Z.mul k)) m.

#[export] Instance frac_matrix : FractionMatrix frac := {
  view m := Frac m 1;
  sub a b :=
    Frac (zip_with (zip_with Z.sub) (scaled (den b) (num a)) (scaled (den a) (num b)))
         (den a * den b);
  mask_mul mask a :=
    Frac (zip_with (zip_with (fun (b : bool) x => if b then x else 0)) mask (num a)) (den a);
  make_proba a := Frac (num a) (Np.sum (num a));
  denominator a := Some (den a);
  entries := num
}.

(** What [Card.probabilities] hands back: the matrix alone, or the pair
    of the matrix and its denominator. *)
Inductive returned (FM : Type) : Type :=
| Matrix (m : FM)
| MatrixAndDenominator (m : FM) (d : option Z).
Arguments Matrix {FM} m.
Arguments MatrixAndDenominator {FM} m d.

(** [a, b = r]: a pair unpacks; a matrix is iterated row by row, and its
    five rows do not fit two names. *)
Definition unpack2 {FM} (r : returned FM) : result (FM * option Z) :=
  match r with
  | MatrixAndDenominator m d => Ok (m, d)
  | Matrix _ => Raise ValueError
  end.

Section Queries.

Context {FM : Type} {ops : FractionMatrix FM}.

(** [card] read through a reference, for the read-only queries. *)
Definition card_of (g : Game.t) (r : nat) : result Card.t :=
  match Game.objects g !! r with
  | Some c => Ok c
  | None => Raise AttributeError
  end.

(** The first statement of [probabilities]: the matrix to start from. *)
Definition starting_matrix (g : Game.t) (c : Card.t) (player_state : option (list (list Z)))
  : result FM :=
  match player_state with
  | None =>
      let* st := Py.item (Game.states g) (Card.player_id c) in
      Ok (view st)
  | Some ps => Ok (view ps)
  end.

(** The body of [probabilities] up to and including [make_proba].  The
    recursive call of the source passes [player_state] on and leaves
    [return_denominator] at its default, so what it subtracts is this
    matrix.  [fuel] bounds the depth of the recursion. *)
Fixpoint probability_matrix (fuel : nat) (g : Game.t) (self : nat)
    (player_state : option (list (list Z))) : result FM :=
  match fuel with
  | O => Raise RecursionError
  | S fuel' =>
      let* c := card_of g self in
      let* start := starting_matrix g c player_state in
      let* pm :=
        rfold (fun pm card =>
                 let* sc := card_of g card in
                 if Card.played sc then Ok pm
                 else
                   let* q := probability_matrix fuel' g card player_state in
                   Ok (sub pm q))
              (Card.cards_in_hand c) start in
      Ok (make_proba (mask_mul (Card.states c) pm))
  end.

(** The loop of [probabilities] over the sibling snapshot, with the
    recursive call given [fuel]. *)
Definition subtract_siblings (fuel : nat) (g : Game.t)
    (player_state : option (list (list Z))) (l : list nat) (start : FM) : result FM :=
  rfold (fun pm card =>
           let* sc := card_of g card in
           if Card.played sc then Ok pm
           else
             let* q := probability_matrix fuel g card player_state in
             Ok (sub pm q))
        l start.

(** [Card.probabilities] *)
Definition probabilities (fuel : nat) (g : Game.t) (self : nat)
    (return_denominator : bool) (player_state : option (list (list Z)))
  : result (returned FM) :=
  let* pm := probability_matrix fuel g self player_state in
  if return_denominator then Ok (MatrixAndDenominator pm (denominator pm))
  else Ok (Matrix pm).

Definition nonzero (x : Z) : bool := negb (x =? 0).

(** [Card.determined]: its call of [probabilities] returns the matrix
    alone. *)
Definition determined (fuel : nat) (g : Game.t) (self : nat) : result bool :=
  let* pm := probability_matrix fuel g self None in
  let n_possible := length (Np.argwhere nonzero (entries pm)) in
  if Nat.eqb n_possible 0 then Raise AssertionError
  else Ok (Nat.eqb n_possible 1).

(** [Card.well_predicted]: the predicted index is the first true cell
    of the belief mask. *)
Definition well_predicted (fuel : nat) (g : Game.t) (self : nat) : result bool :=
  let* c := card_of g self in
  let* d := determined fuel g self in
  if d then
    match Np.argwhere (fun b : bool => b) (Card.states c) with
    | [] => Raise IndexError
    | (i, j) :: _ => Ok ((Z.of_nat i =? Card.color c) && (Z.of_nat j =? Card.value c))
    end
  else Ok false.

(** [Card.most_likely]: [probabilities] is called with its defaults and
    the value returned is unpacked into two names.  The probability
    [max_probas / total] is kept as the pair of its two operands. *)
Definition most_likely (fuel : nat) (g : Game.t) (self : nat) (return_proba : bool)
  : result (list (nat * nat) * option (Z * option Z)) :=
  let* r := probabilities fuel g self false None in
  let* pt := unpack2 r in
  let* max_probas := Np.max (entries (fst pt)) in
  let arg_probas := Np.argwhere (Z.eqb max_probas) (entries (fst pt)) in
  if return_proba then Ok (arg_probas, Some (max_probas, snd pt))
  else Ok (arg_probas, None).

(** The matrix the specification starts from: the one given, or, when
    none is given, the matrix that [Game.states] keeps for the player
    owning the card, the player at position [player_id]. *)
Inductive visible_state (g : Game.t) (c : Card.t)
  : option (list (list Z)) -> list (list Z) -> Prop :=
| visible_given ps :
    visible_state g c (Some ps) ps
| visible_own p st :
    Card.player_id c = Z.of_nat p ->
    Game.states g !! p = Some st ->
    visible_state g c None st.

(** The distribution of a card as the specification words it: start from
    the visible-state matrix, subtract from the running matrix the
    distribution of every sibling of the snapshot that is not played,
    taken under the same [player_state], multiply by the card's own
    mask, normalise. *)
Inductive distribution (g : Game.t) (player_state : option (list (list Z)))
  : nat -> FM -> Prop :=
| distribution_of self c st pm :
    Game.objects g !! self = Some c ->
    visible_state g c player_state st ->
    siblings_subtracted g player_state (Card.cards_in_hand c) (view st) pm ->
    distribution g player_state self (make_proba (mask_mul (Card.states c) pm))
with siblings_subtracted (g : Game.t) (player_state : option (list (list Z)))
  : list nat -> FM -> FM -> Prop :=
| siblings_done pm :
    siblings_subtracted g player_state [] pm pm
| sibling_played s sc rest pm pm' :
    Game.objects g !! s = Some sc ->
    Card.played sc = true ->
    siblings_subtracted g player_state rest pm pm' ->
    siblings_subtracted g player_state (s :: rest) pm pm'
| sibling_in_hand s sc q rest pm pm' :
    Game.objects g !! s = Some sc ->
    Card.played sc = false ->
    distribution g player_state s q ->
    siblings_subtracted g player_state rest (sub pm q) pm' ->
    siblings_subtracted g player_state (s :: rest) pm pm'.

End Queries.

(** Mutual induction on the two relations. *)
Scheme distribution_mut := Minimality for distribution Sort Prop
  with siblings_subtracted_mut := Minimality for siblings_subtracted Sort Prop.

(** ** Calls and reachable states *)

(** The calls a client makes: constructing a card and the five
    operations of [Game]. *)
Inductive call : Type :=
| NewCard (color value : Z) (hand : Hand.t)
| AddPlayer
| DealCard (card : nat) (game_start : bool)
| DealHand (player_id : Z) (samples : list Z) (game_start : bool)
| PlayCard (player_id : Z) (card : nat)
| GiveInformation (player_id : Z) (card_index : list Z) (info : Information.t).

Definition run (c : call) : M Game.t unit :=
  match c with
  | NewCard color value hand => let! _ := Game.new_card color value hand in ret tt
  | AddPlayer => Game.add_player
  | DealCard card game_start => Game.deal_card card game_start
  | DealHand player_id samples game_start => Game.deal_hand player_id samples game_start
  | PlayCard player_id card => Game.play_card player_id card
  | GiveInformation player_id card_index info =>
      Game.give_information player_id card_index info
  end.

(** A script of calls; a call that raises leaves the state as it was at
    the raise and the script goes on. *)
Definition run_all (cs : list call) (g : Game.t) : Game.t :=
  fold_left (fun g c => snd (run c g)) cs g.

Inductive reachable : Game.t -> Prop :=
| reachable_initial : reachable Game.initial
| reachable_call g c : reachable g -> reachable (snd (run c g)).

(** ** Notions the properties are stated with *)

(** Entry [(i, j)] of a grid, [d] outside it. *)
Definition at_ {A} (d : A) (m : list (list A)) (i j : nat) : A :=
  default d (Np.cell m i j).

(** The grid a clue stands for: the cells it leaves possible. *)
Definition clue_keeps (info : Information.t) (i j : nat) : bool :=
  let k := if Information.is_color info then i else j in
  if Information.negative info
  then negb (Z.of_nat k =? Information.data info)
  else Z.of_nat k =? Information.data info.

Definition clue_mask (info : Information.t) : list (list bool) :=
  imap (fun i r => imap (fun j _ => clue_keeps info i j) r) Np.ones.

Definition conj_mask (a b : list (list bool)) : list (list bool) :=
  zip_with (zip_with andb) a b.

(** A clue is truthful for a card when an affirmed clue names the
    card's own colour (or value) and a negated one names another. *)
Definition truthful (c : Card.t) (info : Information.t) : bool :=
  let own := if Information.is_color info then Card.color c else Card.value c in
  if Information.negative info
  then negb (Information.data info =? own)
  else Information.data info =? own.

Definition valid_clue (info : Information.t) : bool :=
  (0 <=? Information.data info) && (Information.data info <? 5).

(** Giving a card a sequence of clues, one after the other. *)
Definition add_all (infos : list Information.t) (c : Card.t) : result Card.t :=
  rfold (fun c info => Card.add_information info c) infos c.

(** Elementwise minimum of the players' matrices; there is none without
    players. *)
Definition min_grid (a b : list (list Z)) : list (list Z) :=
  zip_with (zip_with Z.min) a b.

Definition elementwise_min (ms : list (list (list Z))) : option (list (list Z)) :=
  match ms with
  | [] => None
  | m :: ms' => Some (foldl min_grid m ms')
  end.

(** [a >= b] elementwise on 5 x 5 grids. *)
Definition grid_ge (a b : list (list Z)) : Prop :=
  forall i j, (i < 5)%nat -> (j < 5)%nat -> at_ 0 b i j <= at_ 0 a i j.

(** Number of cards of identity [(i, j)] among the references [l]. *)
Definition is_identity (h : heap) (i j : nat) (r : nat) : bool :=
  match h !! r with
  | Some c => (Card.color c =? Z.of_nat i) && (Card.value c =? Z.of_nat j)
  | None => false
  end.

Definition held (h : heap) (l : list nat) (i j : nat) : Z :=
  Z.of_nat (length (filter (fun r => is_identity h i j r = true) l)).

(** What every reachable state satisfies: one matrix per player, all
    grids 5 x 5, a deck between zero and the initial counts, cards with
    a colour and a value in range, hands that hold allocated cards, and
    for every player a matrix that counts at least the deck and the
    cards of the player's own hand. *)
Definition valid_card (c : Card.t) : Prop :=
  0 <= Card.color c < 5 /\ 0 <= Card.value c < 5.

Record consistent (g : Game.t) : Prop := {
  cons_len : length (Game.states g) = length (Game.players g);
  cons_deck_shape : Np.shape 5 5 (Game.deck g);
  cons_states_shape : Forall (Np.shape 5 5) (Game.states g);
  cons_deck_bounds : forall i j, (i < 5)%nat -> (j < 5)%nat ->
    0 <= at_ 0 (Game.deck g) i j <= at_ 0 INIT_ARRAY i j;
  cons_cards : Forall valid_card (Game.objects g);
  cons_hands : forall p hand, Game.players g !! p = Some hand ->
    Forall (fun r => (r < length (Game.objects g))%nat) (Hand.cards hand);
  cons_states : forall p hand st i j,
    Game.players g !! p = Some hand -> Game.states g !! p = Some st ->
    (i < 5)%nat -> (j < 5)%nat ->
    at_ 0 (Game.deck g) i j + held (Game.objects g) (Hand.cards hand) i j
      <= at_ 0 st i j <= 3
}.

(** Two heaps that differ in belief masks only (what a clue does), and
    two heaps whose cards have the same colours and values (what any
    operation on existing cards does). *)
Definition same_but_masks (h h' : heap) : Prop :=
  forall r, Card.set_states [] <$> h' !! r = Card.set_states [] <$> h !! r.

Definition identity (c : Card.t) : Z * Z := (Card.color c, Card.value c).

Definition same_identities (h h' : heap) : Prop :=
  forall r, identity <$> h' !! r = identity <$> h !! r.

(** The players' matrices once a card of identity [(i, j)] has gone to
    [player_id]: everybody else counts one less. *)
Definition told (player_id : Z) (i j : nat) (states : list (list (list Z)))
  : list (list (list Z)) :=
  imap (fun p st =>
          if Z.of_nat p =? player_id then st
          else Np.set st i j (Np.wrap32 (at_ 0 st i j - 1))) states.

(** The heap once [card] has joined a hand holding [l]. *)
Definition joined (card : nat) (game_start : bool) (l : list nat) (h : heap) : heap :=
  if game_start then h
  else alter (fun c => Card.set_cards_in_hand (Card.cards_in_hand c ++ l) c) card h.

(** ** States the operations lead to *)

(** The matrices while the loop of [deal_card] is at player [k]: the
    players from [k] on have been told. *)
Definition told_from (k : nat) (player_id : Z) (i j : nat) (states : list (list (list Z)))
  : list (list (list Z)) :=
  imap (fun p st =>
          if Nat.leb k p && negb (Z.of_nat p =? player_id)
          then Np.set st i j (Np.wrap32 (at_ 0 st i j - 1)) else st) states.

(** The state after a successful [deal_card] of [card], whose object is
    [c], into the hand [hand] of its owner. *)
Definition dealt (g : Game.t) (card : nat) (game_start : bool) (c : Card.t) (hand : Hand.t)
  : Game.t :=
  let i := Z.to_nat (Card.color c) in
  let j := Z.to_nat (Card.value c) in
  Game.make
    (joined card game_start (Hand.cards hand) (Game.objects g))
    (Np.set (Game.deck g) i j (Np.wrap32 (at_ 0 (Game.deck g) i j - 1)))
    (told (Card.player_id c) i j (Game.states g))
    (<[Z.to_nat (Card.player_id c) :=
         Hand.make (Hand.id hand) (Hand.cards hand ++ [card])]> (Game.players g))
    (Game.stacks g) (Game.score g) (Game.penalty g).

Definition player_in_range (g : Game.t) (player_id : Z) : bool :=
  (0 <=? player_id) && (player_id <? Z.of_nat (length (Game.players g))).

(** The state of [play_card] once the card is marked, taken off the
    hand and counted out of its owner's matrix. *)
Definition played_state (g : Game.t) (k : nat) (card : nat) (c : Card.t)
    (hand' : Hand.t) (st : list (list Z)) : Game.t :=
  Game.make
    (<[card := Card.set_played true c]> (Game.objects g))
    (Game.deck g)
    (<[k := Np.set st (Z.to_nat (Card.color c)) (Z.to_nat (Card.value c))
              (Np.wrap32 (at_ 0 st (Z.to_nat (Card.color c)) (Z.to_nat (Card.value c)) - 1))]>
       (Game.states g))
    (<[k := hand']> (Game.players g))
    (Game.stacks g) (Game.score g) (Game.penalty g).

(** A step keeps the invariant. *)
Definition keeps (g g' : Game.t) : Prop := consistent g -> consistent g'.

(** Every card was constructed for a hand whose id is a position, as
    the hands of [Game.players] are: no [player_id] is negative, so that
    [Game.states[player_id]] does not count from the end. *)
Definition owners_are_positions (g : Game.t) : Prop :=
  Forall (fun c => 0 <= Card.player_id c) (Game.objects g).

(** ** Sample objects *)

(** A card as the constructor leaves it. *)
Definition fresh_card (color value player : Z) : Card.t :=
  Card.make color value player false Np.ones [].

Definition color_clue (data : Z) (negative : bool) : Information.t :=
  Information.make true data negative.

Definition value_clue (data : Z) (negative : bool) : Information.t :=
  Information.make false data negative.

(** Two players, each dealt a card of colour 0 and value 0. *)
Definition same_identity_script : list call :=
  [AddPlayer; AddPlayer;
   NewCard 0 0 (Hand.init 0); DealCard 0 false;
   NewCard 0 0 (Hand.init 1); DealCard 1 false].

(** Two players and a card constructed for the first, not dealt yet. *)
Definition before_deal_script : list call :=
  [AddPlayer; AddPlayer; NewCard 0 0 (Hand.init 0)].

(** One player whose hand holds a played card: the card at position 1
    was dealt twice and played once. *)
Definition played_in_hand_script : list call :=
  [AddPlayer;
   NewCard 0 0 (Hand.init 0); NewCard 0 1 (Hand.init 0);
   DealCard 0 false; DealCard 1 false; DealCard 1 false;
   PlayCard 0 1].

(** Three players.  Players 1 and 2 hold, face up for player 0, every
    card of colour 0 except the two of value 1; player 0 is dealt one
    of those two and is told, truthfully, that its colour is 0. *)
Definition narrowed_script : list call :=
  [AddPlayer; AddPlayer; AddPlayer;
   NewCard 0 0 (Hand.init 1); DealCard 0 false;
   NewCard 0 0 (Hand.init 1); DealCard 1 false;
   NewCard 0 0 (Hand.init 1); DealCard 2 false;
   NewCard 0 2 (Hand.init 1); DealCard 3 false;
   NewCard 0 2 (Hand.init 2); DealCard 4 false;
   NewCard 0 3 (Hand.init 2); DealCard 5 false;
   NewCard 0 3 (Hand.init 2); DealCard 6 false;
   NewCard 0 4 (Hand.init 2); DealCard 7 false;
   NewCard 0 1 (Hand.init 0); DealCard 8 false;
   GiveInformation 0 [0] (color_clue 0 false)].

(** Two players.  Player 1 is dealt two cards of colour 0 and value 0
    and one of colour 0 and value 1, each with the cards before it as
    its siblings; the first is played, and the two left in the hand are
    told their colour. *)
Definition siblings_script : list call :=
  [AddPlayer; AddPlayer;
   NewCard 0 0 (Hand.init 1); DealCard 0 false;
   NewCard 0 0 (Hand.init 1); DealCard 1 false;
   NewCard 0 1 (Hand.init 1); DealCard 2 false;
   PlayCard 1 0;
   GiveInformation 1 [0; 1] (color_clue 0 false)].

(** The matrix of player 1 after [siblings_script]: only the card played
    is counted out. *)
Definition siblings_state : list (list Z) :=
  [[2; 2; 2; 2; 1]; [3; 2; 2; 2; 1]; [3; 2; 2; 2; 1]; [3; 2; 2; 2; 1]; [3; 2; 2; 2; 1]].

(** The distribution of the last card dealt in [siblings_script]: each
    count of row 0, less the chance that the sibling still in the hand
    has that identity, over their sum. *)
Definition siblings_distribution : frac :=
  Frac [[16; 16; 16; 16; 8]; [0; 0; 0; 0; 0]; [0; 0; 0; 0; 0];
        [0; 0; 0; 0; 0]; [0; 0; 0; 0; 0]] 72.

(** One player is dealt the three cards of colour 0 and value 0, and
    all three are told their colour and their value. *)
Definition three_alike_script : list call :=
  [AddPlayer;
   NewCard 0 0 (Hand.init 0); DealCard 0 false;
   NewCard 0 0 (Hand.init 0); DealCard 1 false;
   NewCard 0 0 (Hand.init 0); DealCard 2 false;
   GiveInformation 0 [0; 1; 2] (color_clue 0 false);
   GiveInformation 0 [0; 1; 2] (value_clue 0 false)].

(** ** Notions for the further properties *)

(** Number of identities a mask leaves possible. *)
Definition row_count (r : list bool) : nat :=
  length (filter (fun b : bool => b = true) r).

Definition true_count (m : list (list bool)) : nat :=
  sum_list (row_count <$> m).

(** Exchanging the elements at positions [i] and [j]. *)
Definition swapped {A} (i j : nat) (l : list A) : list A :=
  match l !! i, l !! j with
  | Some x, Some y => <[i := y]> (<[j := x]> l)
  | _, _ => l
  end.

(** The cards a call of [Hand.add_information] reaches: [addressed] are
    those some element of [card_index] resolves to, [passed_over]
    those sitting at a position that is not in [card_index]. *)
Definition addressed_card (self : Hand.t) (idx : Z) : option nat :=
  match Py.item (Hand.cards self) idx with
  | Ok r => Some r
  | Raise _ => None
  end.

Definition addressed (self : Hand.t) (card_index : list Z) (r : nat) : bool :=
  existsb (fun idx => bool_decide (addressed_card self idx = Some r)) card_index.

Definition passed_over_card (card_index : list Z) (ir : nat * nat) : option nat :=
  if Py.contains card_index (Z.of_nat (fst ir)) then None else Some (snd ir).

Definition passed_over (self : Hand.t) (card_index : list Z) (r : nat) : bool :=
  existsb (fun ir => bool_decide (passed_over_card card_index ir = Some r))
          (imap pair (Hand.cards self)).

(** Number of cards in the players' hands. *)
Definition in_hands (g : Game.t) : Z :=
  foldr Z.add 0 ((fun hand => Z.of_nat (length (Hand.cards hand))) <$> Game.players g).

(** The book-keeping every reachable state satisfies: five stacks
    between 0 and 5 whose sum is the score, a penalty that is not
    negative, fifty cards in all between the deck, the hands and the
    cards played, and hands whose id is their position. *)
Record accounted (g : Game.t) : Prop := {
  acc_stacks_len : length (Game.stacks g) = 5%nat;
  acc_stacks_range : Forall (fun x => 0 <= x <= 5) (Game.stacks g);
  acc_score : Game.score g = foldr Z.add 0 (Game.stacks g);
  acc_penalty : 0 <= Game.penalty g;
  acc_cards : Np.sum (Game.deck g) + in_hands g + Game.score g + Game.penalty g = 50;
  acc_ids : forall p hand, Game.players g !! p = Some hand -> Hand.id hand = Z.of_nat p
}.

(** The last step of [play_card] on the card [c]: the stack of its
    colour and the score go up when the card is the one expected,
    otherwise the penalty does. *)
Definition scored (c : Card.t) (g : Game.t) : Game.t :=
  match Game.stacks g !! Z.to_nat (Card.color c) with
  | Some top =>
      if top =? Card.value c
      then Game.set_score (Game.score g + 1)
             (Game.set_stacks (<[Z.to_nat (Card.color c) := top + 1]> (Game.stacks g)) g)
      else Game.set_penalty (Game.penalty g + 1) g
  | None => g
  end.

(** A step keeps the invariant and the book-keeping together. *)
Definition keeps_books (g g' : Game.t) : Prop :=
  consistent g /\ accounted g -> consistent g' /\ accounted g'.

(** One player, one card, told its colour and its value. *)
Definition told_everything_script : list call :=
  [AddPlayer; NewCard 0 0 (Hand.init 0); DealCard 0 false;
   GiveInformation 0 [0] (color_clue 0 false);
   GiveInformation 0 [0] (value_clue 0 false)].

(** One player is dealt the same card object twice. *)
Definition dealt_twice_script : list call :=
  [AddPlayer; NewCard 0 0 (Hand.init 0); DealCard 0 false; DealCard 0 false].

(** * Properties *)

(** ** Subscripts and grids *)

Lemma index_in_range (n : nat) (i : Z) :
  0 <= i < Z.of_nat n -> Py.index n i = Ok (Z.to_nat i).
Proof.
  intros Hi. unfold Py.index.
  destruct (0 <=? i) eqn:H0; [|lia].
  destruct (i <? Z.of_nat n) eqn:H1; [reflexivity|lia].
Qed.

Lemma bound_in_range (n : nat) (i : Z) :
  0 <= i <= Z.of_nat n -> Py.bound n i = Z.to_nat i.
Proof.
  intros Hi. unfold Py.bound.
  destruct (i <? 0) eqn:H0; [lia|].
  f_equal. lia.
Qed.

Lemma within_spec (lo hi i : nat) :
  Np.within lo hi i = true <-> (lo <= i < hi)%nat.
Proof.
  unfold Np.within. rewrite andb_true_iff, Nat.leb_le, Nat.ltb_lt. tauto.
Qed.

Lemma within_single (k i : nat) :
  Np.within k (S k) i = Nat.eqb i k.
Proof.
  destruct (Nat.eqb i k) eqn:E.
  - apply Nat.eqb_eq in E. apply within_spec. lia.
  - apply Nat.eqb_neq in E. destruct (Np.within k (S k) i) eqn:W; [|reflexivity].
    apply within_spec in W. lia.
Qed.

Section Grids.

Context {A : Type}.
Implicit Types (m : list (list A)) (x : A).

Lemma cell_fill_rows x lo hi m i j :
  Np.cell (Np.fill_rows x lo hi m) i j
  = (fun y => if Np.within lo hi i then x else y) <$> Np.cell m i j.
Proof.
  unfold Np.cell, Np.fill_rows. rewrite list_lookup_imap.
  destruct (m !! i) as [r|]; simpl; [|reflexivity].
  destruct (Np.within lo hi i).
  - rewrite list_lookup_fmap. reflexivity.
  - destruct (r !! j); reflexivity.
Qed.

Lemma cell_fill_cols x lo hi m i j :
  Np.cell (Np.fill_cols x lo hi m) i j
  = (fun y => if Np.within lo hi j then x else y) <$> Np.cell m i j.
Proof.
  unfold Np.cell, Np.fill_cols. rewrite list_lookup_fmap.
  destruct (m !! i) as [r|]; simpl; [|reflexivity].
  rewrite list_lookup_imap. reflexivity.
Qed.

Lemma shape_fill_rows x lo hi m r c :
  Np.shape r c m -> Np.shape r c (Np.fill_rows x lo hi m).
Proof.
  intros [Hl Hr]. split.
  - unfold Np.fill_rows. rewrite length_imap. exact Hl.
  - apply Forall_lookup. intros i row Hrow.
    unfold Np.fill_rows in Hrow. rewrite list_lookup_imap in Hrow.
    destruct (m !! i) as [row0|] eqn:E; simpl in Hrow; [|discriminate].
    injection Hrow as <-.
    pose proof (Forall_lookup_1 _ _ _ _ Hr E) as Hrow0. simpl in Hrow0.
    destruct (Np.within lo hi i); [rewrite length_fmap|]; exact Hrow0.
Qed.

Lemma shape_fill_cols x lo hi m r c :
  Np.shape r c m -> Np.shape r c (Np.fill_cols x lo hi m).
Proof.
  intros [Hl Hr]. split.
  - unfold Np.fill_cols. rewrite length_fmap. exact Hl.
  - apply Forall_lookup. intros i row Hrow.
    unfold Np.fill_cols in Hrow. rewrite list_lookup_fmap in Hrow.
    destruct (m !! i) as [row0|] eqn:E; simpl in Hrow; [|discriminate].
    injection Hrow as <-. rewrite length_imap.
    exact (Forall_lookup_1 _ _ _ _ Hr E).
Qed.

Lemma shape_nrows m r c : Np.shape r c m -> Np.nrows m = r.
Proof. intros [Hl _]. exact Hl. Qed.

Lemma shape_ncols m r c : Np.shape (S r) c m -> Np.ncols m = c.
Proof.
  intros [Hl Hr]. destruct m as [|row m']; [discriminate|].
  simpl. exact (Forall_inv Hr).
Qed.

Lemma shape_cell m r c i j :
  Np.shape r c m -> (i < r)%nat -> (j < c)%nat -> is_Some (Np.cell m i j).
Proof.
  intros [Hl Hr] Hi Hj. unfold Np.cell.
  destruct (lookup_lt_is_Some_2 m i ltac:(lia)) as [row Hrow].
  rewrite Hrow. apply lookup_lt_is_Some_2.
  rewrite (Forall_lookup_1 _ _ _ _ Hr Hrow). exact Hj.
Qed.

Lemma shape_cell_None m r c i j :
  Np.shape r c m -> (r <= i)%nat \/ (c <= j)%nat -> Np.cell m i j = None.
Proof.
  intros [Hl Hr] Hij. unfold Np.cell.
  destruct (m !! i) as [row|] eqn:Hrow; [|reflexivity].
  apply lookup_ge_None. rewrite (Forall_lookup_1 _ _ _ _ Hr Hrow).
  apply lookup_lt_Some in Hrow. lia.
Qed.

(** Two grids with as many rows and the same cells are equal. *)
Lemma grid_ext m1 m2 :
  length m1 = length m2 ->
  (forall i j, Np.cell m1 i j = Np.cell m2 i j) ->
  m1 = m2.
Proof.
  intros Hl Hc. apply list_eq. intros i.
  destruct (m1 !! i) as [r1|] eqn:E1, (m2 !! i) as [r2|] eqn:E2.
  - f_equal. apply list_eq. intros j.
    specialize (Hc i j). unfold Np.cell in Hc. rewrite E1, E2 in Hc. exact Hc.
  - apply lookup_lt_Some in E1. apply lookup_ge_None in E2. lia.
  - apply lookup_ge_None in E1. apply lookup_lt_Some in E2. lia.
  - reflexivity.
Qed.

Lemma cell_zip_with {B C} (f : A -> B -> C) m (k : list (list B)) i j :
  Np.cell (zip_with (zip_with f) m k) i j
  = match Np.cell m i j, Np.cell k i j with
    | Some x, Some y => Some (f x y)
    | _, _ => None
    end.
Proof.
  unfold Np.cell. rewrite lookup_zip_with.
  destruct (m !! i) as [r|]; simpl; [|reflexivity].
  destruct (k !! i) as [s|]; simpl.
  - rewrite lookup_zip_with.
    destruct (r !! j); simpl; [|reflexivity].
    destruct (s !! j); reflexivity.
  - destruct (r !! j); reflexivity.
Qed.

End Grids.

Lemma shape_ones : Np.shape 5 5 Np.ones.
Proof. split; [reflexivity|]. repeat constructor. Qed.

Lemma shapeb_shape {A} r c (m : list (list A)) :
  Np.shapeb r c m = true -> Np.shape r c m.
Proof.
  unfold Np.shapeb, Np.shape. rewrite andb_true_iff, Nat.eqb_eq.
  intros [Hl Hr]. split; [exact Hl|].
  apply Forall_forall. intros row Hin.
  rewrite forallb_forall in Hr. apply Nat.eqb_eq, Hr.
  apply list_elem_of_In, Hin.
Qed.

(** ** Clues on a card *)

Lemma cell_clue_mask info i j :
  Np.cell (clue_mask info) i j
  = if Nat.ltb i 5 && Nat.ltb j 5 then Some (clue_keeps info i j) else None.
Proof.
  destruct (Nat.ltb i 5) eqn:Hi; [apply Nat.ltb_lt in Hi|apply Nat.ltb_ge in Hi].
  - destruct (Nat.ltb j 5) eqn:Hj; [apply Nat.ltb_lt in Hj|apply Nat.ltb_ge in Hj].
    + do 5 (destruct i as [|i]; [do 5 (destruct j as [|j]; [reflexivity|]); lia|]). lia.
    + do 5 (destruct i as [|i];
            [do 5 (destruct j as [|j]; [lia|]); reflexivity|]). lia.
  - do 5 (destruct i as [|i]; [lia|]). reflexivity.
Qed.

(** The mask after a clue, cell by cell. *)
Lemma add_information_mask_cells info m :
  Np.shape 5 5 m -> valid_clue info = true ->
  exists m',
    Card.add_information_mask info m = Ok m' /\
    Np.shape 5 5 m' /\
    forall i j, Np.cell m' i j = (fun y => y && clue_keeps info i j) <$> Np.cell m i j.
Proof.
  intros Hs Hv. unfold valid_clue in Hv.
  apply andb_true_iff in Hv as [H0 H5].
  apply Z.leb_le in H0. apply Z.ltb_lt in H5.
  pose proof (shape_nrows _ _ _ Hs) as Hn.
  pose proof (shape_ncols _ _ _ Hs) as Hc.
  destruct info as [is_color d negative]. simpl in H0, H5.
  unfold Card.add_information_mask, clue_keeps. simpl.
  destruct is_color, negative.
  - rewrite Hn, index_in_range by lia. simpl.
    eexists. split; [reflexivity|]. split; [apply shape_fill_rows, Hs|].
    intros i j. rewrite cell_fill_rows, within_single.
    destruct (Np.cell m i j) as [y|]; simpl; [|reflexivity]. f_equal.
    destruct (Nat.eqb i (Z.to_nat d)) eqn:E;
      [apply Nat.eqb_eq in E|apply Nat.eqb_neq in E].
    + replace (Z.of_nat i =? d) with true by (symmetry; apply Z.eqb_eq; lia).
      destruct y; reflexivity.
    + replace (Z.of_nat i =? d) with false by (symmetry; apply Z.eqb_neq; lia).
      destruct y; reflexivity.
  - set (m1 := Np.fill_rows false 0 (Py.bound (Np.nrows m) d) m).
    assert (Hs1 : Np.shape 5 5 m1) by apply shape_fill_rows, Hs.
    rewrite (shape_nrows _ _ _ Hs1). subst m1. rewrite Hn.
    rewrite !bound_in_range by lia.
    eexists. split; [reflexivity|]. split; [apply shape_fill_rows, shape_fill_rows, Hs|].
    intros i j. rewrite !cell_fill_rows.
    destruct (Np.cell m i j) as [y|] eqn:Hy; simpl; [|reflexivity]. f_equal.
    assert (Hi : (i < 5)%nat).
    { destruct (Nat.lt_ge_cases i 5) as [Hlt|Hge]; [exact Hlt|].
      rewrite (shape_cell_None _ _ _ _ _ Hs) in Hy by (left; exact Hge). discriminate. }
    destruct (Z.of_nat i =? d) eqn:E; [apply Z.eqb_eq in E|apply Z.eqb_neq in E].
    + replace (Np.within (Z.to_nat (d + 1)) 5 i) with false
        by (symmetry; apply not_true_iff_false; rewrite within_spec; lia).
      replace (Np.within 0 (Z.to_nat d) i) with false
        by (symmetry; apply not_true_iff_false; rewrite within_spec; lia).
      destruct y; reflexivity.
    + destruct (Np.within (Z.to_nat (d + 1)) 5 i) eqn:W1;
        [destruct y; reflexivity|].
      replace (Np.within 0 (Z.to_nat d) i) with true;
        [destruct y; reflexivity|].
      symmetry. apply within_spec.
      apply not_true_iff_false in W1. rewrite within_spec in W1. lia.
  - rewrite Hc, index_in_range by lia. simpl.
    eexists. split; [reflexivity|]. split; [apply shape_fill_cols, Hs|].
    intros i j. rewrite cell_fill_cols, within_single.
    destruct (Np.cell m i j) as [y|]; simpl; [|reflexivity]. f_equal.
    destruct (Nat.eqb j (Z.to_nat d)) eqn:E;
      [apply Nat.eqb_eq in E|apply Nat.eqb_neq in E].
    + replace (Z.of_nat j =? d) with true by (symmetry; apply Z.eqb_eq; lia).
      destruct y; reflexivity.
    + replace (Z.of_nat j =? d) with false by (symmetry; apply Z.eqb_neq; lia).
      destruct y; reflexivity.
  - set (m1 := Np.fill_cols false 0 (Py.bound (Np.ncols m) d) m).
    assert (Hs1 : Np.shape 5 5 m1) by apply shape_fill_cols, Hs.
    rewrite (shape_ncols _ _ _ Hs1). subst m1. rewrite Hc.
    rewrite !bound_in_range by lia.
    eexists. split; [reflexivity|]. split; [apply shape_fill_cols, shape_fill_cols, Hs|].
    intros i j. rewrite !cell_fill_cols.
    destruct (Np.cell m i j) as [y|] eqn:Hy; simpl; [|reflexivity]. f_equal.
    assert (Hj : (j < 5)%nat).
    { destruct (Nat.lt_ge_cases j 5) as [Hlt|Hge]; [exact Hlt|].
      rewrite (shape_cell_None _ _ _ _ _ Hs) in Hy by (right; exact Hge). discriminate. }
    destruct (Z.of_nat j =? d) eqn:E; [apply Z.eqb_eq in E|apply Z.eqb_neq in E].
    + replace (Np.within (Z.to_nat (d + 1)) 5 j) with false
        by (symmetry; apply not_true_iff_false; rewrite within_spec; lia).
      replace (Np.within 0 (Z.to_nat d) j) with false
        by (symmetry; apply not_true_iff_false; rewrite within_spec; lia).
      destruct y; reflexivity.
    + destruct (Np.within (Z.to_nat (d + 1)) 5 j) eqn:W1;
        [destruct y; reflexivity|].
      replace (Np.within 0 (Z.to_nat d) j) with true;
        [destruct y; reflexivity|].
      symmetry. apply within_spec.
      apply not_true_iff_false in W1. rewrite within_spec in W1. lia.
Qed.

Lemma at_after_clue info m m' i j :
  (forall i j, Np.cell m' i j = (fun y => y && clue_keeps info i j) <$> Np.cell m i j) ->
  at_ false m' i j = at_ false m i j && clue_keeps info i j.
Proof.
  intros Hc. unfold at_. rewrite Hc.
  destruct (Np.cell m i j); reflexivity.
Qed.

(** C7: on a card that is not played, a clue with index [c] in [0, 5)
    zeroes every row but [c] when it affirms a colour, row [c] only when
    it negates one, and the same on columns for a value; no cell goes
    back to true. *)
Theorem add_information_zeroes (c : Card.t) (info : Information.t) :
  Card.played c = false ->
  Np.shape 5 5 (Card.states c) ->
  0 <= Information.data info < 5 ->
  exists c',
    Card.add_information info c = Ok c' /\
    forall i j, (i < 5)%nat -> (j < 5)%nat ->
      let old := at_ false (Card.states c) i j in
      let new := at_ false (Card.states c') i j in
      new = match Information.is_color info, Information.negative info with
            | true, false => if Z.of_nat i =? Information.data info then old else false
            | true, true => if Z.of_nat i =? Information.data info then false else old
            | false, false => if Z.of_nat j =? Information.data info then old else false
            | false, true => if Z.of_nat j =? Information.data info then false else old
            end
      /\ (new = true -> old = true).
Proof.
  intros _ Hs Hd.
  assert (Hv : valid_clue info = true).
  { unfold valid_clue. apply andb_true_iff. split; [apply Z.leb_le|apply Z.ltb_lt]; lia. }
  destruct (add_information_mask_cells info _ Hs Hv) as (m' & Hm & _ & Hcells).
  exists (Card.set_states m' c). split.
  - unfold Card.add_information. rewrite Hm. reflexivity.
  - intros i j _ _. simpl.
    rewrite (at_after_clue info _ _ i j Hcells).
    unfold clue_keeps.
    destruct (Information.is_color info), (Information.negative info);
      match goal with
      | |- context [Z.of_nat ?k =? ?d] => destruct (Z.of_nat k =? d)
      end;
      destruct (at_ false (Card.states c) i j); simpl; split; congruence.
Qed.

Lemma add_information_zeroes_witness :
  exists c',
    Card.add_information (color_clue 2 false) (fresh_card 0 1 0) = Ok c' /\
    forall i j, (i < 5)%nat -> (j < 5)%nat ->
      let old := at_ false (Card.states (fresh_card 0 1 0)) i j in
      let new := at_ false (Card.states c') i j in
      new = (if Z.of_nat i =? 2 then old else false) /\ (new = true -> old = true).
Proof.
  apply (add_information_zeroes (fresh_card 0 1 0) (color_clue 2 false)).
  - reflexivity.
  - apply shapeb_shape. reflexivity.
  - simpl. lia.
Defined.

(** ** Clues as conjunctions *)

Lemma add_information_mask_conj info m :
  Np.shape 5 5 m -> valid_clue info = true ->
  Card.add_information_mask info m = Ok (conj_mask m (clue_mask info))
  /\ Np.shape 5 5 (conj_mask m (clue_mask info)).
Proof.
  intros Hs Hv.
  destruct (add_information_mask_cells info m Hs Hv) as (m' & Hm & Hs' & Hcells).
  assert (E : m' = conj_mask m (clue_mask info)).
  { apply grid_ext.
    - unfold conj_mask. rewrite length_zip_with.
      destruct Hs as [Hl _], Hs' as [Hl' _].
      rewrite Hl, Hl'. reflexivity.
    - intros i j. rewrite Hcells. unfold conj_mask.
      rewrite cell_zip_with, cell_clue_mask.
      destruct (Np.cell m i j) as [y|] eqn:Hy; simpl; [|reflexivity].
      destruct (Nat.lt_ge_cases i 5) as [Hi|Hi];
        [|rewrite (shape_cell_None _ _ _ _ _ Hs) in Hy by (left; exact Hi); discriminate].
      destruct (Nat.lt_ge_cases j 5) as [Hj|Hj];
        [|rewrite (shape_cell_None _ _ _ _ _ Hs) in Hy by (right; exact Hj); discriminate].
      apply Nat.ltb_lt in Hi, Hj. rewrite Hi, Hj. reflexivity. }
  subst m'. split; assumption.
Qed.

Lemma conj_mask_swap (m a b : list (list bool)) :
  conj_mask (conj_mask m a) b = conj_mask (conj_mask m b) a.
Proof.
  apply grid_ext.
  - unfold conj_mask. rewrite !length_zip_with. lia.
  - intros i j. unfold conj_mask. rewrite !cell_zip_with.
    destruct (Np.cell m i j) as [x|], (Np.cell a i j) as [y|], (Np.cell b i j) as [z|];
      try reflexivity.
    f_equal. destruct x, y, z; reflexivity.
Qed.

Lemma conj_mask_twice (m a : list (list bool)) :
  conj_mask (conj_mask m a) a = conj_mask m a.
Proof.
  apply grid_ext.
  - unfold conj_mask. rewrite !length_zip_with. lia.
  - intros i j. unfold conj_mask. rewrite !cell_zip_with.
    destruct (Np.cell m i j) as [x|], (Np.cell a i j) as [y|]; try reflexivity.
    f_equal. destruct x, y; reflexivity.
Qed.

Lemma add_information_conj info c :
  Np.shape 5 5 (Card.states c) -> valid_clue info = true ->
  Card.add_information info c
  = Ok (Card.set_states (conj_mask (Card.states c) (clue_mask info)) c).
Proof.
  intros Hs Hv. unfold Card.add_information.
  destruct (add_information_mask_conj info _ Hs Hv) as [-> _]. reflexivity.
Qed.

(** C10: a clue replaces the mask by its pointwise conjunction with a
    grid that depends on the clue alone; hence two clues give the same
    card in either order, and a clue given twice gives what it gives
    once. *)
Theorem add_information_conjunction (c : Card.t) (info1 info2 : Information.t) :
  Np.shape 5 5 (Card.states c) ->
  valid_clue info1 = true ->
  valid_clue info2 = true ->
  Card.add_information info1 c
    = Ok (Card.set_states (conj_mask (Card.states c) (clue_mask info1)) c)
  /\ (exists c',
        (let* c1 := Card.add_information info1 c in Card.add_information info2 c1) = Ok c'
        /\ (let* c2 := Card.add_information info2 c in Card.add_information info1 c2) = Ok c')
  /\ (let* c1 := Card.add_information info1 c in Card.add_information info1 c1)
      = Card.add_information info1 c.
Proof.
  intros Hs H1 H2.
  pose proof (add_information_mask_conj info1 _ Hs H1) as [_ Hs1].
  pose proof (add_information_mask_conj info2 _ Hs H2) as [_ Hs2].
  split; [apply add_information_conj; assumption|]. split.
  - eexists.
    rewrite !(add_information_conj _ c) by assumption. simpl.
    rewrite !add_information_conj by assumption. simpl.
    split; [reflexivity|].
    unfold Card.set_states. simpl. rewrite (conj_mask_swap _ (clue_mask info2)).
    reflexivity.
  - rewrite (add_information_conj _ c) by assumption. simpl.
    rewrite add_information_conj by assumption.
    unfold Card.set_states. simpl. rewrite conj_mask_twice. reflexivity.
Qed.

Lemma add_information_conjunction_witness :
  Card.add_information (color_clue 2 false) (fresh_card 2 3 0)
    = Ok (Card.set_states
            (conj_mask (Card.states (fresh_card 2 3 0)) (clue_mask (color_clue 2 false)))
            (fresh_card 2 3 0))
  /\ (exists c',
        (let* c1 := Card.add_information (color_clue 2 false) (fresh_card 2 3 0) in
         Card.add_information (value_clue 4 true) c1) = Ok c'
        /\ (let* c2 := Card.add_information (value_clue 4 true) (fresh_card 2 3 0) in
            Card.add_information (color_clue 2 false) c2) = Ok c')
  /\ (let* c1 := Card.add_information (color_clue 2 false) (fresh_card 2 3 0) in
      Card.add_information (color_clue 2 false) c1)
      = Card.add_information (color_clue 2 false) (fresh_card 2 3 0).
Proof.
  apply (add_information_conjunction (fresh_card 2 3 0) (color_clue 2 false) (value_clue 4 true)).
  - apply shapeb_shape. reflexivity.
  - reflexivity.
  - reflexivity.
Defined.

(** ** Truthful clues *)

Lemma truthful_keeps c info :
  0 <= Card.color c -> 0 <= Card.value c ->
  truthful c info = true ->
  clue_keeps info (Z.to_nat (Card.color c)) (Z.to_nat (Card.value c)) = true.
Proof.
  intros Hc Hv. unfold truthful, clue_keeps.
  destruct (Information.is_color info); rewrite Z2Nat.id by assumption;
    rewrite (Z.eqb_sym (Information.data info)); trivial.
Qed.

(** C9: truthful clues, in any number and order, leave the cell of the
    card's own colour and value true. *)
Theorem truthful_clues_keep_identity (c : Card.t) (infos : list Information.t) :
  Np.shape 5 5 (Card.states c) ->
  0 <= Card.color c < 5 ->
  0 <= Card.value c < 5 ->
  at_ false (Card.states c) (Z.to_nat (Card.color c)) (Z.to_nat (Card.value c)) = true ->
  Forall (fun info => valid_clue info = true) infos ->
  Forall (fun info => truthful c info = true) infos ->
  exists c',
    add_all infos c = Ok c' /\
    at_ false (Card.states c') (Z.to_nat (Card.color c)) (Z.to_nat (Card.value c)) = true.
Proof.
  intros Hs Hc Hv Hcell Hvalid Htruth.
  remember (Card.color c) as col eqn:Ecol.
  remember (Card.value c) as val eqn:Eval.
  assert (Htruth' : Forall (fun info =>
            clue_keeps info (Z.to_nat col) (Z.to_nat val) = true) infos).
  { eapply Forall_impl; [exact Htruth|]. intros info Ht. subst col val.
    apply truthful_keeps; [lia|lia|exact Ht]. }
  clear Htruth Ecol Eval.
  revert c Hs Hcell. induction infos as [|info infos IH]; intros c Hs Hcell.
  - exists c. split; [reflexivity|exact Hcell].
  - apply Forall_cons in Hvalid as [Hv1 Hvalid].
    apply Forall_cons in Htruth' as [Ht1 Htruth'].
    destruct (add_information_mask_cells info _ Hs Hv1) as (m' & Hm & Hs' & Hcells).
    unfold add_all. simpl. unfold Card.add_information at 1. rewrite Hm. simpl.
    apply (IH Hvalid Htruth' (Card.set_states m' c)).
    + exact Hs'.
    + simpl. rewrite (at_after_clue info _ _ _ _ Hcells), Hcell, Ht1. reflexivity.
Qed.

Lemma truthful_clues_keep_identity_witness :
  exists c',
    add_all [color_clue 0 false; value_clue 2 true; value_clue 1 false; color_clue 4 true]
            (fresh_card 0 1 0) = Ok c' /\
    at_ false (Card.states c') 0 1 = true.
Proof.
  apply (truthful_clues_keep_identity (fresh_card 0 1 0)
           [color_clue 0 false; value_clue 2 true; value_clue 1 false; color_clue 4 true]).
  - apply shapeb_shape. reflexivity.
  - simpl. lia.
  - simpl. lia.
  - reflexivity.
  - repeat constructor.
  - repeat constructor.
Defined.

(** ** Clues and played cards *)

Lemma for_each_app {S A} (l1 l2 : list A) (body : A -> M S unit) (s : S) :
  for_each (l1 ++ l2) body s
  = (let! _ := for_each l1 body in for_each l2 body) s.
Proof.
  revert s. induction l1 as [|a l1 IH]; intros s; simpl.
  - reflexivity.
  - unfold bind.
    destruct (body a s) as [[[]|e] s1]; [|reflexivity].
    rewrite IH. reflexivity.
Qed.

(** A loop keeps every relation between stores that is reflexive,
    transitive and kept by its body, whether or not it raises. *)
Lemma for_each_keeps {S A} (R : S -> S -> Prop) (l : list A) (body : A -> M S unit) :
  (forall s, R s s) ->
  (forall s1 s2 s3, R s1 s2 -> R s2 s3 -> R s1 s3) ->
  (forall a s, a ∈ l -> R s (snd (body a s))) ->
  forall s, R s (snd (for_each l body s)).
Proof.
  intros Hrefl Htrans. induction l as [|a l IH]; intros Hbody s; simpl.
  - apply Hrefl.
  - unfold bind. pose proof (Hbody a s ltac:(left)) as Ha.
    destruct (body a s) as [[[]|e] s1]; simpl in *; [|exact Ha].
    eapply Htrans; [exact Ha|]. apply IH. intros b s' Hb. apply Hbody. right. exact Hb.
Qed.

Lemma same_but_masks_refl h : same_but_masks h h.
Proof. intros r. reflexivity. Qed.

Lemma same_but_masks_trans h1 h2 h3 :
  same_but_masks h1 h2 -> same_but_masks h2 h3 -> same_but_masks h1 h3.
Proof. intros H12 H23 r. rewrite H23. apply H12. Qed.

Lemma same_but_masks_played h h' r c :
  same_but_masks h h' -> h !! r = Some c ->
  exists c', h' !! r = Some c' /\ Card.played c' = Card.played c
             /\ Card.color c' = Card.color c /\ Card.value c' = Card.value c.
Proof.
  intros Hs Hr. specialize (Hs r). rewrite Hr in Hs.
  destruct (h' !! r) as [c'|]; [|discriminate].
  exists c'. simpl in Hs. injection Hs as H1 H2 H3 H4 H5. auto.
Qed.

Lemma card_add_information_changes r info h :
  let h' := snd (card_add_information r info h) in
  same_but_masks h h' /\ forall r', r' <> r -> h' !! r' = h !! r'.
Proof.
  unfold card_add_information, bind, deref, lift, modify. simpl.
  destruct (h !! r) as [c|] eqn:Hr; simpl;
    [|split; [apply same_but_masks_refl|reflexivity]].
  unfold Card.add_information.
  destruct (Card.add_information_mask info (Card.states c)) as [m|e]; simpl;
    [|split; [apply same_but_masks_refl|reflexivity]].
  split.
  - intros r'. destruct (decide (r' = r)) as [->|Hne].
    + rewrite list_lookup_insert_eq by (eapply lookup_lt_Some; exact Hr).
      rewrite Hr. reflexivity.
    + rewrite list_lookup_insert_ne by congruence. reflexivity.
  - intros r' Hne. apply list_lookup_insert_ne. congruence.
Qed.

Lemma give_addressed_changes self info idx h :
  let h' := snd (Hand.give_addressed self info idx h) in
  same_but_masks h h' /\
  forall r', Py.item (Hand.cards self) idx <> Ok r' -> h' !! r' = h !! r'.
Proof.
  unfold Hand.give_addressed, bind, lift, deref, raise.
  destruct (Py.item (Hand.cards self) idx) as [r|e]; simpl;
    [|split; [apply same_but_masks_refl|reflexivity]].
  destruct (h !! r) as [c|]; simpl; [|split; [apply same_but_masks_refl|reflexivity]].
  destruct (Card.played c); simpl; [split; [apply same_but_masks_refl|reflexivity]|].
  destruct (card_add_information_changes r info h) as [H1 H2].
  split; [exact H1|]. intros r' Hne. apply H2. congruence.
Qed.

Lemma addressed_loop_changes self info l h :
  let h' := snd (for_each l (Hand.give_addressed self info) h) in
  same_but_masks h h' /\
  forall r', (forall i, i ∈ l -> Py.item (Hand.cards self) i <> Ok r') -> h' !! r' = h !! r'.
Proof.
  simpl. split.
  - apply (for_each_keeps same_but_masks).
    + apply same_but_masks_refl.
    + apply same_but_masks_trans.
    + intros idx s _. apply give_addressed_changes.
  - intros r' Hr'.
    apply (for_each_keeps (fun s s' => s' !! r' = s !! r')).
    + reflexivity.
    + intros s1 s2 s3 H12 H23. congruence.
    + intros idx s Hin. apply give_addressed_changes. apply Hr', Hin.
Qed.

Lemma give_addressed_played self info idx h r c :
  Py.item (Hand.cards self) idx = Ok r ->
  h !! r = Some c ->
  Card.played c = true ->
  Hand.give_addressed self info idx h = (Raise ValueError, h).
Proof.
  intros Hi Hr Hp. unfold Hand.give_addressed, bind, lift, deref, raise.
  rewrite Hi, Hr, Hp. reflexivity.
Qed.

(** C5: [Card.add_information] does not look at the [played] flag: a
    played card gets the mask an unplayed one would get, and keeps its
    flag.  Played cards are turned away one level up: [Hand.add_information]
    raises, with the heap untouched, when the first addressed card is
    played. *)
Theorem add_information_ignores_played
    (c : Card.t) (info : Information.t) (self : Hand.t) (idx : Z) (rest : list Z)
    (h : heap) (r : nat) (pc : Card.t) :
  Py.item (Hand.cards self) idx = Ok r ->
  h !! r = Some pc ->
  Card.played pc = true ->
  Card.add_information info (Card.set_played true c)
    = (let* c' := Card.add_information info c in Ok (Card.set_played true c'))
  /\ Hand.add_information self (idx :: rest) info h = (Raise ValueError, h).
Proof.
  intros Hi Hr Hp. split.
  - unfold Card.add_information. simpl.
    destruct (Card.add_information_mask info (Card.states c)); reflexivity.
  - unfold Hand.add_information. unfold bind at 1. simpl. unfold bind at 1.
    rewrite (give_addressed_played _ _ _ _ _ _ Hi Hr Hp). reflexivity.
Qed.

Lemma add_information_ignores_played_witness :
  Card.add_information (color_clue 1 false) (Card.set_played true (fresh_card 0 0 0))
    = (let* c' := Card.add_information (color_clue 1 false) (fresh_card 0 0 0) in
       Ok (Card.set_played true c'))
  /\ Hand.add_information (Hand.make 0 [0%nat]) [0] (color_clue 1 false)
       [Card.set_played true (fresh_card 0 0 0)]
     = (Raise ValueError, [Card.set_played true (fresh_card 0 0 0)]).
Proof.
  apply (add_information_ignores_played (fresh_card 0 0 0) (color_clue 1 false)
           (Hand.make 0 [0%nat]) 0 [] [Card.set_played true (fresh_card 0 0 0)]
           0%nat (Card.set_played true (fresh_card 0 0 0)));
    reflexivity.
Defined.

(** C5, as stated, fails: a played card takes a clue and its mask
    changes. *)
Lemma add_information_on_played_card :
  ~ (forall (c : Card.t) (info : Information.t),
       Card.played c = true ->
       exists e, Card.add_information info c = Raise e).
Proof.
  intros H.
  destruct (H (Card.set_played true (fresh_card 0 0 0)) (color_clue 1 false) eq_refl)
    as [e He].
  discriminate He.
Qed.

(** C6: when an addressed card is played, [Hand.add_information]
    raises; the heap it leaves is the one the loop over the targets
    listed before that card produced, so those earlier targets may
    already carry the clue, and every card that no earlier target
    addresses is as it was. *)
Theorem hand_add_information_played
    (self : Hand.t) (pre post : list Z) (idx : Z) (info : Information.t)
    (h : heap) (r : nat) (pc : Card.t) :
  Py.item (Hand.cards self) idx = Ok r ->
  h !! r = Some pc ->
  Card.played pc = true ->
  let h' := snd (for_each pre (Hand.give_addressed self info) h) in
  (exists e, Hand.add_information self (pre ++ idx :: post) info h = (Raise e, h'))
  /\ (forall r', (forall i, i ∈ pre -> Py.item (Hand.cards self) i <> Ok r') ->
                 h' !! r' = h !! r').
Proof.
  intros Hi Hr Hp h'.
  destruct (addressed_loop_changes self info pre h) as [Hsame Hframe].
  split; [|exact Hframe].
  unfold Hand.add_information. unfold bind at 1. rewrite for_each_app.
  unfold bind at 1. subst h'.
  destruct (for_each pre (Hand.give_addressed self info) h) as [[[]|e] h1] eqn:Hpre;
    simpl in *; [|exists e; reflexivity].
  destruct (same_but_masks_played _ _ _ _ Hsame Hr) as (pc' & Hr' & Hp' & _).
  unfold bind at 1.
  rewrite (give_addressed_played self info idx h1 r pc' Hi Hr') by congruence.
  exists ValueError. reflexivity.
Qed.

(** ** Counts in the deck and in the players' matrices *)

Lemma wrap32_small (x : Z) : - 2 ^ 31 <= x < 2 ^ 31 -> Np.wrap32 x = x.
Proof.
  intros Hx. unfold Np.wrap32. rewrite Z.mod_small; lia.
Qed.

Section Cells.

Context {A : Type}.
Implicit Types (m : list (list A)) (x : A).

Lemma cell_set m i j x i' j' :
  Np.cell (Np.set m i j x) i' j'
  = if decide (i' = i /\ j' = j) then (fun _ => x) <$> Np.cell m i j else Np.cell m i' j'.
Proof.
  unfold Np.cell, Np.set.
  destruct (decide (i' = i)) as [->|Hi].
  - rewrite list_lookup_alter_eq.
    destruct (m !! i) as [r|] eqn:Hr; simpl.
    + destruct (decide (j' = j)) as [->|Hj].
      * rewrite decide_True by auto.
        destruct (r !! j) eqn:Hj.
        -- rewrite list_lookup_insert_eq by (eapply lookup_lt_Some; exact Hj). reflexivity.
        -- rewrite list_insert_ge by (apply lookup_ge_None; exact Hj). exact Hj.
      * rewrite decide_False by tauto.
        rewrite list_lookup_insert_ne by congruence. reflexivity.
    + destruct (decide (i = i /\ j' = j)); reflexivity.
  - rewrite list_lookup_alter_ne by congruence.
    rewrite decide_False by tauto. reflexivity.
Qed.

Lemma shape_set m i j x r c :
  Np.shape r c m -> Np.shape r c (Np.set m i j x).
Proof.
  intros [Hl Hr]. unfold Np.set. split.
  - rewrite length_alter. exact Hl.
  - apply Forall_lookup. intros k row Hrow.
    destruct (decide (k = i)) as [->|Hne].
    + rewrite list_lookup_alter_eq in Hrow.
      destruct (m !! i) as [row0|] eqn:E; simpl in Hrow; [|discriminate].
      injection Hrow as <-. rewrite length_insert.
      exact (Forall_lookup_1 _ _ _ _ Hr E).
    + rewrite list_lookup_alter_ne in Hrow by congruence.
      exact (Forall_lookup_1 _ _ _ _ Hr Hrow).
Qed.

Lemma at_set (d : A) m i j x i' j' :
  is_Some (Np.cell m i j) ->
  at_ d (Np.set m i j x) i' j'
  = if decide (i' = i /\ j' = j) then x else at_ d m i' j'.
Proof.
  intros [y Hy]. unfold at_. rewrite cell_set.
  destruct (decide (i' = i /\ j' = j)); [rewrite Hy|]; reflexivity.
Qed.

Lemma at_cell (d : A) m i j r c :
  Np.shape r c m -> (i < r)%nat -> (j < c)%nat ->
  Np.cell m i j = Some (at_ d m i j).
Proof.
  intros Hs Hi Hj. destruct (shape_cell m r c i j Hs Hi Hj) as [y Hy].
  unfold at_. rewrite Hy. reflexivity.
Qed.

Lemma get_in_range (d : A) m (ci vi : Z) :
  Np.shape 5 5 m -> 0 <= ci < 5 -> 0 <= vi < 5 ->
  Np.get m ci vi = Ok (at_ d m (Z.to_nat ci) (Z.to_nat vi)).
Proof.
  intros Hs Hc Hv. unfold Np.get.
  rewrite (shape_nrows _ _ _ Hs), (shape_ncols _ _ _ Hs).
  rewrite !index_in_range by lia. simpl.
  rewrite (at_cell d m _ _ 5 5 Hs) by lia. reflexivity.
Qed.

End Cells.

Lemma decr_in_range m (ci vi : Z) :
  Np.shape 5 5 m -> 0 <= ci < 5 -> 0 <= vi < 5 ->
  Np.decr m ci vi
  = Ok (Np.set m (Z.to_nat ci) (Z.to_nat vi)
          (Np.wrap32 (at_ 0 m (Z.to_nat ci) (Z.to_nat vi) - 1))).
Proof.
  intros Hs Hc Hv. unfold Np.decr.
  rewrite (shape_nrows _ _ _ Hs), (shape_ncols _ _ _ Hs).
  rewrite !index_in_range by lia. simpl.
  rewrite (at_cell 0 m _ _ 5 5 Hs) by lia. reflexivity.
Qed.

Lemma sum_row_insert (r : list Z) j x y :
  r !! j = Some x ->
  foldr Z.add 0 (<[j := y]> r) = foldr Z.add 0 r - x + y.
Proof.
  revert j. induction r as [|z r IH]; intros j Hj; [discriminate|].
  destruct j as [|j]; simpl in *.
  - injection Hj as ->. lia.
  - rewrite (IH j Hj). lia.
Qed.

Lemma sum_cons (r : list Z) (m : list (list Z)) :
  Np.sum (r :: m) = foldr Z.add 0 r + Np.sum m.
Proof. reflexivity. Qed.

Lemma sum_set (m : list (list Z)) i j x y :
  Np.cell m i j = Some x ->
  Np.sum (Np.set m i j y) = Np.sum m - x + y.
Proof.
  revert i. induction m as [|r m IH]; intros i Hc; [discriminate|].
  destruct i as [|i].
  - change (Np.set (r :: m) 0 j y) with (<[j := y]> r :: m).
    rewrite !sum_cons, (sum_row_insert r j x y Hc). lia.
  - change (Np.set (r :: m) (S i) j y) with (r :: Np.set m i j y).
    rewrite !sum_cons, (IH i Hc). lia.
Qed.

(** ** Cards held *)

Lemma held_app h l1 l2 i j :
  held h (l1 ++ l2) i j = held h l1 i j + held h l2 i j.
Proof.
  unfold held. rewrite filter_app, length_app. lia.
Qed.

Lemma held_single h r i j :
  held h [r] i j = if is_identity h i j r then 1 else 0.
Proof.
  unfold held. simpl. unfold filter. simpl.
  destruct (decide (is_identity h i j r = true)) as [E|E].
  - rewrite E. reflexivity.
  - apply not_true_is_false in E. rewrite E. reflexivity.
Qed.

Lemma held_ext h h' l i j :
  Forall (fun r => is_identity h' i j r = is_identity h i j r) l ->
  held h' l i j = held h l i j.
Proof.
  intros Hl. unfold held. f_equal. induction Hl as [|r l Hr _ IH]; [reflexivity|].
  rewrite !filter_cons, Hr.
  destruct (decide (is_identity h i j r = true)); simpl; rewrite IH; reflexivity.
Qed.

Lemma held_remove h r l l' i j :
  Py.remove r l = Ok l' ->
  held h l i j = held h l' i j + (if is_identity h i j r then 1 else 0).
Proof.
  revert l'. induction l as [|y l IH]; intros l' Hrem; simpl in Hrem; [discriminate|].
  destruct (Nat.eqb r y) eqn:E.
  - apply Nat.eqb_eq in E. subst y. injection Hrem as <-.
    change (r :: l) with ([r] ++ l). rewrite held_app, held_single. lia.
  - destruct (Py.remove r l) as [l0|e]; simpl in Hrem; [|discriminate].
    injection Hrem as <-.
    change (y :: l) with ([y] ++ l). change (y :: l0) with ([y] ++ l0).
    rewrite !held_app, (IH l0 eq_refl). lia.
Qed.

Lemma remove_subset r l l' :
  Py.remove r l = Ok l' -> forall x, x ∈ l' -> x ∈ l.
Proof.
  revert l'. induction l as [|y l IH]; intros l' Hrem x Hx; simpl in Hrem; [discriminate|].
  destruct (Nat.eqb r y).
  - injection Hrem as <-. right. exact Hx.
  - destruct (Py.remove r l) as [l0|e]; simpl in Hrem; [|discriminate].
    injection Hrem as <-. apply elem_of_cons in Hx as [->|Hx]; [left|right; eauto].
Qed.

Lemma held_nonneg h l i j : 0 <= held h l i j.
Proof. unfold held. lia. Qed.

(** ** Stepping through statements *)

Lemma bind_ok {S A B} (m : M S A) (k : A -> M S B) s a s' :
  m s = (Ok a, s') -> bind m k s = k a s'.
Proof. intros H. unfold bind. rewrite H. reflexivity. Qed.

Lemma bind_raise {S A B} (m : M S A) (k : A -> M S B) s e s' :
  m s = (Raise e, s') -> bind m k s = (Raise e, s').
Proof. intros H. unfold bind. rewrite H. reflexivity. Qed.

Lemma item_nat {A} (l : list A) (k : nat) x :
  l !! k = Some x -> Py.item l (Z.of_nat k) = Ok x.
Proof.
  intros H. unfold Py.item.
  rewrite index_in_range by (apply lookup_lt_Some in H; lia).
  simpl. rewrite Nat2Z.id, H. reflexivity.
Qed.

Lemma item_in_range {A} (l : list A) (i : Z) :
  0 <= i < Z.of_nat (length l) ->
  exists x, l !! Z.to_nat i = Some x /\ Py.item l i = Ok x.
Proof.
  intros Hi. destruct (lookup_lt_is_Some_2 l (Z.to_nat i) ltac:(lia)) as [x Hx].
  exists x. split; [exact Hx|].
  rewrite <- (Z2Nat.id i) by lia. apply item_nat, Hx.
Qed.

Lemma set_states_set_states s1 s2 g :
  Game.set_states s1 (Game.set_states s2 g) = Game.set_states s1 g.
Proof. reflexivity. Qed.

Lemma set_states_same g : Game.set_states (Game.states g) g = g.
Proof. destruct g. reflexivity. Qed.

(** ** Telling the other players *)

Lemma told_from_test (k p : nat) (player_id : Z) :
  (p = k -> (Z.of_nat k =? player_id) = true) ->
  Nat.leb (S k) p && negb (Z.of_nat p =? player_id)
  = Nat.leb k p && negb (Z.of_nat p =? player_id).
Proof.
  intros H. destruct (decide (p = k)) as [->|Hne].
  - rewrite (H eq_refl). rewrite !andb_false_r. reflexivity.
  - f_equal. destruct (Nat.leb k p) eqn:L; [apply Nat.leb_le in L|apply Nat.leb_gt in L].
    + apply Nat.leb_le. lia.
    + apply Nat.leb_gt. lia.
Qed.

Lemma tell_others_loop (player_id ci vi : Z) (n k : nat) (g : Game.t) :
  Forall (Np.shape 5 5) (Game.states g) ->
  0 <= ci < 5 -> 0 <= vi < 5 ->
  (k + n = length (Game.states g))%nat ->
  for_each (seq k n) (fun i =>
    if Z.of_nat i =? player_id then ret tt
    else
      let! st := Game.eval (fun g => Py.item (Game.states g) (Z.of_nat i)) in
      let! st' := lift (Np.decr st ci vi) in
      modify (fun g => Game.set_states (<[i := st']> (Game.states g)) g)) g
  = (Ok tt, Game.set_states
              (told_from k player_id (Z.to_nat ci) (Z.to_nat vi) (Game.states g)) g).
Proof.
  intros Hs Hc Hv. revert k g Hs.
  induction n as [|n IH]; intros k g Hs Hk.
  - simpl. unfold ret. f_equal.
    rewrite <- (set_states_same g) at 1. f_equal.
    apply list_eq. intros p. unfold told_from. rewrite list_lookup_imap.
    destruct (Game.states g !! p) as [st|] eqn:Hp; [|reflexivity].
    apply lookup_lt_Some in Hp.
    replace (Nat.leb k p) with false by (symmetry; apply Nat.leb_gt; lia).
    reflexivity.
  - cbn [seq for_each].
    destruct (lookup_lt_is_Some_2 (Game.states g) k ltac:(lia)) as [st Hst].
    pose proof (Forall_lookup_1 _ _ _ _ Hs Hst) as Hshape. simpl in Hshape.
    destruct (Z.of_nat k =? player_id) eqn:E.
    + erewrite bind_ok by reflexivity.
      rewrite IH by (assumption || lia). f_equal. f_equal.
      apply list_eq. intros p. unfold told_from. rewrite !list_lookup_imap.
      destruct (Game.states g !! p) as [st0|]; [|reflexivity].
      cbn [fmap option_fmap option_map]. rewrite told_from_test; [reflexivity|].
      intros _. exact E.
    + erewrite bind_ok; cycle 1.
      { erewrite bind_ok; cycle 1.
        { unfold Game.eval. rewrite (item_nat _ _ _ Hst). reflexivity. }
        erewrite bind_ok; cycle 1.
        { unfold lift. rewrite (decr_in_range _ _ _ Hshape Hc Hv). reflexivity. }
        reflexivity. }
      rewrite IH; cycle 1.
      { cbn [Game.states Game.set_states].
        apply Forall_insert; [exact Hs|]. apply shape_set, Hshape. }
      { cbn [Game.states Game.set_states]. rewrite length_insert. lia. }
      cbn [Game.states Game.set_states]. rewrite set_states_set_states. f_equal. f_equal.
      apply list_eq. intros p. unfold told_from. rewrite !list_lookup_imap.
      destruct (decide (p = k)) as [->|Hne].
      * rewrite list_lookup_insert_eq by (eapply lookup_lt_Some; exact Hst).
        rewrite Hst. cbn [fmap option_fmap option_map]. rewrite E.
        replace (Nat.leb (S k) k) with false by (symmetry; apply Nat.leb_gt; lia).
        rewrite Nat.leb_refl. reflexivity.
      * rewrite list_lookup_insert_ne by congruence.
        destruct (Game.states g !! p) as [st0|]; [|reflexivity].
        cbn [fmap option_fmap option_map]. rewrite told_from_test; [reflexivity|].
        intros ->. congruence.
Qed.

Lemma tell_others_closed (player_id ci vi : Z) (g : Game.t) :
  Forall (Np.shape 5 5) (Game.states g) ->
  0 <= ci < 5 -> 0 <= vi < 5 ->
  Game.tell_others player_id ci vi g
  = (Ok tt, Game.set_states
              (told player_id (Z.to_nat ci) (Z.to_nat vi) (Game.states g)) g).
Proof.
  intros Hs Hc Hv. unfold Game.tell_others.
  erewrite bind_ok by reflexivity.
  rewrite (tell_others_loop player_id ci vi _ 0 g Hs Hc Hv) by reflexivity.
  f_equal. f_equal. unfold told_from, told. apply imap_ext. intros p st _.
  cbn [Nat.leb andb]. destruct (Z.of_nat p =? player_id); reflexivity.
Qed.

(** ** Joining a hand *)

Lemma add_card_loop (card : nat) (l : list nat) (h : heap) :
  for_each l (fun card_hand =>
    modify (alter (fun c =>
      Card.set_cards_in_hand (Card.cards_in_hand c ++ [card_hand]) c) card)) h
  = (Ok tt, alter (fun c => Card.set_cards_in_hand (Card.cards_in_hand c ++ l) c) card h).
Proof.
  revert h. induction l as [|a l IH]; intros h.
  - simpl. unfold ret. f_equal. symmetry. apply list_alter_id.
    intros [? ? ? ? ? ?]. unfold Card.set_cards_in_hand. simpl.
    rewrite app_nil_r. reflexivity.
  - cbn [for_each]. erewrite bind_ok by reflexivity. rewrite IH. f_equal.
    rewrite list_alter_alter_eq. apply list_alter_ext; [|reflexivity].
    intros c _. unfold Card.set_cards_in_hand. simpl.
    rewrite <- app_assoc. reflexivity.
Qed.

Lemma add_card_closed (self : Hand.t) (card : nat) (game_start : bool) (h : heap) c :
  h !! card = Some c ->
  Hand.add_card self card game_start h
  = (Ok (Hand.make (Hand.id self) (Hand.cards self ++ [card])),
     joined card game_start (Hand.cards self) h).
Proof.
  intros Hc. unfold Hand.add_card.
  erewrite bind_ok; cycle 1.
  { unfold check_iscard. rewrite Hc. reflexivity. }
  unfold joined. destruct game_start.
  - erewrite bind_ok by reflexivity. reflexivity.
  - erewrite bind_ok by apply add_card_loop. reflexivity.
Qed.

Lemma same_identities_refl h : same_identities h h.
Proof. intros r. reflexivity. Qed.

Lemma same_identities_alter (f : Card.t -> Card.t) r h :
  (forall c, identity (f c) = identity c) ->
  same_identities h (alter f r h).
Proof.
  intros Hf r'. destruct (decide (r' = r)) as [->|Hne].
  - rewrite list_lookup_alter_eq. destruct (h !! r) as [c|]; simpl; [|reflexivity].
    rewrite Hf. reflexivity.
  - rewrite list_lookup_alter_ne by congruence. reflexivity.
Qed.

Lemma same_identities_insert c c' r h :
  h !! r = Some c -> identity c' = identity c ->
  same_identities h (<[r := c']> h).
Proof.
  intros Hr Hc r'. destruct (decide (r' = r)) as [->|Hne].
  - rewrite list_lookup_insert_eq by (eapply lookup_lt_Some; exact Hr).
    rewrite Hr. simpl. rewrite Hc. reflexivity.
  - rewrite list_lookup_insert_ne by congruence. reflexivity.
Qed.

Lemma same_identities_joined card game_start l h :
  same_identities h (joined card game_start l h).
Proof.
  unfold joined. destruct game_start; [apply same_identities_refl|].
  apply same_identities_alter. reflexivity.
Qed.

Lemma same_but_masks_identities h h' :
  same_but_masks h h' -> same_identities h h'.
Proof.
  intros H r. specialize (H r).
  destruct (h' !! r) as [c'|], (h !! r) as [c|]; simpl in *; try discriminate;
    [|reflexivity].
  injection H as H1 H2 _ _ _. unfold identity. rewrite H1, H2. reflexivity.
Qed.

Lemma same_identities_length h h' :
  same_identities h h' -> length h' = length h.
Proof.
  intros H.
  destruct (Nat.lt_trichotomy (length h') (length h)) as [Hlt|[Heq|Hgt]]; [|exact Heq|].
  - specialize (H (length h')).
    rewrite (lookup_ge_None_2 h') in H by lia.
    destruct (lookup_lt_is_Some_2 h (length h') Hlt) as [c Hc].
    rewrite Hc in H. discriminate.
  - specialize (H (length h)).
    rewrite (lookup_ge_None_2 h) in H by lia.
    destruct (lookup_lt_is_Some_2 h' (length h) Hgt) as [c Hc].
    rewrite Hc in H. discriminate.
Qed.

Lemma same_identities_is_identity h h' i j r :
  same_identities h h' -> is_identity h' i j r = is_identity h i j r.
Proof.
  intros H. specialize (H r). unfold is_identity.
  destruct (h' !! r) as [c'|], (h !! r) as [c|]; simpl in *; try discriminate;
    [|reflexivity].
  injection H as H1 H2. rewrite H1, H2. reflexivity.
Qed.

Lemma same_identities_valid h h' :
  same_identities h h' -> Forall valid_card h -> Forall valid_card h'.
Proof.
  intros H Hv. apply Forall_lookup. intros r c' Hc'.
  specialize (H r). rewrite Hc' in H.
  destruct (h !! r) as [c|] eqn:Hc; simpl in H; [|discriminate].
  injection H as H1 H2.
  pose proof (Forall_lookup_1 _ _ _ _ Hv Hc) as [Hcol Hval].
  split; congruence.
Qed.

(** The invariant does not depend on more of the objects than the
    identities of the cards. *)
Lemma consistent_objects g h' :
  consistent g -> same_identities (Game.objects g) h' ->
  consistent (Game.set_objects h' g).
Proof.
  intros [H1 H2 H3 H4 H5 H6 H7] Hs. split; simpl; try assumption.
  - eapply same_identities_valid; eassumption.
  - intros p hand Hp. rewrite (same_identities_length _ _ Hs). eapply H6, Hp.
  - intros p hand st i j Hp Hst Hi Hj.
    rewrite (held_ext (Game.objects g) h').
    + eapply H7; eassumption.
    + apply Forall_forall. intros r _. apply same_identities_is_identity, Hs.
Qed.

(** ** Dealing a card *)

Lemma set_objects_same g : Game.set_objects (Game.objects g) g = g.
Proof. destruct g. reflexivity. Qed.

Lemma with_objects_check g card c :
  Game.objects g !! card = Some c ->
  Game.with_objects (check_iscard card) g = (Ok tt, g).
Proof.
  intros Hc. unfold Game.with_objects, check_iscard. rewrite Hc, set_objects_same.
  reflexivity.
Qed.

Lemma with_objects_deref g card c :
  Game.objects g !! card = Some c ->
  Game.with_objects (deref card) g = (Ok c, g).
Proof.
  intros Hc. unfold Game.with_objects, deref. rewrite Hc, set_objects_same.
  reflexivity.
Qed.

Lemma check_isin_players g player_id :
  check_isin player_id (0, Z.of_nat (length (Game.players g)))
  = if player_in_range g player_id then Ok tt else Raise ValueError.
Proof. reflexivity. Qed.

Lemma player_in_range_spec g player_id :
  player_in_range g player_id = true
  <-> 0 <= player_id < Z.of_nat (length (Game.players g)).
Proof.
  unfold player_in_range. rewrite andb_true_iff, Z.leb_le, Z.ltb_lt. tauto.
Qed.

Lemma deal_card_out_of_range g card game_start c :
  Game.objects g !! card = Some c ->
  player_in_range g (Card.player_id c) = false ->
  Game.deal_card card game_start g = (Raise ValueError, g).
Proof.
  intros Hc Hp. unfold Game.deal_card.
  erewrite bind_ok by (eapply with_objects_check; exact Hc).
  erewrite bind_ok by (eapply with_objects_deref; exact Hc).
  erewrite bind_ok by reflexivity.
  erewrite bind_raise; [reflexivity|].
  unfold lift. rewrite check_isin_players, Hp. reflexivity.
Qed.

Lemma deal_card_not_in_deck g card game_start c :
  Np.shape 5 5 (Game.deck g) -> valid_card c ->
  Game.objects g !! card = Some c ->
  player_in_range g (Card.player_id c) = true ->
  at_ 0 (Game.deck g) (Z.to_nat (Card.color c)) (Z.to_nat (Card.value c)) = 0 ->
  Game.deal_card card game_start g = (Raise ValueError, g).
Proof.
  intros Hs [Hcol Hval] Hc Hp Hd. unfold Game.deal_card.
  erewrite bind_ok by (eapply with_objects_check; exact Hc).
  erewrite bind_ok by (eapply with_objects_deref; exact Hc).
  erewrite bind_ok by reflexivity.
  erewrite bind_ok; cycle 1.
  { unfold lift. rewrite check_isin_players, Hp. reflexivity. }
  erewrite bind_ok; cycle 1.
  { unfold Game.eval. rewrite (get_in_range 0 _ _ _ Hs Hcol Hval). reflexivity. }
  rewrite Hd. reflexivity.
Qed.

Lemma deal_card_success g card game_start c :
  Np.shape 5 5 (Game.deck g) -> Forall (Np.shape 5 5) (Game.states g) ->
  valid_card c ->
  Game.objects g !! card = Some c ->
  player_in_range g (Card.player_id c) = true ->
  at_ 0 (Game.deck g) (Z.to_nat (Card.color c)) (Z.to_nat (Card.value c)) <> 0 ->
  exists hand,
    Game.players g !! Z.to_nat (Card.player_id c) = Some hand /\
    Game.deal_card card game_start g = (Ok tt, dealt g card game_start c hand).
Proof.
  intros Hs Hss [Hcol Hval] Hc Hp Hd.
  apply player_in_range_spec in Hp as Hrange.
  destruct (item_in_range (Game.players g) _ Hrange) as (hand & Hhand & Hitem).
  exists hand. split; [exact Hhand|].
  unfold Game.deal_card.
  erewrite bind_ok by (eapply with_objects_check; exact Hc).
  erewrite bind_ok by (eapply with_objects_deref; exact Hc).
  erewrite bind_ok by reflexivity.
  erewrite bind_ok; cycle 1.
  { unfold lift. rewrite check_isin_players, Hp. reflexivity. }
  erewrite bind_ok; cycle 1.
  { unfold Game.eval. rewrite (get_in_range 0 _ _ _ Hs Hcol Hval). reflexivity. }
  apply Z.eqb_neq in Hd. rewrite Hd.
  erewrite bind_ok; cycle 1.
  { unfold Game.eval. rewrite (decr_in_range _ _ _ Hs Hcol Hval). reflexivity. }
  erewrite bind_ok by reflexivity.
  erewrite bind_ok by (apply tell_others_closed; assumption).
  erewrite bind_ok; cycle 1.
  { unfold Game.eval. cbn [Game.players Game.set_states Game.set_deck].
    rewrite index_in_range by exact Hrange. reflexivity. }
  erewrite bind_ok; cycle 1.
  { unfold Game.eval. cbn [Game.players Game.set_states Game.set_deck].
    rewrite Hitem. reflexivity. }
  erewrite bind_ok; cycle 1.
  { unfold Game.with_objects. cbn [Game.objects Game.set_states Game.set_deck].
    rewrite (add_card_closed _ _ _ _ _ Hc). reflexivity. }
  reflexivity.
Qed.

Lemma init_array_bounds i j :
  (i < 5)%nat -> (j < 5)%nat -> 1 <= at_ 0 INIT_ARRAY i j <= 3.
Proof.
  intros Hi Hj.
  do 5 (destruct i as [|i]; [do 5 (destruct j as [|j]; [vm_compute; split; discriminate|]); lia|]).
  lia.
Qed.

Lemma is_identity_of h card c i j :
  h !! card = Some c -> valid_card c ->
  is_identity h i j card
  = bool_decide (i = Z.to_nat (Card.color c) /\ j = Z.to_nat (Card.value c)).
Proof.
  intros Hc [Hcol Hval]. unfold is_identity. rewrite Hc.
  destruct (bool_decide _) eqn:E.
  - apply bool_decide_eq_true in E as [-> ->].
    rewrite !Z2Nat.id by lia. rewrite !Z.eqb_refl. reflexivity.
  - apply bool_decide_eq_false in E.
    destruct (Card.color c =? Z.of_nat i) eqn:E1; [|reflexivity].
    destruct (Card.value c =? Z.of_nat j) eqn:E2; [|reflexivity].
    apply Z.eqb_eq in E1, E2. exfalso. apply E. split; lia.
Qed.

Lemma told_lookup player_id i j states p :
  told player_id i j states !! p
  = (fun st => if Z.of_nat p =? player_id then st
               else Np.set st i j (Np.wrap32 (at_ 0 st i j - 1))) <$> states !! p.
Proof. unfold told. apply list_lookup_imap. Qed.

Lemma dealt_consistent g card game_start c hand :
  consistent g ->
  Game.objects g !! card = Some c ->
  player_in_range g (Card.player_id c) = true ->
  Game.players g !! Z.to_nat (Card.player_id c) = Some hand ->
  at_ 0 (Game.deck g) (Z.to_nat (Card.color c)) (Z.to_nat (Card.value c)) <> 0 ->
  consistent (dealt g card game_start c hand).
Proof.
  intros [H1 H2 H3 H4 H5 H6 H7] Hc Hp Hhand Hd.
  pose proof (Forall_lookup_1 _ _ _ _ H5 Hc) as Hvalid.
  destruct Hvalid as [Hcol Hval].
  apply player_in_range_spec in Hp.
  set (i := Z.to_nat (Card.color c)) in *.
  set (j := Z.to_nat (Card.value c)) in *.
  assert (Hi : (i < 5)%nat) by (subst i; lia).
  assert (Hj : (j < 5)%nat) by (subst j; lia).
  pose proof (H4 i j Hi Hj) as Hdeck.
  pose proof (init_array_bounds i j Hi Hj) as Hinit.
  pose proof (same_identities_joined card game_start (Hand.cards hand) (Game.objects g))
    as Hsame.
  assert (Hdeck' : forall i' j',
    at_ 0 (Game.deck (dealt g card game_start c hand)) i' j'
    = if decide (i' = i /\ j' = j) then at_ 0 (Game.deck g) i j - 1
      else at_ 0 (Game.deck g) i' j').
  { intros i' j'. unfold dealt. cbn [Game.deck]. fold i j.
    rewrite at_set by (eapply shape_cell; eassumption).
    rewrite wrap32_small by lia. reflexivity. }
  split.
  - unfold dealt. cbn [Game.states Game.players]. unfold told.
    rewrite length_imap, length_insert. exact H1.
  - unfold dealt. cbn [Game.deck]. apply shape_set, H2.
  - unfold dealt. cbn [Game.states]. apply Forall_lookup. intros p st' Hst'.
    rewrite told_lookup in Hst'.
    destruct (Game.states g !! p) as [st|] eqn:Hst; [|discriminate].
    cbn [fmap option_fmap option_map] in Hst'. injection Hst' as <-.
    pose proof (Forall_lookup_1 _ _ _ _ H3 Hst) as Hshape. simpl in Hshape.
    destruct (Z.of_nat p =? Card.player_id c); [exact Hshape|apply shape_set, Hshape].
  - intros i' j' Hi' Hj'. rewrite Hdeck'.
    destruct (decide (i' = i /\ j' = j)) as [[-> ->]|_]; [lia|apply H4; assumption].
  - unfold dealt. cbn [Game.objects]. eapply same_identities_valid; eassumption.
  - intros p hand' Hp'. unfold dealt in *. cbn [Game.objects Game.players] in *.
    rewrite (same_identities_length _ _ Hsame).
    destruct (decide (p = Z.to_nat (Card.player_id c))) as [->|Hne].
    + rewrite list_lookup_insert_eq in Hp' by (eapply lookup_lt_Some; exact Hhand).
      injection Hp' as <-. cbn [Hand.cards]. apply Forall_app. split.
      * eapply H6, Hhand.
      * repeat constructor. eapply lookup_lt_Some, Hc.
    + rewrite list_lookup_insert_ne in Hp' by congruence. eapply H6, Hp'.
  - intros p hand' st' i' j' Hp' Hst' Hi' Hj'. rewrite Hdeck'.
    unfold dealt in Hp', Hst' |- *. cbn [Game.objects Game.players Game.states] in *.
    fold i j in Hst'. rewrite told_lookup in Hst'.
    destruct (Game.states g !! p) as [st|] eqn:Hst; [|discriminate].
    cbn [fmap option_fmap option_map] in Hst'. injection Hst' as <-.
    pose proof (Forall_lookup_1 _ _ _ _ H3 Hst) as Hshape. simpl in Hshape.
    rewrite (held_ext (Game.objects g))
      by (apply Forall_forall; intros r _; apply same_identities_is_identity, Hsame).
    destruct (decide (p = Z.to_nat (Card.player_id c))) as [->|Hne].
    + rewrite list_lookup_insert_eq in Hp' by (eapply lookup_lt_Some; exact Hhand).
      injection Hp' as <-. cbn [Hand.cards].
      replace (Z.of_nat (Z.to_nat (Card.player_id c)) =? Card.player_id c) with true
        by (symmetry; apply Z.eqb_eq; lia).
      rewrite held_app, held_single, (is_identity_of _ _ _ _ _ Hc (conj Hcol Hval)).
      fold i j. pose proof (H7 _ _ _ i' j' Hhand Hst Hi' Hj') as Hb.
      destruct (decide (i' = i /\ j' = j)) as [[-> ->]|Hn].
      * rewrite bool_decide_eq_true_2 by auto. lia.
      * rewrite bool_decide_eq_false_2 by exact Hn. lia.
    + rewrite list_lookup_insert_ne in Hp' by congruence.
      replace (Z.of_nat p =? Card.player_id c) with false
        by (symmetry; apply Z.eqb_neq; lia).
      rewrite at_set by (eapply shape_cell; eassumption).
      pose proof (H7 _ _ _ i' j' Hp' Hst Hi' Hj') as Hb.
      destruct (decide (i' = i /\ j' = j)) as [[-> ->]|Hn]; [|exact Hb].
      pose proof (held_nonneg (Game.objects g) (Hand.cards hand') i j).
      rewrite wrap32_small by lia. lia.
Qed.

(** ** Every call keeps the invariant *)

(** The invariant reads the objects, the deck, the matrices and the
    hands, nothing else. *)
Lemma consistent_same_core g g' :
  Game.objects g' = Game.objects g -> Game.deck g' = Game.deck g ->
  Game.states g' = Game.states g -> Game.players g' = Game.players g ->
  consistent g -> consistent g'.
Proof.
  intros E1 E2 E3 E4 [H1 H2 H3 H4 H5 H6 H7].
  split; rewrite ?E1, ?E2, ?E3, ?E4; assumption.
Qed.

Lemma initial_consistent : consistent Game.initial.
Proof.
  split; simpl.
  - reflexivity.
  - apply shapeb_shape. reflexivity.
  - constructor.
  - intros i j Hi Hj. pose proof (init_array_bounds i j Hi Hj). lia.
  - constructor.
  - intros p hand Hp. destruct p; discriminate.
  - intros p hand st i j Hp. destruct p; discriminate.
Qed.

Lemma consistent_new_object g c :
  consistent g -> valid_card c ->
  consistent (Game.set_objects (Game.objects g ++ [c]) g).
Proof.
  intros [H1 H2 H3 H4 H5 H6 H7] Hc. split; simpl; try assumption.
  - apply Forall_app. split; [exact H5|]. constructor; [exact Hc|constructor].
  - intros p hand Hp. rewrite length_app. simpl.
    eapply Forall_impl; [eapply H6, Hp|]. simpl. intros r Hr. lia.
  - intros p hand st i j Hp Hst Hi Hj.
    rewrite (held_ext (Game.objects g)); [eapply H7; eassumption|].
    eapply Forall_impl; [eapply H6, Hp|]. simpl. intros r Hr.
    unfold is_identity. rewrite lookup_app_l by exact Hr. reflexivity.
Qed.

Lemma card_init_valid color value hand c :
  Card_init color value hand = Ok c -> valid_card c.
Proof.
  unfold Card_init, check_isin. simpl.
  destruct ((0 <=? color) && (color <? 5)) eqn:E1; simpl; [|discriminate].
  destruct ((0 <=? value) && (value <? 5)) eqn:E2; simpl; [|discriminate].
  intros [= <-]. unfold valid_card. simpl.
  apply andb_true_iff in E1 as [H1 H2]. apply andb_true_iff in E2 as [H3 H4].
  apply Z.leb_le in H1, H3. apply Z.ltb_lt in H2, H4. lia.
Qed.

Lemma new_card_consistent color value hand g :
  consistent g -> consistent (snd (Game.new_card color value hand g)).
Proof.
  intros Hg. unfold Game.new_card, bind, lift.
  destruct (Card_init color value hand) as [c|e] eqn:E; simpl; [|exact Hg].
  apply consistent_new_object; [exact Hg|]. eapply card_init_valid, E.
Qed.

Lemma add_player_consistent g :
  consistent g -> consistent (snd (Game.add_player g)).
Proof.
  intros [H1 H2 H3 H4 H5 H6 H7]. unfold Game.add_player, modify. split; simpl.
  - rewrite !length_app, H1. reflexivity.
  - exact H2.
  - apply Forall_app. split; [exact H3|]. constructor; [|constructor].
    apply shapeb_shape. reflexivity.
  - exact H4.
  - exact H5.
  - intros p hand Hp. apply lookup_snoc_Some in Hp as [[_ Hp]|[_ <-]].
    + eapply H6, Hp.
    + constructor.
  - intros p hand st i j Hp Hst Hi Hj.
    apply lookup_snoc_Some in Hp as [[Hlt Hp]|[-> <-]].
    + rewrite lookup_app_l in Hst by lia. eapply H7; eassumption.
    + rewrite <- H1 in Hst. rewrite list_lookup_middle in Hst by reflexivity.
      injection Hst as <-. simpl.
      pose proof (H4 i j Hi Hj). pose proof (init_array_bounds i j Hi Hj).
      unfold held. simpl. lia.
Qed.

Lemma deal_card_consistent card game_start g :
  consistent g -> consistent (snd (Game.deal_card card game_start g)).
Proof.
  intros Hg.
  destruct (Game.objects g !! card) as [c|] eqn:Hc.
  - pose proof (Forall_lookup_1 _ _ _ _ (cons_cards g Hg) Hc) as Hvalid.
    destruct (player_in_range g (Card.player_id c)) eqn:Hp.
    + destruct (decide (at_ 0 (Game.deck g) (Z.to_nat (Card.color c))
                              (Z.to_nat (Card.value c)) = 0)) as [Hd|Hd].
      * rewrite (deal_card_not_in_deck g card game_start c); try assumption.
        apply (cons_deck_shape g Hg).
      * destruct (deal_card_success g card game_start c) as (hand & Hhand & ->);
          try assumption.
        -- apply (cons_deck_shape g Hg).
        -- apply (cons_states_shape g Hg).
        -- simpl. apply dealt_consistent; assumption.
    + rewrite (deal_card_out_of_range g card game_start c); assumption.
  - unfold Game.deal_card.
    erewrite bind_raise; cycle 1.
    { unfold Game.with_objects, check_iscard. rewrite Hc, set_objects_same. reflexivity. }
    exact Hg.
Qed.

(** Sequencing keeps what both parts keep. *)
Lemma bind_keeps {S A B} (R : S -> S -> Prop) (m : M S A) (k : A -> M S B) s :
  (forall s1 s2 s3, R s1 s2 -> R s2 s3 -> R s1 s3) ->
  R s (snd (m s)) ->
  (forall a s', R s' (snd (k a s'))) ->
  R s (snd (bind m k s)).
Proof.
  intros Htrans Hm Hk. unfold bind.
  destruct (m s) as [[a|e] s1]; simpl in *; [|exact Hm].
  eapply Htrans; [exact Hm|apply Hk].
Qed.

Lemma keeps_refl g : keeps g g.
Proof. intros H. exact H. Qed.

Lemma keeps_trans g1 g2 g3 : keeps g1 g2 -> keeps g2 g3 -> keeps g1 g3.
Proof. intros H12 H23 H. auto. Qed.

Lemma random_card_keeps player_id sample g :
  keeps g (snd (Game.random_card player_id sample g)).
Proof.
  unfold Game.random_card. apply bind_keeps.
  - apply keeps_trans.
  - apply keeps_refl.
  - intros s g'. destruct (s =? 0); [apply keeps_refl|].
    apply bind_keeps.
    + apply keeps_trans.
    + apply keeps_refl.
    + intros hand g'' Hg. apply new_card_consistent, Hg.
Qed.

Lemma deal_hand_consistent player_id samples game_start g :
  consistent g -> consistent (snd (Game.deal_hand player_id samples game_start g)).
Proof.
  revert g. change (forall g, keeps g (snd (Game.deal_hand player_id samples game_start g))).
  intros g. unfold Game.deal_hand.
  apply bind_keeps; [apply keeps_trans|apply keeps_refl|]. intros n g1.
  apply bind_keeps; [apply keeps_trans|apply keeps_refl|]. intros _ g2.
  apply (for_each_keeps keeps); [apply keeps_refl|apply keeps_trans|].
  intros sample g3 _.
  apply bind_keeps; [apply keeps_trans|apply random_card_keeps|].
  intros card g4 Hg. apply deal_card_consistent, Hg.
Qed.

Lemma give_other_changes card_index info ir h :
  same_but_masks h (snd (Hand.give_other card_index info ir h)).
Proof.
  unfold Hand.give_other.
  destruct (Py.contains card_index (Z.of_nat (fst ir))); [apply same_but_masks_refl|].
  unfold bind, deref. destruct (h !! snd ir) as [c|]; simpl; [|apply same_but_masks_refl].
  destruct (Card.played c); [apply same_but_masks_refl|].
  apply card_add_information_changes.
Qed.

Lemma hand_add_information_changes self card_index info h :
  same_but_masks h (snd (Hand.add_information self card_index info h)).
Proof.
  unfold Hand.add_information. apply bind_keeps.
  - apply same_but_masks_trans.
  - apply addressed_loop_changes.
  - intros _ h'. apply (for_each_keeps same_but_masks).
    + apply same_but_masks_refl.
    + apply same_but_masks_trans.
    + intros ir s _. apply give_other_changes.
Qed.

Lemma with_objects_snd {A} (m : M heap A) g :
  snd (Game.with_objects m g) = Game.set_objects (snd (m (Game.objects g))) g.
Proof. unfold Game.with_objects. destruct (m (Game.objects g)). reflexivity. Qed.

Lemma give_information_consistent player_id card_index info g :
  consistent g ->
  consistent (snd (Game.give_information player_id card_index info g)).
Proof.
  revert g.
  change (forall g, keeps g (snd (Game.give_information player_id card_index info g))).
  intros g. unfold Game.give_information.
  apply bind_keeps; [apply keeps_trans|apply keeps_refl|]. intros hand g1 Hg.
  rewrite with_objects_snd. apply consistent_objects; [exact Hg|].
  apply same_but_masks_identities, hand_add_information_changes.
Qed.

Lemma played_state_consistent g k card c hand hand' st :
  consistent g ->
  Game.objects g !! card = Some c ->
  Game.players g !! k = Some hand ->
  Game.states g !! k = Some st ->
  Hand.remove_card hand card = Ok hand' ->
  consistent (played_state g k card c hand' st).
Proof.
  intros [H1 H2 H3 H4 H5 H6 H7] Hc Hhand Hst Hrem.
  unfold Hand.remove_card in Hrem.
  destruct (Py.remove card (Hand.cards hand)) as [l|e] eqn:Hl; simpl in Hrem; [|discriminate].
  injection Hrem as <-.
  pose proof (Forall_lookup_1 _ _ _ _ H5 Hc) as Hvalid.
  pose proof Hvalid as [Hcol Hval].
  pose proof (Forall_lookup_1 _ _ _ _ H3 Hst) as Hshape. simpl in Hshape.
  set (i := Z.to_nat (Card.color c)) in *.
  set (j := Z.to_nat (Card.value c)) in *.
  assert (Hi : (i < 5)%nat) by (subst i; lia).
  assert (Hj : (j < 5)%nat) by (subst j; lia).
  assert (Hsame : same_identities (Game.objects g)
                    (<[card := Card.set_played true c]> (Game.objects g))).
  { eapply same_identities_insert; [exact Hc|reflexivity]. }
  unfold played_state. fold i j. split; cbn [Game.objects Game.deck Game.states Game.players].
  - rewrite !length_insert. exact H1.
  - exact H2.
  - apply Forall_insert; [exact H3|]. apply shape_set, Hshape.
  - exact H4.
  - eapply same_identities_valid; eassumption.
  - intros p hand0 Hp. rewrite length_insert.
    destruct (decide (p = k)) as [->|Hne].
    + rewrite list_lookup_insert_eq in Hp by (eapply lookup_lt_Some; exact Hhand).
      injection Hp as <-. cbn [Hand.cards].
      apply Forall_forall. intros r Hr.
      pose proof (H6 _ _ Hhand) as Hall. rewrite Forall_forall in Hall.
      apply Hall. eapply remove_subset; eassumption.
    + rewrite list_lookup_insert_ne in Hp by congruence. eapply H6, Hp.
  - intros p hand0 st0 i' j' Hp Hst0 Hi' Hj'.
    rewrite (held_ext (Game.objects g))
      by (apply Forall_forall; intros r _; apply same_identities_is_identity, Hsame).
    destruct (decide (p = k)) as [->|Hne].
    + rewrite list_lookup_insert_eq in Hp by (eapply lookup_lt_Some; exact Hhand).
      rewrite list_lookup_insert_eq in Hst0 by (eapply lookup_lt_Some; exact Hst).
      injection Hp as <-. injection Hst0 as <-. cbn [Hand.cards].
      pose proof (H7 _ _ _ i' j' Hhand Hst Hi' Hj') as Hb.
      rewrite (held_remove _ _ _ _ i' j' Hl) in Hb.
      rewrite (is_identity_of _ _ _ _ _ Hc Hvalid) in Hb. fold i j in Hb.
      rewrite at_set by (eapply shape_cell; eassumption).
      pose proof (held_nonneg (Game.objects g) l i' j').
      pose proof (H4 i' j' Hi' Hj').
      destruct (decide (i' = i /\ j' = j)) as [[-> ->]|Hn].
      * rewrite bool_decide_eq_true_2 in Hb by auto.
        rewrite wrap32_small by lia. lia.
      * rewrite bool_decide_eq_false_2 in Hb by exact Hn. lia.
    + rewrite list_lookup_insert_ne in Hp by congruence.
      rewrite list_lookup_insert_ne in Hst0 by congruence.
      eapply H7; eassumption.
Qed.

Lemma play_card_consistent player_id card g :
  consistent g -> consistent (snd (Game.play_card player_id card g)).
Proof.
  intros Hg. unfold Game.play_card.
  erewrite bind_ok by reflexivity.
  destruct (player_in_range g player_id) eqn:Hp; cycle 1.
  { erewrite bind_raise; [exact Hg|].
    unfold lift. rewrite check_isin_players, Hp. reflexivity. }
  erewrite bind_ok; cycle 1.
  { unfold lift. rewrite check_isin_players, Hp. reflexivity. }
  apply player_in_range_spec in Hp.
  destruct (Game.objects g !! card) as [c|] eqn:Hc; cycle 1.
  { erewrite bind_raise; [exact Hg|].
    unfold Game.with_objects, deref. rewrite Hc, set_objects_same. reflexivity. }
  erewrite bind_ok by (eapply with_objects_deref; exact Hc).
  erewrite bind_ok by reflexivity.
  set (g1 := Game.set_objects (<[card := Card.set_played true c]> (Game.objects g)) g).
  assert (Hg1 : consistent g1).
  { apply consistent_objects; [exact Hg|].
    eapply same_identities_insert; [exact Hc|reflexivity]. }
  destruct (item_in_range (Game.players g) _ Hp) as (hand & Hhand & Hitem).
  erewrite bind_ok; cycle 1.
  { unfold Game.eval. cbn [Game.players g1 Game.set_objects].
    rewrite index_in_range by exact Hp. reflexivity. }
  erewrite bind_ok; cycle 1.
  { unfold Game.eval. cbn [Game.players g1 Game.set_objects]. rewrite Hitem. reflexivity. }
  destruct (Hand.remove_card hand card) as [hand'|e] eqn:Hrem; cycle 1.
  { erewrite bind_raise; [exact Hg1|]. reflexivity. }
  erewrite bind_ok by reflexivity.
  erewrite bind_ok by reflexivity.
  pose proof (cons_len g Hg) as Hlen.
  assert (Hp' : 0 <= player_id < Z.of_nat (length (Game.states g))) by lia.
  destruct (item_in_range (Game.states g) _ Hp') as (st & Hst & Hitem').
  pose proof (Forall_lookup_1 _ _ _ _ (cons_states_shape g Hg) Hst) as Hshape.
  pose proof (Forall_lookup_1 _ _ _ _ (cons_cards g Hg) Hc) as [Hcol Hval].
  erewrite bind_ok; cycle 1.
  { unfold Game.eval. cbn [Game.states g1 Game.set_objects Game.set_players].
    rewrite index_in_range by exact Hp'. reflexivity. }
  erewrite bind_ok; cycle 1.
  { unfold Game.eval. cbn [Game.states g1 Game.set_objects Game.set_players].
    rewrite Hitem'. reflexivity. }
  erewrite bind_ok; cycle 1.
  { unfold lift. rewrite (decr_in_range _ _ _ Hshape Hcol Hval). reflexivity. }
  erewrite bind_ok by reflexivity.
  pose proof (played_state_consistent g _ card c hand hand' st Hg Hc Hhand Hst Hrem) as Hg3.
  unfold bind, Game.eval, modify.
  destruct (Py.index _ (Card.color c)) as [kc|e1]; [|exact Hg3].
  destruct (Py.item _ (Card.color c)) as [top|e2]; [|exact Hg3].
  destruct (top =? Card.value c); simpl;
    (eapply consistent_same_core; [..|exact Hg3]; reflexivity).
Qed.

Lemma run_consistent c g : consistent g -> consistent (snd (run c g)).
Proof.
  intros Hg. destruct c; simpl.
  - unfold bind. pose proof (new_card_consistent color value hand g Hg) as H.
    destruct (Game.new_card color value hand g) as [[r|e] g']; exact H.
  - apply add_player_consistent, Hg.
  - apply deal_card_consistent, Hg.
  - apply deal_hand_consistent, Hg.
  - apply play_card_consistent, Hg.
  - apply give_information_consistent, Hg.
Qed.

Lemma reachable_consistent g : reachable g -> consistent g.
Proof.
  induction 1 as [|g c _ IH]; [apply initial_consistent|apply run_consistent, IH].
Qed.

Lemma run_all_reachable cs g : reachable g -> reachable (run_all cs g).
Proof.
  revert g. induction cs as [|c cs IH]; intros g Hg; [exact Hg|].
  simpl. apply IH. constructor. exact Hg.
Qed.

(** ** The effect of [deal_card] *)

(** C8: [deal_card] raises and changes nothing when the deck has no
    card of that identity left or the owner is not a player; otherwise
    it succeeds, and a successful call takes exactly one card off the
    deck, makes every player but the owner count one card less of that
    identity, leaves the owner's matrix alone and appends the card to
    the owner's hand. *)
Theorem deal_card_effect (g : Game.t) (card : nat) (game_start : bool) (c : Card.t) :
  reachable g ->
  Game.objects g !! card = Some c ->
  let i := Z.to_nat (Card.color c) in
  let j := Z.to_nat (Card.value c) in
  let owner := Card.player_id c in
  (at_ 0 (Game.deck g) i j = 0 \/ ~ 0 <= owner < Z.of_nat (length (Game.players g)) ->
   exists e, Game.deal_card card game_start g = (Raise e, g))
  /\ (at_ 0 (Game.deck g) i j <> 0 /\ 0 <= owner < Z.of_nat (length (Game.players g)) ->
      exists g', Game.deal_card card game_start g = (Ok tt, g'))
  /\ (forall g', Game.deal_card card game_start g = (Ok tt, g') ->
      Np.sum (Game.deck g') = Np.sum (Game.deck g) - 1
      /\ (forall p st, Game.states g !! p = Some st -> Z.of_nat p <> owner ->
            exists st', Game.states g' !! p = Some st'
                        /\ at_ 0 st' i j = at_ 0 st i j - 1)
      /\ Game.states g' !! Z.to_nat owner = Game.states g !! Z.to_nat owner
      /\ exists hand,
           Game.players g !! Z.to_nat owner = Some hand
           /\ Game.players g' !! Z.to_nat owner
              = Some (Hand.make (Hand.id hand) (Hand.cards hand ++ [card]))).
Proof.
  intros Hreach Hc i j owner.
  pose proof (reachable_consistent g Hreach) as Hg.
  pose proof Hg as [H1 H2 H3 H4 H5 H6 H7].
  pose proof (Forall_lookup_1 _ _ _ _ H5 Hc) as Hvalid.
  pose proof Hvalid as [Hcol Hval].
  assert (Hi : (i < 5)%nat) by (subst i; lia).
  assert (Hj : (j < 5)%nat) by (subst j; lia).
  split; [|split].
  - intros Hfail. exists ValueError.
    destruct (player_in_range g owner) eqn:Hp.
    + apply (deal_card_not_in_deck g card game_start c); try assumption.
      apply player_in_range_spec in Hp. destruct Hfail as [Hd|Hn]; [exact Hd|tauto].
    + apply (deal_card_out_of_range g card game_start c); assumption.
  - intros [Hd Hp]. apply player_in_range_spec in Hp.
    destruct (deal_card_success g card game_start c) as (hand & _ & ->); try assumption.
    eexists. reflexivity.
  - intros g' Hok.
    destruct (player_in_range g owner) eqn:Hp; cycle 1.
    { rewrite (deal_card_out_of_range g card game_start c) in Hok by assumption.
      discriminate. }
    destruct (decide (at_ 0 (Game.deck g) i j = 0)) as [Hd|Hd].
    { rewrite (deal_card_not_in_deck g card game_start c) in Hok by assumption.
      discriminate. }
    destruct (deal_card_success g card game_start c) as (hand & Hhand & Hdeal);
      try assumption.
    rewrite Hdeal in Hok. injection Hok as <-.
    apply player_in_range_spec in Hp.
    pose proof (H4 i j Hi Hj) as Hdeck.
    pose proof (init_array_bounds i j Hi Hj) as Hinit.
    unfold dealt. cbn [Game.deck Game.states Game.players]. fold i j owner.
    split; [|split; [|split]].
    + rewrite (sum_set _ _ _ (at_ 0 (Game.deck g) i j))
        by (eapply at_cell; eassumption).
      rewrite wrap32_small by lia. lia.
    + intros p st Hst Hne. rewrite told_lookup, Hst.
      cbn [fmap option_fmap option_map].
      replace (Z.of_nat p =? owner) with false by (symmetry; apply Z.eqb_neq; exact Hne).
      eexists. split; [reflexivity|].
      pose proof (Forall_lookup_1 _ _ _ _ H3 Hst) as Hshape. simpl in Hshape.
      rewrite at_set by (eapply shape_cell; eassumption).
      rewrite decide_True by auto.
      destruct (lookup_lt_is_Some_2 (Game.players g) p) as [hand0 Hhand0].
      { rewrite <- H1. eapply lookup_lt_Some, Hst. }
      pose proof (H7 _ _ _ i j Hhand0 Hst Hi Hj).
      pose proof (held_nonneg (Game.objects g) (Hand.cards hand0) i j).
      apply wrap32_small. lia.
    + rewrite told_lookup.
      replace (Z.of_nat (Z.to_nat owner) =? owner) with true
        by (symmetry; apply Z.eqb_eq; lia).
      destruct (Game.states g !! Z.to_nat owner); reflexivity.
    + exists hand. split; [exact Hhand|].
      apply list_lookup_insert_eq. eapply lookup_lt_Some, Hhand.
Qed.

Lemma deal_card_effect_witness :
  exists g',
    Game.deal_card 0 false (run_all before_deal_script Game.initial) = (Ok tt, g')
    /\ Np.sum (Game.deck g')
       = Np.sum (Game.deck (run_all before_deal_script Game.initial)) - 1.
Proof.
  destruct (deal_card_effect (run_all before_deal_script Game.initial) 0 false
              (fresh_card 0 0 0)) as (_ & Hsucc & Heff).
  - apply run_all_reachable. constructor.
  - reflexivity.
  - destruct Hsucc as [g' Hg'].
    + split; [vm_compute; discriminate|vm_compute; split; [discriminate|reflexivity]].
    + exists g'. split; [exact Hg'|]. apply (Heff g' Hg').
Defined.

(** ** The deck and the players' matrices *)

Lemma min_grid_shape a b :
  Np.shape 5 5 a -> Np.shape 5 5 b -> Np.shape 5 5 (min_grid a b).
Proof.
  intros [Ha1 Ha2] [Hb1 Hb2]. unfold min_grid. split.
  - rewrite length_zip_with. lia.
  - apply Forall_lookup. intros k row Hrow.
    rewrite lookup_zip_with in Hrow.
    destruct (a !! k) as [ra|] eqn:Ea; simpl in Hrow; [|discriminate].
    destruct (b !! k) as [rb|] eqn:Eb; simpl in Hrow; [|discriminate].
    injection Hrow as <-. rewrite length_zip_with.
    pose proof (Forall_lookup_1 _ _ _ _ Ha2 Ea) as La.
    pose proof (Forall_lookup_1 _ _ _ _ Hb2 Eb) as Lb.
    simpl in La, Lb. lia.
Qed.

Lemma at_min_grid a b i j :
  Np.shape 5 5 a -> Np.shape 5 5 b -> (i < 5)%nat -> (j < 5)%nat ->
  at_ 0 (min_grid a b) i j = Z.min (at_ 0 a i j) (at_ 0 b i j).
Proof.
  intros Ha Hb Hi Hj. unfold at_ at 1. unfold min_grid. rewrite cell_zip_with.
  rewrite (at_cell 0 a i j 5 5 Ha Hi Hj), (at_cell 0 b i j 5 5 Hb Hi Hj).
  reflexivity.
Qed.

Lemma foldl_min_grid_ge d ms a :
  Np.shape 5 5 a -> grid_ge a d ->
  Forall (fun m => Np.shape 5 5 m /\ grid_ge m d) ms ->
  grid_ge (foldl min_grid a ms) d.
Proof.
  intros Ha Hge Hms. revert a Ha Hge.
  induction Hms as [|m ms [Hm Hmge] _ IH]; intros a Ha Hge; [exact Hge|].
  simpl. apply IH.
  - apply min_grid_shape; assumption.
  - intros i j Hi Hj. rewrite at_min_grid by assumption.
    specialize (Hge i j Hi Hj). specialize (Hmge i j Hi Hj). lia.
Qed.

Lemma consistent_grid_ge g p st :
  consistent g -> Game.states g !! p = Some st -> grid_ge st (Game.deck g).
Proof.
  intros Hg Hst i j Hi Hj.
  destruct (lookup_lt_is_Some_2 (Game.players g) p) as [hand Hhand].
  { rewrite <- (cons_len g Hg). eapply lookup_lt_Some, Hst. }
  pose proof (cons_states g Hg _ _ _ i j Hhand Hst Hi Hj).
  pose proof (held_nonneg (Game.objects g) (Hand.cards hand) i j). lia.
Qed.

(** X22: in every reachable state each player's matrix is at least the
    deck, cell by cell, and indeed at least the deck plus the cards of
    that identity in the player's own hand; so the deck is a lower
    bound of the elementwise minimum of the matrices. *)
Theorem states_dominate_deck (g : Game.t) (p : nat) (st : list (list Z)) :
  reachable g ->
  Game.states g !! p = Some st ->
  grid_ge st (Game.deck g)
  /\ (forall hand i j, Game.players g !! p = Some hand -> (i < 5)%nat -> (j < 5)%nat ->
        at_ 0 (Game.deck g) i j + held (Game.objects g) (Hand.cards hand) i j
        <= at_ 0 st i j)
  /\ (forall m, elementwise_min (Game.states g) = Some m -> grid_ge m (Game.deck g)).
Proof.
  intros Hreach Hst. pose proof (reachable_consistent g Hreach) as Hg.
  split; [|split].
  - eapply consistent_grid_ge; eassumption.
  - intros hand i j Hhand Hi Hj.
    apply (cons_states g Hg _ _ _ i j Hhand Hst Hi Hj).
  - intros m Hm. unfold elementwise_min in Hm.
    pose proof (cons_states_shape g Hg) as Hshapes.
    assert (Hall : Forall (fun m => Np.shape 5 5 m /\ grid_ge m (Game.deck g))
                          (Game.states g)).
    { apply Forall_lookup. intros q sq Hq. split.
      - exact (Forall_lookup_1 _ _ _ _ Hshapes Hq).
      - eapply consistent_grid_ge; eassumption. }
    destruct (Game.states g) as [|m0 ms]; [discriminate|].
    injection Hm as <-. apply Forall_cons in Hall as [[Hs0 Hge0] Hall].
    apply foldl_min_grid_ge; assumption.
Qed.

Lemma states_dominate_deck_witness :
  grid_ge [[2; 2; 2; 2; 1]; [3; 2; 2; 2; 1]; [3; 2; 2; 2; 1]; [3; 2; 2; 2; 1]; [3; 2; 2; 2; 1]]
          (Game.deck (run_all same_identity_script Game.initial)).
Proof.
  refine (proj1 (states_dominate_deck (run_all same_identity_script Game.initial) 0 _ _ _)).
  - apply run_all_reachable. constructor.
  - reflexivity.
Defined.

(** C4: the deck is not the elementwise minimum of the players'
    matrices, which is what the comment in [deal_card] and the claim
    say it is.  After two players have each been dealt a card of colour
    0 and value 0, one such card is left in the deck, while both
    matrices still count two: [deal_card] leaves a card out of the
    matrices of the other players only, so a card that every player
    but one sees stays in the minimum. *)
Theorem deck_below_minimum :
  let g := run_all same_identity_script Game.initial in
  reachable g
  /\ Game.deck g
     = [[1; 2; 2; 2; 1]; [3; 2; 2; 2; 1]; [3; 2; 2; 2; 1]; [3; 2; 2; 2; 1]; [3; 2; 2; 2; 1]]
  /\ elementwise_min (Game.states g)
     = Some [[2; 2; 2; 2; 1]; [3; 2; 2; 2; 1]; [3; 2; 2; 2; 1]; [3; 2; 2; 2; 1];
             [3; 2; 2; 2; 1]]
  /\ ~ (forall g, reachable g ->
          elementwise_min (Game.states g) = Some (Game.deck g)
          /\ forall p st, Game.states g !! p = Some st -> grid_ge st (Game.deck g)).
Proof.
  split; [apply run_all_reachable; constructor|].
  split; [reflexivity|]. split; [reflexivity|].
  intros H.
  destruct (H (run_all same_identity_script Game.initial)) as [Hmin _].
  - apply run_all_reachable. constructor.
  - vm_compute in Hmin. discriminate Hmin.
Qed.

Lemma hand_add_information_played_witness :
  exists e,
    Hand.add_information (Hand.make 0 [0; 1]%nat) ([0] ++ 1 :: []) (color_clue 0 false)
      (Game.objects (run_all played_in_hand_script Game.initial))
    = (Raise e,
       snd (for_each [0] (Hand.give_addressed (Hand.make 0 [0; 1]%nat) (color_clue 0 false))
              (Game.objects (run_all played_in_hand_script Game.initial)))).
Proof.
  refine (proj1 (hand_add_information_played (Hand.make 0 [0; 1]%nat) [0] [] 1
                   (color_clue 0 false)
                   (Game.objects (run_all played_in_hand_script Game.initial))
                   1%nat _ _ _ _)).
  - reflexivity.
  - reflexivity.
  - reflexivity.
Defined.

(** The hand and the heap of the next lemma are those of a reachable
    state. *)
Example played_in_hand_reachable :
  reachable (run_all played_in_hand_script Game.initial)
  /\ Game.players (run_all played_in_hand_script Game.initial)
     = [Hand.make 0 [0; 1]%nat]
  /\ Card.played <$> Game.objects (run_all played_in_hand_script Game.initial) !! 1%nat
     = Some true.
Proof.
  split; [apply run_all_reachable; constructor|]. split; reflexivity.
Qed.

(** C6, as stated, fails: addressing an unplayed card and then a played
    one raises after the first card's mask has been cut down. *)
Lemma hand_add_information_not_atomic :
  ~ (forall (self : Hand.t) (card_index : list Z) (info : Information.t) (h : heap),
       (exists idx r c, idx ∈ card_index /\ Py.item (Hand.cards self) idx = Ok r
                        /\ h !! r = Some c /\ Card.played c = true) ->
       exists e h',
         Hand.add_information self card_index info h = (Raise e, h')
         /\ forall r, Card.states <$> h' !! r = Card.states <$> h !! r).
Proof.
  intros H.
  destruct (H (Hand.make 0 [0; 1]%nat) [0; 1] (color_clue 0 false)
              (Game.objects (run_all played_in_hand_script Game.initial)))
    as (e & h' & Heq & Hmasks).
  - exists 1, 1%nat. eexists. split; [right; left|].
    split; [reflexivity|]. split; reflexivity.
  - vm_compute in Heq. injection Heq as _ <-.
    specialize (Hmasks 0%nat). vm_compute in Hmasks. discriminate Hmasks.
Qed.

(** ** The probability queries *)

Section QueryFacts.

Context {FM : Type} {ops : FractionMatrix FM}.

Lemma probability_matrix_step fuel g self player_state :
  probability_matrix (S fuel) g self player_state
  = (let* c := card_of g self in
     let* start := starting_matrix g c player_state in
     let* pm := subtract_siblings fuel g player_state (Card.cards_in_hand c) start in
     Ok (make_proba (mask_mul (Card.states c) pm))).
Proof. reflexivity. Qed.

Lemma card_of_Ok g r c : card_of g r = Ok c <-> Game.objects g !! r = Some c.
Proof.
  unfold card_of. destruct (Game.objects g !! r); split; congruence.
Qed.

(** The first statement of [probabilities] against the matrix the
    specification starts from. *)
Lemma visible_state_starting g c player_state st :
  visible_state g c player_state st ->
  starting_matrix g c player_state = Ok (view st).
Proof.
  intros [ps|p st' Hp Hst]; [reflexivity|].
  unfold starting_matrix. rewrite Hp, (item_nat _ _ _ Hst). reflexivity.
Qed.

Lemma starting_visible_state g c player_state start :
  (player_state = None -> 0 <= Card.player_id c) ->
  starting_matrix g c player_state = Ok start ->
  exists st, visible_state g c player_state st /\ start = view st.
Proof.
  intros Hown Hstart. destruct player_state as [ps|]; simpl in Hstart.
  - injection Hstart as <-. exists ps. split; [constructor|reflexivity].
  - specialize (Hown eq_refl).
    destruct (Py.item (Game.states g) (Card.player_id c)) as [st|] eqn:Hitem;
      [|discriminate].
    simpl in Hstart. injection Hstart as <-.
    exists st. split; [|reflexivity].
    apply (visible_own g c (Z.to_nat (Card.player_id c))); [lia|].
    unfold Py.item, Py.index in Hitem.
    destruct (0 <=? Card.player_id c) eqn:H0; [|lia].
    destruct (Card.player_id c <? Z.of_nat (length (Game.states g))) eqn:H1; simpl in Hitem.
    + destruct (Game.states g !! Z.to_nat (Card.player_id c)); congruence.
    + destruct (- Z.of_nat (length (Game.states g)) <=? Card.player_id c); simpl in Hitem;
        [|discriminate].
      destruct (Card.player_id c <? 0) eqn:H2; [lia|discriminate].
Qed.

(** What the code returns is a distribution in the sense of the
    specification. *)
Lemma probability_matrix_sound fuel g player_state :
  (player_state = None -> owners_are_positions g) ->
  forall self pm,
    probability_matrix fuel g self player_state = Ok pm ->
    distribution g player_state self pm.
Proof.
  intros Hown.
  induction fuel as [|fuel IH]; intros self pm Hpm; [discriminate|].
  rewrite probability_matrix_step in Hpm.
  destruct (card_of g self) as [c|] eqn:Hc; [|discriminate]. simpl in Hpm.
  destruct (starting_matrix g c player_state) as [start|] eqn:Hstart; [|discriminate].
  simpl in Hpm.
  destruct (subtract_siblings fuel g player_state (Card.cards_in_hand c) start)
    as [acc|] eqn:Hacc; [|discriminate].
  simpl in Hpm. injection Hpm as <-.
  apply card_of_Ok in Hc.
  destruct (starting_visible_state g c player_state start) as (st & Hvis & ->);
    [|exact Hstart|].
  { intros Hnone. exact (Forall_lookup_1 _ _ _ _ (Hown Hnone) Hc). }
  eapply distribution_of; [exact Hc|exact Hvis|].
  clear Hc Hstart Hvis. generalize dependent (view st). clear st.
  induction (Card.cards_in_hand c) as [|s rest IHl]; intros start Hacc.
  - injection Hacc as <-. constructor.
  - unfold subtract_siblings in Hacc. simpl in Hacc.
    destruct (card_of g s) as [sc|] eqn:Hs; [|discriminate]. simpl in Hacc.
    apply card_of_Ok in Hs.
    destruct (Card.played sc) eqn:Hplayed; simpl in Hacc.
    + eapply sibling_played; [exact Hs|exact Hplayed|]. apply IHl, Hacc.
    + destruct (probability_matrix fuel g s player_state) as [q|] eqn:Hq;
        [|discriminate].
      simpl in Hacc.
      eapply sibling_in_hand; [exact Hs|exact Hplayed|apply IH, Hq|].
      apply IHl, Hacc.
Qed.

(** Every distribution is what the code returns once the recursion is
    given enough depth. *)
Lemma distribution_complete g player_state :
  forall self pm,
    distribution g player_state self pm ->
    exists fuel, forall fuel', (fuel <= fuel')%nat ->
      probability_matrix fuel' g self player_state = Ok pm.
Proof.
  apply (distribution_mut FM ops g player_state
    (fun self pm => exists fuel, forall fuel', (fuel <= fuel')%nat ->
       probability_matrix fuel' g self player_state = Ok pm)
    (fun l start pm => exists fuel, forall fuel', (fuel <= fuel')%nat ->
       subtract_siblings fuel' g player_state l start = Ok pm)).
  - intros self c st pm Hc Hvis _ [fuel Hfuel].
    exists (S fuel). intros fuel' Hle.
    destruct fuel' as [|fuel']; [lia|].
    rewrite probability_matrix_step.
    apply card_of_Ok in Hc. rewrite Hc. simpl.
    rewrite (visible_state_starting _ _ _ _ Hvis). simpl.
    rewrite Hfuel by lia. reflexivity.
  - intros pm. exists 0%nat. intros fuel' _. reflexivity.
  - intros s sc rest pm pm' Hs Hplayed _ [fuel Hfuel].
    exists fuel. intros fuel' Hle. unfold subtract_siblings. simpl.
    apply card_of_Ok in Hs. rewrite Hs. simpl. rewrite Hplayed.
    apply Hfuel, Hle.
  - intros s sc q rest pm pm' Hs Hplayed _ [fuel1 Hq] _ [fuel2 Hrest].
    exists (Nat.max fuel1 fuel2). intros fuel' Hle. unfold subtract_siblings. simpl.
    apply card_of_Ok in Hs. rewrite Hs. simpl. rewrite Hplayed.
    rewrite Hq by lia. simpl. apply Hrest. lia.
Qed.

(** C1: [probabilities] returns exactly the distribution the
    specification describes -- the visible-state matrix given, or the
    one [Game.states] keeps for the card's own player when none is
    given, minus the distribution of every sibling of the snapshot that
    is not played, computed under the same [player_state], times the
    card's mask, normalised -- and it does return it at every recursion
    depth from some depth on, as the matrix alone or paired with its
    denominator.  When no matrix is given the cards must name their
    player by position: a negative [player_id] would make the code
    count from the end of [Game.states]. *)
Theorem probabilities_computes_distribution
    (g : Game.t) (player_state : option (list (list Z))) (self : nat) (pm : FM) :
  (player_state = None -> owners_are_positions g) ->
  distribution g player_state self pm
  <-> exists fuel, forall fuel', (fuel <= fuel')%nat ->
        probabilities fuel' g self true player_state
          = Ok (MatrixAndDenominator pm (denominator pm))
        /\ probabilities fuel' g self false player_state = Ok (Matrix pm).
Proof.
  intros Hown. split.
  - intros Hd. destruct (distribution_complete g player_state self pm Hd) as [fuel Hfuel].
    exists fuel. intros fuel' Hle. unfold probabilities.
    rewrite (Hfuel fuel' Hle). split; reflexivity.
  - intros [fuel Hfuel]. destruct (Hfuel fuel (Nat.le_refl fuel)) as [_ Hm].
    unfold probabilities in Hm.
    destruct (probability_matrix fuel g self player_state) as [pm'|] eqn:Hpm;
      [|discriminate].
    simpl in Hm. injection Hm as <-.
    eapply probability_matrix_sound; [exact Hown|exact Hpm].
Qed.

(** C3: [most_likely] never returns.  Its call of [probabilities] leaves
    [return_denominator] at its default, so what comes back is the
    matrix alone, and unpacking it into two names raises. *)
Theorem most_likely_raises (fuel : nat) (g : Game.t) (self : nat) (return_proba : bool) :
  most_likely fuel g self return_proba
  = match probability_matrix fuel g self None with
    | Ok _ => Raise ValueError
    | Raise e => Raise e
    end.
Proof.
  unfold most_likely, probabilities.
  destruct (probability_matrix fuel g self None); reflexivity.
Qed.

End QueryFacts.

Lemma probabilities_computes_distribution_witness :
  owners_are_positions (run_all siblings_script Game.initial)
  /\ distribution (run_all siblings_script Game.initial) None 2 siblings_distribution
  /\ exists fuel, forall fuel', (fuel <= fuel')%nat ->
       probabilities fuel' (run_all siblings_script Game.initial) 2 true None
         = Ok (MatrixAndDenominator siblings_distribution (Some 72))
       /\ probabilities fuel' (run_all siblings_script Game.initial) 2 false None
         = Ok (Matrix siblings_distribution).
Proof.
  assert (Hown : owners_are_positions (run_all siblings_script Game.initial)).
  { vm_compute. repeat constructor; discriminate. }
  assert (Hd : distribution (run_all siblings_script Game.initial) None 2
                 siblings_distribution).
  { pose (row0 := [[true; true; true; true; true];
                   [false; false; false; false; false];
                   [false; false; false; false; false];
                   [false; false; false; false; false];
                   [false; false; false; false; false]]).
    pose (c0 := Card.make 0 0 1 true Np.ones []).
    pose (c1 := Card.make 0 0 1 false row0 [0%nat]).
    pose (c2 := Card.make 0 1 1 false row0 [0%nat; 1%nat]).
    pose (q := make_proba (mask_mul row0 (view siblings_state))).
    change siblings_distribution
      with (make_proba (mask_mul (Card.states c2) (sub (view siblings_state) q))).
    apply (distribution_of _ None 2 c2 siblings_state (sub (view siblings_state) q));
      [reflexivity|apply (visible_own _ _ 1%nat); reflexivity|].
    apply (sibling_played _ None 0%nat c0); [reflexivity|reflexivity|].
    apply (sibling_in_hand _ None 1%nat c1 q); [reflexivity|reflexivity| |constructor].
    change q with (make_proba (mask_mul (Card.states c1) (view siblings_state))).
    apply (distribution_of _ None 1 c1 siblings_state (view siblings_state));
      [reflexivity|apply (visible_own _ _ 1%nat); reflexivity|].
    apply (sibling_played _ None 0%nat c0); [reflexivity|reflexivity|constructor]. }
  split; [exact Hown|]. split; [exact Hd|].
  exact (proj1 (probabilities_computes_distribution
                  (run_all siblings_script Game.initial) None 2 siblings_distribution
                  (fun _ => Hown))
               Hd).
Defined.

(** C2: a card that is determined, and whose only possible identity is
    its own, is reported as not well predicted: the index compared with
    the card is the first true cell of the mask, here (0, 0), not the
    one non-zero cell of the distribution, here (0, 1). *)
Theorem well_predicted_reads_mask :
  let g := run_all narrowed_script Game.initial in
  reachable g
  /\ (Card.color <$> Game.objects g !! 8%nat) = Some 0
  /\ (Card.value <$> Game.objects g !! 8%nat) = Some 1
  /\ determined (FM := frac) 1 g 8 = Ok true
  /\ (let* pm := probability_matrix (FM := frac) 1 g 8 None in
      Ok (Np.argwhere nonzero (entries pm))) = Ok [(0, 1)%nat]
  /\ well_predicted (FM := frac) 1 g 8 = Ok false.
Proof.
  split; [apply run_all_reachable; constructor|].
  repeat split; reflexivity.
Qed.

(** The fractions modelled from the specification, on its scenario of
    the three cards of one identity in one hand, each told its colour
    and its value: every one of them is determined, and well
    predicted. *)
Example three_alike_determined :
  let g := run_all three_alike_script Game.initial in
  Forall (fun r => determined (FM := frac) 3 g r = Ok true
                   /\ well_predicted (FM := frac) 3 g r = Ok true)
         [0; 1; 2]%nat.
Proof.
  repeat constructor.
Qed.

(** * Further properties *)

(** ** Clues only remove possibilities *)

Lemma row_count_cons b r :
  row_count (b :: r) = ((if b then 1 else 0) + row_count r)%nat.
Proof.
  unfold row_count. rewrite filter_cons.
  destruct (decide (b = true)) as [->|Hb]; [reflexivity|].
  destruct b; [congruence|reflexivity].
Qed.

Lemma row_count_fmap_false (r : list bool) :
  row_count ((fun _ => false) <$> r) = 0%nat.
Proof.
  induction r as [|b r IH]; [reflexivity|].
  rewrite fmap_cons, row_count_cons, IH. reflexivity.
Qed.

Lemma row_count_imap_le (f : nat -> bool -> bool) (r : list bool) :
  (forall j y, f j y = true -> y = true) ->
  (row_count (imap f r) <= row_count r)%nat.
Proof.
  revert f. induction r as [|b r IH]; intros f Hf; [reflexivity|].
  rewrite imap_cons, !row_count_cons.
  specialize (IH (f ∘ S) (fun j y => Hf (S j) y)).
  destruct (f 0%nat b) eqn:E; [rewrite (Hf _ _ E)|]; destruct b; lia.
Qed.

Lemma true_count_cons r m :
  true_count (r :: m) = (row_count r + true_count m)%nat.
Proof. reflexivity. Qed.

Lemma true_count_imap_le (f : nat -> list bool -> list bool) (m : list (list bool)) :
  (forall i r, (row_count (f i r) <= row_count r)%nat) ->
  (true_count (imap f m) <= true_count m)%nat.
Proof.
  revert f. induction m as [|r m IH]; intros f Hf; [reflexivity|].
  rewrite imap_cons, !true_count_cons.
  specialize (IH (f ∘ S) (fun i r => Hf (S i) r)). specialize (Hf 0%nat r). lia.
Qed.

Lemma true_count_fill_rows lo hi m :
  (true_count (Np.fill_rows false lo hi m) <= true_count m)%nat.
Proof.
  unfold Np.fill_rows. apply true_count_imap_le. intros i r.
  destruct (Np.within lo hi i); [rewrite row_count_fmap_false; lia|reflexivity].
Qed.

Lemma true_count_fill_cols lo hi m :
  (true_count (Np.fill_cols false lo hi m) <= true_count m)%nat.
Proof.
  unfold Np.fill_cols. induction m as [|r m IH]; [reflexivity|].
  rewrite fmap_cons, !true_count_cons.
  assert ((row_count (imap (fun j y => if Np.within lo hi j then false else y) r)
           <= row_count r)%nat); [|lia].
  apply row_count_imap_le. intros j y. destruct (Np.within lo hi j); congruence.
Qed.

(** X1: whatever the clue and whatever the mask, a call of
    [Card.add_information] that returns leaves at most as many
    possible identities as there were. *)
Theorem add_information_monotone (info : Information.t) (c c' : Card.t) :
  Card.add_information info c = Ok c' ->
  (true_count (Card.states c') <= true_count (Card.states c))%nat.
Proof.
  unfold Card.add_information, Card.add_information_mask.
  destruct (Information.is_color info), (Information.negative info).
  - destruct (Py.index _ _) as [i|e]; simpl; [|discriminate].
    intros [= <-]. simpl. apply true_count_fill_rows.
  - simpl. intros [= <-]. simpl.
    etransitivity; [apply true_count_fill_rows|apply true_count_fill_rows].
  - destruct (Py.index _ _) as [j|e]; simpl; [|discriminate].
    intros [= <-]. simpl. apply true_count_fill_cols.
  - simpl. intros [= <-]. simpl.
    etransitivity; [apply true_count_fill_cols|apply true_count_fill_cols].
Qed.

Lemma add_information_monotone_witness :
  (true_count (Np.fill_rows false 3 5 (Np.fill_rows false 0 2 Np.ones))
   <= true_count Np.ones)%nat.
Proof.
  exact (add_information_monotone (color_clue 2 false) (fresh_card 0 1 0)
           (Card.set_states (Np.fill_rows false 3 5 (Np.fill_rows false 0 2 Np.ones))
              (fresh_card 0 1 0))
           eq_refl).
Defined.

Lemma clue_keeps_negate info i j :
  clue_keeps (Information.negate info) i j = negb (clue_keeps info i j).
Proof.
  unfold clue_keeps, Information.negate. simpl.
  destruct (Information.negative info); simpl; [rewrite negb_involutive|]; reflexivity.
Qed.

(** X2: a clue and its negation contradict each other: a card given
    both, in either order, has no possible identity left. *)
Theorem contradictory_clues_empty_mask (c : Card.t) (info : Information.t) :
  Np.shape 5 5 (Card.states c) ->
  valid_clue info = true ->
  exists c1 c2,
    (let* c' := Card.add_information info c in
     Card.add_information (Information.negate info) c') = Ok c1
    /\ (let* c' := Card.add_information (Information.negate info) c in
        Card.add_information info c') = Ok c2
    /\ forall i j, at_ false (Card.states c1) i j = false
                   /\ at_ false (Card.states c2) i j = false.
Proof.
  intros Hs Hv.
  assert (Hv' : valid_clue (Information.negate info) = true) by exact Hv.
  destruct (add_information_mask_cells info _ Hs Hv) as (m1 & Hm1 & Hs1 & Hc1).
  destruct (add_information_mask_cells (Information.negate info) _ Hs1 Hv')
    as (m12 & Hm12 & _ & Hc12).
  destruct (add_information_mask_cells (Information.negate info) _ Hs Hv')
    as (m2 & Hm2 & Hs2 & Hc2).
  destruct (add_information_mask_cells info _ Hs2 Hv) as (m21 & Hm21 & _ & Hc21).
  exists (Card.set_states m12 c), (Card.set_states m21 c).
  unfold Card.add_information. rewrite Hm1, Hm2. simpl. rewrite Hm12, Hm21. simpl.
  split; [reflexivity|]. split; [reflexivity|].
  intros i j.
  rewrite (at_after_clue _ _ _ i j Hc12), (at_after_clue _ _ _ i j Hc1).
  rewrite (at_after_clue _ _ _ i j Hc21), (at_after_clue _ _ _ i j Hc2).
  rewrite !clue_keeps_negate.
  destruct (at_ false (Card.states c) i j), (clue_keeps info i j); split; reflexivity.
Qed.

Lemma contradictory_clues_empty_mask_witness :
  exists c1 c2,
    (let* c' := Card.add_information (value_clue 3 false) (fresh_card 1 3 0) in
     Card.add_information (Information.negate (value_clue 3 false)) c') = Ok c1
    /\ (let* c' := Card.add_information (Information.negate (value_clue 3 false))
                     (fresh_card 1 3 0) in
        Card.add_information (value_clue 3 false) c') = Ok c2
    /\ forall i j, at_ false (Card.states c1) i j = false
                   /\ at_ false (Card.states c2) i j = false.
Proof.
  apply (contradictory_clues_empty_mask (fresh_card 1 3 0) (value_clue 3 false)).
  - apply shapeb_shape. reflexivity.
  - reflexivity.
Defined.

(** ** Siblings in the probability recursion *)

Section SiblingFacts.

Context {FM : Type} {ops : FractionMatrix FM}.

Lemma subtract_siblings_raises fuel g player_state self c l start :
  Game.objects g !! self = Some c ->
  Card.played c = false ->
  self ∈ l ->
  (exists e, probability_matrix fuel g self player_state = Raise e) ->
  exists e, subtract_siblings fuel g player_state l start = Raise e.
Proof.
  intros Hc Hplayed Hin [e He]. revert start.
  induction l as [|s l IH]; intros start; [inversion Hin|].
  unfold subtract_siblings. simpl.
  destruct (card_of g s) as [sc|e1] eqn:Hs; simpl; [|eexists; reflexivity].
  apply card_of_Ok in Hs.
  destruct (decide (s = self)) as [->|Hne].
  - assert (sc = c) by congruence. subst sc. rewrite Hplayed, He. simpl.
    eexists. reflexivity.
  - assert (Hin' : self ∈ l).
    { apply elem_of_cons in Hin as [->|Hin]; [congruence|exact Hin]. }
    destruct (Card.played sc).
    + apply (IH Hin').
    + destruct (probability_matrix fuel g s player_state) as [q|e2]; simpl;
        [apply (IH Hin')|eexists; reflexivity].
Qed.

(** X3: a card that is not played and is listed in its own sibling
    snapshot -- which is what dealing the same object twice produces --
    has no distribution: [probabilities] fails at every recursion
    depth. *)
Theorem probabilities_self_sibling
    (g : Game.t) (self : nat) (c : Card.t) (player_state : option (list (list Z)))
    (fuel : nat) (return_denominator : bool) :
  Game.objects g !! self = Some c ->
  Card.played c = false ->
  self ∈ Card.cards_in_hand c ->
  exists e, probabilities fuel g self return_denominator player_state = Raise e.
Proof.
  intros Hc Hplayed Hin.
  assert (H : exists e, probability_matrix fuel g self player_state = Raise e).
  { induction fuel as [|fuel IH]; [eexists; reflexivity|].
    rewrite probability_matrix_step.
    apply card_of_Ok in Hc as Hc'. rewrite Hc'. simpl.
    destruct (starting_matrix g c player_state) as [start|e]; simpl;
      [|eexists; reflexivity].
    destruct (subtract_siblings_raises fuel g player_state self c
                (Card.cards_in_hand c) start Hc Hplayed Hin IH) as [e ->].
    eexists. reflexivity. }
  destruct H as [e He]. exists e. unfold probabilities. rewrite He. reflexivity.
Qed.

Lemma subtract_siblings_all_played fuel g player_state l start :
  Forall (fun s => exists sc, Game.objects g !! s = Some sc /\ Card.played sc = true) l ->
  subtract_siblings fuel g player_state l start = Ok start.
Proof.
  induction 1 as [|s l (sc & Hs & Hp) _ IH]; [reflexivity|].
  unfold subtract_siblings. simpl.
  apply card_of_Ok in Hs. rewrite Hs. simpl. rewrite Hp. exact IH.
Qed.

(** X4: siblings that are played are skipped.  For a card whose
    snapshot is empty or holds played cards only, the distribution is
    the starting matrix times the mask, normalised, and one level of
    recursion is enough. *)
Theorem probabilities_without_siblings
    (g : Game.t) (self : nat) (c : Card.t) (player_state : option (list (list Z)))
    (start : FM) (fuel : nat) :
  Game.objects g !! self = Some c ->
  starting_matrix g c player_state = Ok start ->
  Forall (fun s => exists sc, Game.objects g !! s = Some sc /\ Card.played sc = true)
         (Card.cards_in_hand c) ->
  probabilities (S fuel) g self false player_state
  = Ok (Matrix (make_proba (mask_mul (Card.states c) start))).
Proof.
  intros Hc Hstart Hall. unfold probabilities.
  rewrite probability_matrix_step.
  apply card_of_Ok in Hc. rewrite Hc. simpl. rewrite Hstart. simpl.
  rewrite (subtract_siblings_all_played _ _ _ _ _ Hall). reflexivity.
Qed.

End SiblingFacts.

Lemma probabilities_self_sibling_witness :
  exists e,
    probabilities (FM := frac) 7 (run_all dealt_twice_script Game.initial) 0 true None
    = Raise e.
Proof.
  apply (probabilities_self_sibling (run_all dealt_twice_script Game.initial) 0
           (Card.make 0 0 0 false Np.ones [0%nat]) None 7 true).
  - reflexivity.
  - reflexivity.
  - vm_compute. left.
Defined.

Lemma probabilities_without_siblings_witness :
  Card.cards_in_hand <$> Game.objects (run_all siblings_script Game.initial) !! 1%nat
    = Some [0%nat]
  /\ Card.played <$> Game.objects (run_all siblings_script Game.initial) !! 0%nat
    = Some true
  /\ probabilities (FM := frac) 3 (run_all siblings_script Game.initial) 1 false None
    = Ok (Matrix (Frac [[2; 2; 2; 2; 1]; [0; 0; 0; 0; 0]; [0; 0; 0; 0; 0];
                        [0; 0; 0; 0; 0]; [0; 0; 0; 0; 0]] 9)).
Proof.
  split; [reflexivity|]. split; [reflexivity|].
  pose (row0 := [[true; true; true; true; true];
                 [false; false; false; false; false];
                 [false; false; false; false; false];
                 [false; false; false; false; false];
                 [false; false; false; false; false]]).
  pose (c1 := Card.make 0 0 1 false row0 [0%nat]).
  change (Frac [[2; 2; 2; 2; 1]; [0; 0; 0; 0; 0]; [0; 0; 0; 0; 0];
                [0; 0; 0; 0; 0]; [0; 0; 0; 0; 0]] 9)
    with (make_proba (mask_mul (Card.states c1) (view siblings_state))).
  apply (probabilities_without_siblings (run_all siblings_script Game.initial) 1
           c1 None (view siblings_state) 2).
  - reflexivity.
  - reflexivity.
  - constructor; [|constructor].
    exists (Card.make 0 0 1 true Np.ones []). split; reflexivity.
Defined.

(** ** Hands: adding, removing and reordering cards *)

Lemma remove_absent (x : nat) (l : list nat) :
  x ∉ l -> Py.remove x l = Raise ValueError.
Proof.
  induction l as [|y l IH]; intros Hx; [reflexivity|].
  apply not_elem_of_cons in Hx as [Hne Hx]. simpl.
  replace (Nat.eqb x y) with false by (symmetry; apply Nat.eqb_neq; exact Hne).
  rewrite (IH Hx). reflexivity.
Qed.

Lemma remove_first (x : nat) (l1 l2 : list nat) :
  x ∉ l1 -> Py.remove x (l1 ++ x :: l2) = Ok (l1 ++ l2).
Proof.
  induction l1 as [|y l1 IH]; intros Hx; simpl.
  - rewrite Nat.eqb_refl. reflexivity.
  - apply not_elem_of_cons in Hx as [Hne Hx].
    replace (Nat.eqb x y) with false by (symmetry; apply Nat.eqb_neq; exact Hne).
    rewrite (IH Hx). reflexivity.
Qed.

Lemma hand_eta (self : Hand.t) : Hand.make (Hand.id self) (Hand.cards self) = self.
Proof. destruct self. reflexivity. Qed.

(** X5: [Hand.add_card] rejects a reference that is not a card with
    [ValueError], hand and heap untouched.  Otherwise it appends the
    card at the end of the hand and, unless the game is starting,
    appends the cards the hand held before, in order, to the new card's
    sibling snapshot; no other object changes. *)
Theorem add_card_snapshot (self : Hand.t) (card : nat) (game_start : bool) (h : heap) :
  match h !! card with
  | None => Hand.add_card self card game_start h = (Raise ValueError, h)
  | Some c =>
      exists h',
        Hand.add_card self card game_start h
        = (Ok (Hand.make (Hand.id self) (Hand.cards self ++ [card])), h')
        /\ h' !! card
           = Some (Card.set_cards_in_hand
                     (if game_start then Card.cards_in_hand c
                      else Card.cards_in_hand c ++ Hand.cards self) c)
        /\ forall r, r <> card -> h' !! r = h !! r
  end.
Proof.
  destruct (h !! card) as [c|] eqn:Hc.
  - exists (joined card game_start (Hand.cards self) h).
    split; [eapply add_card_closed; exact Hc|].
    unfold joined. destruct game_start.
    + split; [|reflexivity]. rewrite Hc. destruct c. reflexivity.
    + split.
      * rewrite list_lookup_alter_eq, Hc. reflexivity.
      * intros r Hne. apply list_lookup_alter_ne. congruence.
  - unfold Hand.add_card. erewrite bind_raise; [reflexivity|].
    unfold check_iscard. rewrite Hc. reflexivity.
Qed.

(** X6: [Hand.remove_card] with a card takes out the first occurrence
    of that card and nothing else, and raises [ValueError] when the
    card is not in the hand. *)
Theorem remove_card_first_occurrence (self : Hand.t) (card : nat) :
  (card ∉ Hand.cards self -> Hand.remove_card self card = Raise ValueError)
  /\ (forall l1 l2, Hand.cards self = l1 ++ card :: l2 -> card ∉ l1 ->
        Hand.remove_card self card = Ok (Hand.make (Hand.id self) (l1 ++ l2))).
Proof.
  unfold Hand.remove_card. split.
  - intros Hx. rewrite (remove_absent _ _ Hx). reflexivity.
  - intros l1 l2 -> Hx. rewrite (remove_first _ _ _ Hx). reflexivity.
Qed.

(** X7: a card added to a hand that did not hold it and then removed
    leaves the hand as it was. *)
Theorem add_then_remove_card
    (self : Hand.t) (card : nat) (game_start : bool) (h : heap) (c : Card.t) :
  h !! card = Some c ->
  card ∉ Hand.cards self ->
  exists hand' h',
    Hand.add_card self card game_start h = (Ok hand', h')
    /\ Hand.remove_card hand' card = Ok self.
Proof.
  intros Hc Hx. eexists. eexists.
  split; [eapply add_card_closed; exact Hc|].
  unfold Hand.remove_card. simpl.
  rewrite <- (app_nil_r (Hand.cards self ++ [card])), <- app_assoc. simpl.
  rewrite (remove_first _ _ _ Hx), app_nil_r. simpl. rewrite hand_eta. reflexivity.
Qed.

Lemma add_then_remove_card_witness :
  exists hand' h',
    Hand.add_card (Hand.make 0 [1%nat]) 0 false [fresh_card 0 0 0; fresh_card 0 1 0]
    = (Ok hand', h')
    /\ Hand.remove_card hand' 0 = Ok (Hand.make 0 [1%nat]).
Proof.
  apply (add_then_remove_card (Hand.make 0 [1%nat]) 0 false
           [fresh_card 0 0 0; fresh_card 0 1 0] (fresh_card 0 0 0)).
  - reflexivity.
  - simpl. intros H. apply list_elem_of_singleton in H. discriminate.
Defined.

Lemma remove_at_position (l : list nat) (k : nat) (r : nat) :
  NoDup l -> l !! k = Some r -> Py.remove r l = Ok (delete k l).
Proof.
  intros Hnd Hk.
  rewrite <- (take_drop_middle l k r Hk) at 1.
  rewrite remove_first.
  - rewrite delete_take_drop. reflexivity.
  - intros Hin. apply list_elem_of_lookup in Hin as [k' Hk'].
    rewrite lookup_take_Some in Hk'. destruct Hk' as [Hk' Hlt].
    pose proof (NoDup_lookup _ _ _ _ Hnd Hk Hk'). lia.
Qed.

(** X8: [Hand.remove_card] with a position raises [IndexError] outside
    [-n, n); in a hand without repeated cards it deletes exactly the
    card at that position (negative positions counting from the end). *)
Theorem remove_card_at_position (self : Hand.t) (card : Z) :
  (~ - Z.of_nat (Hand.n_cards self) <= card < Z.of_nat (Hand.n_cards self) ->
   Hand.remove_card_at self card = Raise IndexError)
  /\ (forall k, NoDup (Hand.cards self) ->
        Py.index (Hand.n_cards self) card = Ok k ->
        Hand.remove_card_at self card
        = Ok (Hand.make (Hand.id self) (delete k (Hand.cards self)))).
Proof.
  unfold Hand.remove_card_at, Hand.n_cards, Py.item. split.
  - intros Hout. unfold Py.index.
    destruct ((0 <=? card) && (card <? Z.of_nat (length (Hand.cards self)))) eqn:E1.
    { apply andb_true_iff in E1 as [H1 H2]. apply Z.leb_le in H1. apply Z.ltb_lt in H2. lia. }
    destruct ((- Z.of_nat (length (Hand.cards self)) <=? card) && (card <? 0)) eqn:E2.
    { apply andb_true_iff in E2 as [H1 H2]. apply Z.leb_le in H1. apply Z.ltb_lt in H2. lia. }
    reflexivity.
  - intros k Hnd Hk. rewrite Hk. simpl.
    destruct (Hand.cards self !! k) as [r|] eqn:Hr.
    + simpl. rewrite (remove_at_position _ _ _ Hnd Hr). reflexivity.
    + exfalso. apply lookup_ge_None in Hr. unfold Py.index in Hk.
      destruct ((0 <=? card) && (card <? Z.of_nat (length (Hand.cards self)))) eqn:E1.
      { apply andb_true_iff in E1 as [H1 H2]. apply Z.leb_le in H1. apply Z.ltb_lt in H2.
        injection Hk as <-. lia. }
      destruct ((- Z.of_nat (length (Hand.cards self)) <=? card) && (card <? 0)) eqn:E2;
        [|discriminate].
      apply andb_true_iff in E2 as [H1 H2]. apply Z.leb_le in H1. apply Z.ltb_lt in H2.
      injection Hk as <-. lia.
Qed.

Lemma index_Ok_lt (n : nat) (i : Z) (k : nat) :
  Py.index n i = Ok k -> (k < n)%nat.
Proof.
  unfold Py.index.
  destruct ((0 <=? i) && (i <? Z.of_nat n)) eqn:E1.
  { apply andb_true_iff in E1 as [H1 H2]. apply Z.leb_le in H1. apply Z.ltb_lt in H2.
    intros [= <-]. lia. }
  destruct ((- Z.of_nat n <=? i) && (i <? 0)) eqn:E2; [|discriminate].
  apply andb_true_iff in E2 as [H1 H2]. apply Z.leb_le in H1. apply Z.ltb_lt in H2.
  intros [= <-]. lia.
Qed.

Lemma index_Raise (n : nat) (i : Z) (e : exn) :
  Py.index n i = Raise e -> e = IndexError.
Proof.
  unfold Py.index.
  destruct ((0 <=? i) && (i <? Z.of_nat n)); [discriminate|].
  destruct ((- Z.of_nat n <=? i) && (i <? 0)); [discriminate|].
  intros [= <-]. reflexivity.
Qed.

Lemma item_index {A} (l : list A) (i : Z) (k : nat) (x : A) :
  Py.index (length l) i = Ok k -> l !! k = Some x -> Py.item l i = Ok x.
Proof. intros Hk Hx. unfold Py.item. rewrite Hk. simpl. rewrite Hx. reflexivity. Qed.

Lemma rmap_Forall2 {A B} (f : A -> result B) (l : list A) (l' : list B) :
  Forall2 (fun a b => f a = Ok b) l l' -> rmap f l = Ok l'.
Proof.
  induction 1 as [|a b l l' Hab _ IH]; [reflexivity|].
  simpl. rewrite Hab. simpl. rewrite IH. reflexivity.
Qed.

Lemma length_swapped {A} (i j : nat) (l : list A) :
  length (swapped i j l) = length l.
Proof.
  unfold swapped. destruct (l !! i), (l !! j); rewrite ?length_insert; reflexivity.
Qed.

Lemma lookup_swapped {A} (i j p : nat) (l : list A) :
  (i < length l)%nat -> (j < length l)%nat ->
  swapped i j l !! p
  = if decide (p = i) then l !! j else if decide (p = j) then l !! i else l !! p.
Proof.
  intros Hi Hj. unfold swapped.
  destruct (lookup_lt_is_Some_2 l i Hi) as [x Hx].
  destruct (lookup_lt_is_Some_2 l j Hj) as [y Hy].
  rewrite Hx, Hy.
  destruct (decide (p = i)) as [->|Hpi].
  - rewrite list_lookup_insert_eq by (rewrite length_insert; exact Hi). reflexivity.
  - rewrite list_lookup_insert_ne by congruence.
    destruct (decide (p = j)) as [->|Hpj].
    + rewrite list_lookup_insert_eq by exact Hj. reflexivity.
    + rewrite list_lookup_insert_ne by congruence. reflexivity.
Qed.

Lemma swapped_twice {A} (i j : nat) (l : list A) :
  (i < length l)%nat -> (j < length l)%nat ->
  swapped i j (swapped i j l) = l.
Proof.
  intros Hi Hj. apply list_eq. intros p.
  rewrite lookup_swapped by (rewrite length_swapped; assumption).
  rewrite !lookup_swapped by assumption.
  destruct (decide (p = i)) as [->|Hpi].
  - destruct (decide (j = i)) as [->|_]; [reflexivity|].
    rewrite decide_True by reflexivity. reflexivity.
  - destruct (decide (p = j)) as [->|Hpj]; [|reflexivity].
    rewrite decide_True by reflexivity. reflexivity.
Qed.

Lemma reorder_swaps_aux (self : Hand.t) (card_idx new_idx : Z) :
  match Py.index (Hand.n_cards self) card_idx, Py.index (Hand.n_cards self) new_idx with
  | Ok i, Ok j =>
      Hand.reorder self card_idx new_idx
      = Ok (Hand.make (Hand.id self) (swapped i j (Hand.cards self)))
  | _, _ => Hand.reorder self card_idx new_idx = Raise IndexError
  end.
Proof.
  unfold Hand.reorder, Py.setitem.
  rewrite length_fmap, length_seq.
  destruct (Py.index (Hand.n_cards self) card_idx) as [i|e1] eqn:Hi; simpl;
    [|rewrite (index_Raise _ _ _ Hi); reflexivity].
  rewrite length_insert, length_fmap, length_seq.
  destruct (Py.index (Hand.n_cards self) new_idx) as [j|e2] eqn:Hj; simpl;
    [|rewrite (index_Raise _ _ _ Hj); reflexivity].
  pose proof (index_Ok_lt _ _ _ Hi) as Hi'. pose proof (index_Ok_lt _ _ _ Hj) as Hj'.
  unfold Hand.n_cards in *.
  rewrite (rmap_Forall2 _ _ (swapped i j (Hand.cards self))); [reflexivity|].
  apply Forall2_same_length_lookup_2.
  - rewrite !length_insert, length_fmap, length_seq, length_swapped. reflexivity.
  - intros p k y Hk Hy.
    rewrite lookup_swapped in Hy by assumption.
    assert (Hp : (p < length (Hand.cards self))%nat).
    { apply lookup_lt_Some in Hk.
      rewrite !length_insert, length_fmap, length_seq in Hk. exact Hk. }
    destruct (decide (p = j)) as [->|Hpj].
    + rewrite list_lookup_insert_eq in Hk
        by (rewrite length_insert, length_fmap, length_seq; exact Hj').
      injection Hk as <-.
      destruct (decide (j = i)) as [->|_]; apply (item_index _ _ _ _ Hi Hy).
    + rewrite list_lookup_insert_ne in Hk by congruence.
      destruct (decide (p = i)) as [->|Hpi].
      * rewrite list_lookup_insert_eq in Hk by (rewrite length_fmap, length_seq; exact Hi').
        injection Hk as <-. apply (item_index _ _ _ _ Hj Hy).
      * rewrite list_lookup_insert_ne in Hk by congruence.
        rewrite list_lookup_fmap, lookup_seq_lt in Hk by exact Hp.
        simpl in Hk. injection Hk as <-. apply item_nat, Hy.
Qed.


(** X9: [Hand.reorder] exchanges the cards at the two positions given
    (negative positions counting from the end, equal positions
    changing nothing) and keeps every other card in place; a position
    outside [-n, n) raises [IndexError]. *)
Theorem reorder_swaps (self : Hand.t) (card_idx new_idx : Z) :
  match Py.index (Hand.n_cards self) card_idx, Py.index (Hand.n_cards self) new_idx with
  | Ok i, Ok j =>
      Hand.reorder self card_idx new_idx
      = Ok (Hand.make (Hand.id self) (swapped i j (Hand.cards self)))
  | _, _ => Hand.reorder self card_idx new_idx = Raise IndexError
  end.
Proof. apply reorder_swaps_aux. Qed.

(** X10: reordering twice with the same two positions gives the hand
    back. *)
Theorem reorder_twice (self hand' : Hand.t) (card_idx new_idx : Z) :
  Hand.reorder self card_idx new_idx = Ok hand' ->
  Hand.reorder hand' card_idx new_idx = Ok self.
Proof.
  intros H. pose proof (reorder_swaps_aux self card_idx new_idx) as H1.
  destruct (Py.index (Hand.n_cards self) card_idx) as [i|e1] eqn:Hi;
    [|rewrite H in H1; discriminate].
  destruct (Py.index (Hand.n_cards self) new_idx) as [j|e2] eqn:Hj;
    [|rewrite H in H1; discriminate].
  rewrite H in H1. injection H1 as ->.
  pose proof (index_Ok_lt _ _ _ Hi) as Hi'. pose proof (index_Ok_lt _ _ _ Hj) as Hj'.
  unfold Hand.n_cards in *.
  pose proof (reorder_swaps_aux
                (Hand.make (Hand.id self) (swapped i j (Hand.cards self)))
                card_idx new_idx) as H2.
  unfold Hand.n_cards in H2. simpl in H2. rewrite length_swapped, Hi, Hj in H2.
  rewrite H2, swapped_twice by assumption. rewrite hand_eta. reflexivity.
Qed.

Lemma reorder_twice_witness :
  Hand.reorder (Hand.make 0 [7; 8; 6]%nat) 0 (-1) = Ok (Hand.make 0 [6; 8; 7]%nat).
Proof.
  apply (reorder_twice (Hand.make 0 [6; 8; 7]%nat) (Hand.make 0 [7; 8; 6]%nat) 0 (-1)).
  reflexivity.
Defined.

(** ** Delivering a clue to a hand *)

(** A loop whose body either leaves the heap alone or replaces one card
    [c] by [f c], for an idempotent [f]: it returns, and the cards some
    element aimed at have been replaced once. *)
Lemma for_each_updates {A} (target : A -> option nat) (f : Card.t -> Card.t)
    (P : Card.t -> Prop) (body : A -> M heap unit) (l : list A) :
  (forall c, P c -> P (f c)) ->
  (forall c, P c -> f (f c) = f c) ->
  (forall a h0, a ∈ l -> target a = None -> body a h0 = (Ok tt, h0)) ->
  (forall a h0 r c, a ∈ l -> target a = Some r -> h0 !! r = Some c -> P c ->
     body a h0 = (Ok tt, <[r := f c]> h0)) ->
  forall h,
    (forall a r, a ∈ l -> target a = Some r -> exists c, h !! r = Some c /\ P c) ->
    exists h',
      for_each l body h = (Ok tt, h')
      /\ forall r, h' !! r
           = (fun c => if existsb (fun a => bool_decide (target a = Some r)) l
                       then f c else c) <$> h !! r.
Proof.
  intros HP Hidem. induction l as [|a l IH]; intros Hnone Hsome h Hl.
  - exists h. split; [reflexivity|]. intros r. simpl.
    destruct (h !! r); reflexivity.
  - assert (IH' : forall h1,
        (forall a' r, a' ∈ l -> target a' = Some r -> exists c, h1 !! r = Some c /\ P c) ->
        exists h',
          for_each l body h1 = (Ok tt, h')
          /\ forall r, h' !! r
               = (fun c => if existsb (fun a => bool_decide (target a = Some r)) l
                           then f c else c) <$> h1 !! r).
    { apply IH.
      - intros a' h0 Ha'. apply Hnone. right. exact Ha'.
      - intros a' h0 r c Ha'. apply Hsome. right. exact Ha'. }
    clear IH. cbn [for_each existsb].
    destruct (target a) as [r0|] eqn:Ha.
    + destruct (Hl a r0 ltac:(left) Ha) as (c0 & Hc0 & HPc0).
      erewrite bind_ok by (apply (Hsome a h r0 c0 ltac:(left) Ha Hc0 HPc0)).
      destruct (IH' (<[r0 := f c0]> h)) as (h' & Hrun & Hh').
      { intros a' r Ha' Ht. destruct (decide (r = r0)) as [->|Hne].
        - exists (f c0). split; [|apply HP, HPc0].
          apply list_lookup_insert_eq. eapply lookup_lt_Some, Hc0.
        - rewrite list_lookup_insert_ne by congruence.
          apply (Hl a' r); [right; exact Ha'|exact Ht]. }
      exists h'. split; [exact Hrun|]. intros r. rewrite Hh'.
      destruct (decide (r = r0)) as [->|Hne].
      * rewrite list_lookup_insert_eq by (eapply lookup_lt_Some, Hc0).
        rewrite Hc0. simpl. rewrite bool_decide_eq_true_2 by reflexivity. simpl.
        destruct (existsb _ l); [rewrite Hidem by exact HPc0|]; reflexivity.
      * rewrite list_lookup_insert_ne by congruence.
        rewrite bool_decide_eq_false_2 by congruence. reflexivity.
    + erewrite bind_ok by (apply (Hnone a h ltac:(left) Ha)).
      destruct (IH' h) as (h' & Hrun & Hh').
      { intros a' r Ha' Ht. apply (Hl a' r); [right; exact Ha'|exact Ht]. }
      exists h'. split; [exact Hrun|]. intros r. rewrite Hh'.
      rewrite bool_decide_eq_false_2 by congruence. reflexivity.
Qed.

Lemma item_elem_of {A} (l : list A) (i : Z) (x : A) :
  Py.item l i = Ok x -> x ∈ l.
Proof.
  unfold Py.item. destruct (Py.index (length l) i) as [k|e]; simpl; [|discriminate].
  destruct (l !! k) as [y|] eqn:Hk; [|discriminate].
  intros [= <-]. eapply list_elem_of_lookup_2, Hk.
Qed.

Lemma card_add_information_conj r info h c :
  h !! r = Some c -> Np.shape 5 5 (Card.states c) -> valid_clue info = true ->
  card_add_information r info h
  = (Ok tt, <[r := Card.set_states (conj_mask (Card.states c) (clue_mask info)) c]> h).
Proof.
  intros Hr Hs Hv. unfold card_add_information.
  erewrite bind_ok by (unfold deref; rewrite Hr; reflexivity).
  erewrite bind_ok by (unfold lift; rewrite (add_information_conj _ _ Hs Hv); reflexivity).
  reflexivity.
Qed.

Lemma card_eta (c : Card.t) : Card.set_states (Card.states c) c = c.
Proof. destruct c. reflexivity. Qed.

(** X11: when every position in [card_index] resolves to a card that
    is not played, [Hand.add_information] returns and has given the
    clue to every addressed card, the negated clue to every card that
    is not played and sits at a position outside [card_index], and has
    left every other object as it was. *)
Theorem hand_add_information_delivers
    (self : Hand.t) (card_index : list Z) (info : Information.t) (h : heap) :
  valid_clue info = true ->
  (forall r, r ∈ Hand.cards self ->
     exists c, h !! r = Some c /\ Np.shape 5 5 (Card.states c)) ->
  (forall idx, idx ∈ card_index ->
     exists r c, Py.item (Hand.cards self) idx = Ok r /\ h !! r = Some c
                 /\ Card.played c = false) ->
  exists h',
    Hand.add_information self card_index info h = (Ok tt, h')
    /\ forall r c, h !! r = Some c ->
         h' !! r
         = Some (Card.set_states
                   (let m1 := if addressed self card_index r
                              then conj_mask (Card.states c) (clue_mask info)
                              else Card.states c in
                    if passed_over self card_index r && negb (Card.played c)
                    then conj_mask m1 (clue_mask (Information.negate info))
                    else m1)
                   c).
Proof.
  intros Hv Hhand Htargets.
  assert (Hv' : valid_clue (Information.negate info) = true) by exact Hv.
  set (f1 := fun c => Card.set_states (conj_mask (Card.states c) (clue_mask info)) c).
  set (f2 := fun c => if Card.played c then c
                      else Card.set_states
                             (conj_mask (Card.states c)
                                (clue_mask (Information.negate info))) c).
  destruct (for_each_updates (addressed_card self) f1
              (fun c => Card.played c = false /\ Np.shape 5 5 (Card.states c))
              (Hand.give_addressed self info) card_index) with (h := h)
    as (h1 & Hrun1 & Hh1).
  - intros c [Hp Hs]. split; [exact Hp|].
    apply (add_information_mask_conj info _ Hs Hv).
  - intros c [Hp Hs]. unfold f1, Card.set_states. simpl.
    rewrite conj_mask_twice. reflexivity.
  - intros idx h0 Hin Hnone. exfalso.
    destruct (Htargets idx Hin) as (r & c & Hitem & _).
    unfold addressed_card in Hnone. rewrite Hitem in Hnone. discriminate.
  - intros idx h0 r c Hin Ht Hr [Hp Hs].
    unfold addressed_card in Ht.
    destruct (Py.item (Hand.cards self) idx) as [r'|] eqn:Hitem; [|discriminate].
    injection Ht as ->. unfold Hand.give_addressed.
    erewrite bind_ok by (unfold lift; rewrite Hitem; reflexivity).
    erewrite bind_ok by (unfold deref; rewrite Hr; reflexivity).
    rewrite Hp. apply card_add_information_conj; assumption.
  - intros idx r Hin Ht.
    destruct (Htargets idx Hin) as (r' & c & Hitem & Hr & Hp).
    unfold addressed_card in Ht. rewrite Hitem in Ht. injection Ht as <-.
    exists c. split; [exact Hr|]. split; [exact Hp|].
    destruct (Hhand r') as (c' & Hr' & Hs); [eapply item_elem_of, Hitem|].
    congruence.
  - assert (Hshape1 : forall r, r ∈ Hand.cards self ->
              exists c, h1 !! r = Some c /\ Np.shape 5 5 (Card.states c)).
    { intros r Hr. destruct (Hhand r Hr) as (c & Hc & Hs).
      rewrite Hh1, Hc. simpl. eexists. split; [reflexivity|].
      destruct (existsb _ card_index); [|exact Hs].
      apply (add_information_mask_conj info _ Hs Hv). }
    destruct (for_each_updates (passed_over_card card_index) f2
                (fun c => Np.shape 5 5 (Card.states c))
                (Hand.give_other card_index info) (imap pair (Hand.cards self)))
      with (h := h1) as (h2 & Hrun2 & Hh2).
    + intros c Hs. unfold f2. destruct (Card.played c); [exact Hs|].
      apply (add_information_mask_conj _ _ Hs Hv').
    + intros c Hs. unfold f2. destruct (Card.played c) eqn:Hp; [rewrite Hp; reflexivity|].
      simpl. rewrite Hp. unfold Card.set_states. simpl.
      rewrite conj_mask_twice. reflexivity.
    + intros ir h0 _ Hnone. unfold passed_over_card in Hnone. unfold Hand.give_other.
      destruct (Py.contains card_index (Z.of_nat (fst ir))); [reflexivity|discriminate].
    + intros ir h0 r c _ Ht Hr Hs. unfold passed_over_card in Ht.
      unfold Hand.give_other.
      destruct (Py.contains card_index (Z.of_nat (fst ir))); [discriminate|].
      injection Ht as ->.
      erewrite bind_ok by (unfold deref; rewrite Hr; reflexivity).
      unfold f2. destruct (Card.played c).
      * rewrite list_insert_id by exact Hr. reflexivity.
      * apply card_add_information_conj; assumption.
    + intros ir r Hin Ht. apply Hshape1.
      unfold passed_over_card in Ht.
      destruct (Py.contains card_index (Z.of_nat (fst ir))); [discriminate|].
      injection Ht as <-.
      apply elem_of_lookup_imap in Hin as (i & x & -> & Hx). simpl.
      eapply list_elem_of_lookup_2, Hx.
    + exists h2. split.
      * unfold Hand.add_information. erewrite bind_ok by exact Hrun1. exact Hrun2.
      * intros r c Hc. rewrite Hh2, Hh1, Hc. simpl. f_equal.
        fold (addressed self card_index r). fold (passed_over self card_index r).
        unfold f1, f2.
        destruct (addressed self card_index r), (passed_over self card_index r),
          (Card.played c) eqn:Hp; simpl; rewrite ?Hp; simpl;
          rewrite ?card_eta; reflexivity.
Qed.

Lemma hand_add_information_delivers_witness :
  exists h',
    Hand.add_information (Hand.make 0 [0; 1]%nat) [1] (color_clue 2 false)
      [fresh_card 2 0 0; fresh_card 2 1 0] = (Ok tt, h')
    /\ forall r c, [fresh_card 2 0 0; fresh_card 2 1 0] !! r = Some c ->
         h' !! r
         = Some (Card.set_states
                   (let m1 := if addressed (Hand.make 0 [0; 1]%nat) [1] r
                              then conj_mask (Card.states c) (clue_mask (color_clue 2 false))
                              else Card.states c in
                    if passed_over (Hand.make 0 [0; 1]%nat) [1] r && negb (Card.played c)
                    then conj_mask m1 (clue_mask (Information.negate (color_clue 2 false)))
                    else m1)
                   c).
Proof.
  apply (hand_add_information_delivers (Hand.make 0 [0; 1]%nat) [1] (color_clue 2 false)
           [fresh_card 2 0 0; fresh_card 2 1 0]).
  - reflexivity.
  - intros r Hr. simpl in Hr.
    apply elem_of_cons in Hr as [->|Hr];
      [eexists; split; [reflexivity|apply shapeb_shape; reflexivity]|].
    apply list_elem_of_singleton in Hr as ->.
    eexists; split; [reflexivity|apply shapeb_shape; reflexivity].
  - intros idx Hidx. apply list_elem_of_singleton in Hidx as ->.
    exists 1%nat. eexists. split; [reflexivity|]. split; reflexivity.
Defined.

(** ** Playing a card *)

Lemma play_card_not_in_hand g player_id card c hand e :
  player_in_range g player_id = true ->
  Game.objects g !! card = Some c ->
  Game.players g !! Z.to_nat player_id = Some hand ->
  Hand.remove_card hand card = Raise e ->
  Game.play_card player_id card g
  = (Raise e, Game.set_objects (<[card := Card.set_played true c]> (Game.objects g)) g).
Proof.
  intros Hp Hc Hhand Hrem. unfold Game.play_card.
  erewrite bind_ok by reflexivity.
  erewrite bind_ok by (unfold lift; rewrite check_isin_players, Hp; reflexivity).
  apply player_in_range_spec in Hp.
  erewrite bind_ok by (eapply with_objects_deref; exact Hc).
  erewrite bind_ok by reflexivity.
  erewrite bind_ok; cycle 1.
  { unfold Game.eval. cbn [Game.players Game.set_objects].
    rewrite index_in_range by exact Hp. reflexivity. }
  erewrite bind_ok; cycle 1.
  { unfold Game.eval. cbn [Game.players Game.set_objects].
    rewrite <- (Z2Nat.id player_id) at 1 by lia.
    rewrite (item_nat _ _ _ Hhand). reflexivity. }
  erewrite bind_raise; [reflexivity|]. unfold lift. rewrite Hrem. reflexivity.
Qed.

Lemma play_card_success g player_id card c hand hand' st :
  Np.shape 5 5 st -> valid_card c -> length (Game.stacks g) = 5%nat ->
  player_in_range g player_id = true ->
  Game.objects g !! card = Some c ->
  Game.players g !! Z.to_nat player_id = Some hand ->
  Game.states g !! Z.to_nat player_id = Some st ->
  Hand.remove_card hand card = Ok hand' ->
  Game.play_card player_id card g
  = (Ok tt, scored c (played_state g (Z.to_nat player_id) card c hand' st)).
Proof.
  intros Hshape [Hcol Hval] Hstacks Hp Hc Hhand Hst Hrem. unfold Game.play_card.
  erewrite bind_ok by reflexivity.
  erewrite bind_ok by (unfold lift; rewrite check_isin_players, Hp; reflexivity).
  apply player_in_range_spec in Hp.
  erewrite bind_ok by (eapply with_objects_deref; exact Hc).
  erewrite bind_ok by reflexivity.
  erewrite bind_ok; cycle 1.
  { unfold Game.eval. cbn [Game.players Game.set_objects].
    rewrite index_in_range by exact Hp. reflexivity. }
  erewrite bind_ok; cycle 1.
  { unfold Game.eval. cbn [Game.players Game.set_objects].
    rewrite <- (Z2Nat.id player_id) at 1 by lia.
    rewrite (item_nat _ _ _ Hhand). reflexivity. }
  erewrite bind_ok by (unfold lift; rewrite Hrem; reflexivity).
  erewrite bind_ok by reflexivity.
  assert (Hp' : 0 <= player_id < Z.of_nat (length (Game.states g))).
  { apply lookup_lt_Some in Hst. lia. }
  erewrite bind_ok; cycle 1.
  { unfold Game.eval. cbn [Game.states Game.set_objects Game.set_players].
    rewrite index_in_range by exact Hp'. reflexivity. }
  erewrite bind_ok; cycle 1.
  { unfold Game.eval. cbn [Game.states Game.set_objects Game.set_players].
    rewrite <- (Z2Nat.id player_id) at 1 by lia.
    rewrite (item_nat _ _ _ Hst). reflexivity. }
  erewrite bind_ok by (unfold lift; rewrite (decr_in_range _ _ _ Hshape Hcol Hval); reflexivity).
  erewrite bind_ok by reflexivity.
  destruct (lookup_lt_is_Some_2 (Game.stacks g) (Z.to_nat (Card.color c)) ltac:(lia))
    as [top Htop].
  erewrite bind_ok; cycle 1.
  { unfold Game.eval.
    cbn [Game.stacks Game.set_objects Game.set_players Game.set_states].
    rewrite index_in_range by lia. reflexivity. }
  erewrite bind_ok; cycle 1.
  { unfold Game.eval.
    cbn [Game.stacks Game.set_objects Game.set_players Game.set_states].
    rewrite <- (Z2Nat.id (Card.color c)) at 1 by lia.
    rewrite (item_nat _ _ _ Htop). reflexivity. }
  unfold scored, played_state. cbn [Game.stacks]. rewrite Htop.
  destruct (top =? Card.value c); reflexivity.
Qed.

(** ** Book-keeping *)

Lemma in_hands_insert (l : list Hand.t) (k : nat) (hand hand' : Hand.t) :
  l !! k = Some hand ->
  foldr Z.add 0 ((fun hand => Z.of_nat (length (Hand.cards hand))) <$> <[k := hand']> l)
  = foldr Z.add 0 ((fun hand => Z.of_nat (length (Hand.cards hand))) <$> l)
    - Z.of_nat (length (Hand.cards hand)) + Z.of_nat (length (Hand.cards hand')).
Proof.
  intros Hk. rewrite list_fmap_insert.
  apply sum_row_insert. rewrite list_lookup_fmap, Hk. reflexivity.
Qed.

Lemma in_hands_snoc (l : list Hand.t) (hand : Hand.t) :
  foldr Z.add 0 ((fun hand => Z.of_nat (length (Hand.cards hand))) <$> (l ++ [hand]))
  = foldr Z.add 0 ((fun hand => Z.of_nat (length (Hand.cards hand))) <$> l)
    + Z.of_nat (length (Hand.cards hand)).
Proof.
  induction l as [|x l IH]; simpl; [lia|].
  change (foldr Z.add 0 (list_fmap _ _ ?f (l ++ [hand])))
    with (foldr Z.add 0 (f <$> (l ++ [hand]))).
  rewrite IH. unfold fmap. lia.
Qed.

Lemma remove_length (x : nat) (l l' : list nat) :
  Py.remove x l = Ok l' -> length l = S (length l').
Proof.
  revert l'. induction l as [|y l IH]; intros l' H; simpl in H; [discriminate|].
  destruct (Nat.eqb x y).
  - injection H as <-. reflexivity.
  - destruct (Py.remove x l) as [l0|]; simpl in H; [|discriminate].
    injection H as <-. simpl. rewrite (IH l0 eq_refl). reflexivity.
Qed.

Lemma accounted_same_books g g' :
  Game.deck g' = Game.deck g -> Game.players g' = Game.players g ->
  Game.stacks g' = Game.stacks g -> Game.score g' = Game.score g ->
  Game.penalty g' = Game.penalty g ->
  accounted g -> accounted g'.
Proof.
  intros E1 E2 E3 E4 E5 [H1 H2 H3 H4 H5 H6].
  split; unfold in_hands in *; rewrite ?E1, ?E2, ?E3, ?E4, ?E5; assumption.
Qed.

Lemma initial_accounted : accounted Game.initial.
Proof.
  split; simpl; try reflexivity; try lia.
  - repeat constructor; lia.
  - intros p hand Hp. destruct p; discriminate.
Qed.

Lemma new_card_accounted color value hand g :
  accounted g -> accounted (snd (Game.new_card color value hand g)).
Proof.
  intros Hg. unfold Game.new_card, bind, lift.
  destruct (Card_init color value hand) as [c|e]; simpl; [|exact Hg].
  eapply accounted_same_books; [..|exact Hg]; reflexivity.
Qed.

Lemma add_player_accounted g :
  accounted g -> accounted (snd (Game.add_player g)).
Proof.
  intros [H1 H2 H3 H4 H5 H6]. unfold Game.add_player, modify.
  split; simpl; try assumption.
  - unfold in_hands in *. simpl. rewrite in_hands_snoc. simpl. lia.
  - intros p hand Hp. apply lookup_snoc_Some in Hp as [[_ Hp]|[-> <-]].
    + apply H6, Hp.
    + reflexivity.
Qed.

Lemma dealt_accounted g card game_start c hand :
  consistent g -> accounted g ->
  Game.objects g !! card = Some c ->
  Game.players g !! Z.to_nat (Card.player_id c) = Some hand ->
  at_ 0 (Game.deck g) (Z.to_nat (Card.color c)) (Z.to_nat (Card.value c)) <> 0 ->
  accounted (dealt g card game_start c hand).
Proof.
  intros Hg [H1 H2 H3 H4 H5 H6] Hc Hhand Hd.
  pose proof (Forall_lookup_1 _ _ _ _ (cons_cards g Hg) Hc) as [Hcol Hval].
  assert (Hi : (Z.to_nat (Card.color c) < 5)%nat) by lia.
  assert (Hj : (Z.to_nat (Card.value c) < 5)%nat) by lia.
  pose proof (cons_deck_bounds g Hg _ _ Hi Hj) as Hdeck.
  pose proof (init_array_bounds _ _ Hi Hj) as Hinit.
  unfold dealt. split; cbn [Game.stacks Game.score Game.penalty Game.deck Game.players];
    try assumption.
  - unfold in_hands in *. cbn [Game.players].
    rewrite (in_hands_insert _ _ _ _ Hhand). cbn [Hand.cards].
    rewrite length_app. simpl.
    rewrite (sum_set _ _ _ (at_ 0 (Game.deck g) (Z.to_nat (Card.color c))
                               (Z.to_nat (Card.value c))))
      by (eapply at_cell; [apply (cons_deck_shape g Hg)|lia|lia]).
    rewrite wrap32_small by lia. lia.
  - intros p hand0 Hp.
    destruct (decide (p = Z.to_nat (Card.player_id c))) as [->|Hne].
    + rewrite list_lookup_insert_eq in Hp by (eapply lookup_lt_Some; exact Hhand).
      injection Hp as <-. simpl. apply H6, Hhand.
    + rewrite list_lookup_insert_ne in Hp by congruence. apply H6, Hp.
Qed.

(** What [deal_card] can do. *)
Lemma deal_card_cases card game_start g :
  consistent g ->
  (exists e, Game.deal_card card game_start g = (Raise e, g))
  \/ exists c hand,
       Game.objects g !! card = Some c
       /\ player_in_range g (Card.player_id c) = true
       /\ Game.players g !! Z.to_nat (Card.player_id c) = Some hand
       /\ at_ 0 (Game.deck g) (Z.to_nat (Card.color c)) (Z.to_nat (Card.value c)) <> 0
       /\ Game.deal_card card game_start g = (Ok tt, dealt g card game_start c hand).
Proof.
  intros Hg.
  destruct (Game.objects g !! card) as [c|] eqn:Hc.
  - pose proof (Forall_lookup_1 _ _ _ _ (cons_cards g Hg) Hc) as Hvalid.
    destruct (player_in_range g (Card.player_id c)) eqn:Hp.
    + destruct (decide (at_ 0 (Game.deck g) (Z.to_nat (Card.color c))
                              (Z.to_nat (Card.value c)) = 0)) as [Hd|Hd].
      * left. exists ValueError.
        apply (deal_card_not_in_deck g card game_start c); try assumption.
        apply (cons_deck_shape g Hg).
      * right. destruct (deal_card_success g card game_start c) as (hand & Hhand & Hrun);
          try assumption.
        -- apply (cons_deck_shape g Hg).
        -- apply (cons_states_shape g Hg).
        -- exists c, hand. auto.
    + left. exists ValueError.
      apply (deal_card_out_of_range g card game_start c); assumption.
  - left. exists ValueError. unfold Game.deal_card.
    erewrite bind_raise; [reflexivity|].
    unfold Game.with_objects, check_iscard. rewrite Hc, set_objects_same. reflexivity.
Qed.

Lemma deal_card_accounted card game_start g :
  consistent g -> accounted g -> accounted (snd (Game.deal_card card game_start g)).
Proof.
  intros Hg Ha.
  destruct (deal_card_cases card game_start g Hg)
    as [[e ->]|(c & hand & Hc & _ & Hhand & Hd & ->)]; [exact Ha|].
  simpl. apply dealt_accounted; assumption.
Qed.

(** What [play_card] can leave behind. *)
Lemma play_card_cases player_id card g :
  consistent g -> length (Game.stacks g) = 5%nat ->
  snd (Game.play_card player_id card g) = g
  \/ (exists c hand e,
        player_in_range g player_id = true
        /\ Game.objects g !! card = Some c
        /\ Game.players g !! Z.to_nat player_id = Some hand
        /\ Hand.remove_card hand card = Raise e
        /\ Game.play_card player_id card g
           = (Raise e,
              Game.set_objects (<[card := Card.set_played true c]> (Game.objects g)) g))
  \/ (exists c hand hand' st,
        player_in_range g player_id = true
        /\ Game.objects g !! card = Some c
        /\ Game.players g !! Z.to_nat player_id = Some hand
        /\ Game.states g !! Z.to_nat player_id = Some st
        /\ Hand.remove_card hand card = Ok hand'
        /\ Game.play_card player_id card g
           = (Ok tt, scored c (played_state g (Z.to_nat player_id) card c hand' st))).
Proof.
  intros Hg Hstacks.
  destruct (player_in_range g player_id) eqn:Hp; cycle 1.
  { left. unfold Game.play_card. erewrite bind_ok by reflexivity.
    erewrite bind_raise; [reflexivity|].
    unfold lift. rewrite check_isin_players, Hp. reflexivity. }
  destruct (Game.objects g !! card) as [c|] eqn:Hc; cycle 1.
  { left. unfold Game.play_card. erewrite bind_ok by reflexivity.
    erewrite bind_ok by (unfold lift; rewrite check_isin_players, Hp; reflexivity).
    erewrite bind_raise; [reflexivity|].
    unfold Game.with_objects, deref. rewrite Hc, set_objects_same. reflexivity. }
  apply player_in_range_spec in Hp as Hrange.
  destruct (item_in_range (Game.players g) _ Hrange) as (hand & Hhand & _).
  assert (Hrange' : 0 <= player_id < Z.of_nat (length (Game.states g))).
  { rewrite (cons_len g Hg). exact Hrange. }
  destruct (item_in_range (Game.states g) _ Hrange') as (st & Hst & _).
  destruct (Hand.remove_card hand card) as [hand'|e] eqn:Hrem.
  - right. right. exists c, hand, hand', st.
    repeat (split; [first [assumption|reflexivity]|]).
    apply (play_card_success g player_id card c hand hand' st); try assumption.
    + exact (Forall_lookup_1 _ _ _ _ (cons_states_shape g Hg) Hst).
    + exact (Forall_lookup_1 _ _ _ _ (cons_cards g Hg) Hc).
  - right. left. exists c, hand, e.
    repeat (split; [first [assumption|reflexivity]|]).
    apply (play_card_not_in_hand g player_id card c hand e); assumption.
Qed.

Lemma scored_accounted g k card c hand hand' st :
  consistent g -> accounted g ->
  Game.objects g !! card = Some c ->
  Game.players g !! k = Some hand ->
  Hand.remove_card hand card = Ok hand' ->
  accounted (scored c (played_state g k card c hand' st)).
Proof.
  intros Hg [H1 H2 H3 H4 H5 H6] Hc Hhand Hrem.
  pose proof (Forall_lookup_1 _ _ _ _ (cons_cards g Hg) Hc) as [Hcol Hval].
  unfold Hand.remove_card in Hrem.
  destruct (Py.remove card (Hand.cards hand)) as [l|] eqn:Hl; simpl in Hrem; [|discriminate].
  injection Hrem as <-.
  pose proof (remove_length _ _ _ Hl) as Hlen.
  assert (Hhands : in_hands (played_state g k card c (Hand.make (Hand.id hand) l) st)
                   = in_hands g - 1).
  { unfold in_hands, played_state. cbn [Game.players].
    rewrite (in_hands_insert _ _ _ _ Hhand). simpl. lia. }
  assert (Hids : forall p hand0,
            <[k := Hand.make (Hand.id hand) l]> (Game.players g) !! p = Some hand0 ->
            Hand.id hand0 = Z.of_nat p).
  { intros p hand0 Hp. destruct (decide (p = k)) as [->|Hne].
    - rewrite list_lookup_insert_eq in Hp by (eapply lookup_lt_Some; exact Hhand).
      injection Hp as <-. simpl. apply H6, Hhand.
    - rewrite list_lookup_insert_ne in Hp by congruence. apply H6, Hp. }
  unfold scored. cbn [Game.stacks played_state].
  destruct (Game.stacks g !! Z.to_nat (Card.color c)) as [top|] eqn:Htop.
  - pose proof (Forall_lookup_1 _ _ _ _ H2 Htop) as Hrange. simpl in Hrange.
    destruct (top =? Card.value c) eqn:E.
    + apply Z.eqb_eq in E.
      split; cbn [Game.stacks Game.score Game.penalty Game.deck Game.players
                  Game.set_score Game.set_stacks played_state];
        unfold in_hands in *; cbn [Game.players Game.set_score Game.set_stacks played_state].
      * rewrite length_insert. exact H1.
      * apply Forall_insert; [exact H2|]. lia.
      * rewrite (sum_row_insert _ _ _ _ Htop). lia.
      * exact H4.
      * cbn [Game.players played_state] in Hhands. rewrite Hhands. lia.
      * exact Hids.
    + split; cbn [Game.stacks Game.score Game.penalty Game.deck Game.players
                  Game.set_penalty played_state];
        unfold in_hands in *; cbn [Game.players Game.set_penalty played_state];
        try assumption.
      * lia.
      * cbn [Game.players played_state] in Hhands. rewrite Hhands. lia.
  - apply lookup_ge_None in Htop. lia.
Qed.

Lemma play_card_accounted player_id card g :
  consistent g -> accounted g -> accounted (snd (Game.play_card player_id card g)).
Proof.
  intros Hg Ha.
  destruct (play_card_cases player_id card g Hg (acc_stacks_len g Ha))
    as [->|[(c & hand & e & _ & _ & _ & _ & ->)
           |(c & hand & hand' & st & _ & Hc & Hhand & _ & Hrem & ->)]].
  - exact Ha.
  - simpl. eapply accounted_same_books; [..|exact Ha]; reflexivity.
  - simpl. eapply scored_accounted; eassumption.
Qed.

Lemma give_information_accounted player_id card_index info g :
  accounted g -> accounted (snd (Game.give_information player_id card_index info g)).
Proof.
  intros Ha. unfold Game.give_information, bind, Game.eval.
  destruct (Py.item (Game.players g) player_id) as [hand|e]; simpl; [|exact Ha].
  rewrite with_objects_snd.
  eapply accounted_same_books; [..|exact Ha]; reflexivity.
Qed.

Lemma keeps_books_refl g : keeps_books g g.
Proof. intros H. exact H. Qed.

Lemma keeps_books_trans g1 g2 g3 :
  keeps_books g1 g2 -> keeps_books g2 g3 -> keeps_books g1 g3.
Proof. intros H12 H23 H. auto. Qed.

Lemma deal_hand_keeps_books player_id samples game_start g :
  keeps_books g (snd (Game.deal_hand player_id samples game_start g)).
Proof.
  unfold Game.deal_hand.
  apply bind_keeps; [apply keeps_books_trans|apply keeps_books_refl|]. intros n g1.
  apply bind_keeps; [apply keeps_books_trans|apply keeps_books_refl|]. intros _ g2.
  apply (for_each_keeps keeps_books); [apply keeps_books_refl|apply keeps_books_trans|].
  intros sample g3 _.
  apply bind_keeps; [apply keeps_books_trans| |].
  - unfold Game.random_card.
    apply bind_keeps; [apply keeps_books_trans|apply keeps_books_refl|]. intros s0 g4.
    destruct (s0 =? 0); [apply keeps_books_refl|].
    apply bind_keeps; [apply keeps_books_trans|apply keeps_books_refl|].
    intros hand g5 [Hg Ha]. split.
    + apply new_card_consistent, Hg.
    + apply new_card_accounted, Ha.
  - intros card g4 [Hg Ha]. split.
    + apply deal_card_consistent, Hg.
    + apply deal_card_accounted; assumption.
Qed.

Lemma run_accounted c g :
  consistent g -> accounted g -> accounted (snd (run c g)).
Proof.
  intros Hg Ha. destruct c; simpl.
  - unfold bind. pose proof (new_card_accounted color value hand g Ha) as H.
    destruct (Game.new_card color value hand g) as [[r|e] g']; exact H.
  - apply add_player_accounted, Ha.
  - apply deal_card_accounted; assumption.
  - apply (deal_hand_keeps_books player_id samples game_start g). split; assumption.
  - apply play_card_accounted; assumption.
  - apply give_information_accounted, Ha.
Qed.

Lemma reachable_accounted g : reachable g -> accounted g.
Proof.
  induction 1 as [|g c Hr IH]; [apply initial_accounted|].
  apply run_accounted; [apply reachable_consistent, Hr|exact IH].
Qed.

Lemma stacks_sum_bounds (l : list Z) :
  Forall (fun x => 0 <= x <= 5) l ->
  0 <= foldr Z.add 0 l <= 5 * Z.of_nat (length l).
Proof.
  induction 1 as [|x l Hx _ IH]; simpl; lia.
Qed.

(** X12: in every reachable state there are five stacks, each between
    0 and 5, the score is their sum (so at most 25) and the penalty is
    not negative. *)
Theorem score_is_sum_of_stacks (g : Game.t) :
  reachable g ->
  length (Game.stacks g) = 5%nat
  /\ Forall (fun x => 0 <= x <= 5) (Game.stacks g)
  /\ Game.score g = foldr Z.add 0 (Game.stacks g)
  /\ 0 <= Game.score g <= 25
  /\ 0 <= Game.penalty g.
Proof.
  intros Hr. destruct (reachable_accounted g Hr) as [H1 H2 H3 H4 _ _].
  pose proof (stacks_sum_bounds _ H2) as Hb. rewrite H1 in Hb.
  repeat split; try assumption; rewrite H3; lia.
Qed.

Lemma score_is_sum_of_stacks_witness :
  length (Game.stacks (run_all played_in_hand_script Game.initial)) = 5%nat
  /\ Forall (fun x => 0 <= x <= 5) (Game.stacks (run_all played_in_hand_script Game.initial))
  /\ Game.score (run_all played_in_hand_script Game.initial)
     = foldr Z.add 0 (Game.stacks (run_all played_in_hand_script Game.initial))
  /\ 0 <= Game.score (run_all played_in_hand_script Game.initial) <= 25
  /\ 0 <= Game.penalty (run_all played_in_hand_script Game.initial).
Proof.
  apply (score_is_sum_of_stacks (run_all played_in_hand_script Game.initial)).
  apply run_all_reachable. constructor.
Defined.

(** X13: no card is lost or made: in every reachable state the cards
    left in the deck, the cards in the hands, the score and the penalty
    add up to the fifty cards of the initial deck. *)
Theorem fifty_cards (g : Game.t) :
  reachable g ->
  Np.sum (Game.deck g) + in_hands g + Game.score g + Game.penalty g = 50.
Proof.
  intros Hr. apply (acc_cards g (reachable_accounted g Hr)).
Qed.

Lemma fifty_cards_witness :
  Np.sum (Game.deck (run_all played_in_hand_script Game.initial))
  + in_hands (run_all played_in_hand_script Game.initial)
  + Game.score (run_all played_in_hand_script Game.initial)
  + Game.penalty (run_all played_in_hand_script Game.initial) = 50.
Proof.
  apply (fifty_cards (run_all played_in_hand_script Game.initial)).
  apply run_all_reachable. constructor.
Defined.

(** X14: in every reachable state there is one matrix per player and
    the hand at position [p] has id [p]. *)
Theorem hands_know_their_position (g : Game.t) :
  reachable g ->
  length (Game.states g) = length (Game.players g)
  /\ forall p hand, Game.players g !! p = Some hand -> Hand.id hand = Z.of_nat p.
Proof.
  intros Hr. split.
  - apply (cons_len g (reachable_consistent g Hr)).
  - apply (acc_ids g (reachable_accounted g Hr)).
Qed.

Lemma hands_know_their_position_witness :
  length (Game.states (run_all same_identity_script Game.initial))
  = length (Game.players (run_all same_identity_script Game.initial))
  /\ forall p hand,
       Game.players (run_all same_identity_script Game.initial) !! p = Some hand ->
       Hand.id hand = Z.of_nat p.
Proof.
  apply (hands_know_their_position (run_all same_identity_script Game.initial)).
  apply run_all_reachable. constructor.
Defined.

(** X15: in every reachable state the deck and the players' matrices
    are 5 x 5, no deck count is negative or above the initial count,
    and no count of a player's matrix is negative or above 3: the
    int32 arithmetic never wraps. *)
Theorem counts_stay_in_range (g : Game.t) :
  reachable g ->
  Np.shape 5 5 (Game.deck g)
  /\ Forall (Np.shape 5 5) (Game.states g)
  /\ forall i j, (i < 5)%nat -> (j < 5)%nat ->
       0 <= at_ 0 (Game.deck g) i j <= at_ 0 INIT_ARRAY i j
       /\ forall p st, Game.states g !! p = Some st -> 0 <= at_ 0 st i j <= 3.
Proof.
  intros Hr. pose proof (reachable_consistent g Hr) as Hg.
  split; [apply (cons_deck_shape g Hg)|]. split; [apply (cons_states_shape g Hg)|].
  intros i j Hi Hj. pose proof (cons_deck_bounds g Hg i j Hi Hj) as Hd.
  split; [exact Hd|]. intros p st Hst.
  destruct (lookup_lt_is_Some_2 (Game.players g) p) as [hand Hhand].
  { rewrite <- (cons_len g Hg). eapply lookup_lt_Some, Hst. }
  pose proof (cons_states g Hg _ _ _ i j Hhand Hst Hi Hj).
  pose proof (held_nonneg (Game.objects g) (Hand.cards hand) i j). lia.
Qed.

Lemma counts_stay_in_range_witness :
  Np.shape 5 5 (Game.deck (run_all narrowed_script Game.initial))
  /\ Forall (Np.shape 5 5) (Game.states (run_all narrowed_script Game.initial))
  /\ forall i j, (i < 5)%nat -> (j < 5)%nat ->
       0 <= at_ 0 (Game.deck (run_all narrowed_script Game.initial)) i j
         <= at_ 0 INIT_ARRAY i j
       /\ forall p st, Game.states (run_all narrowed_script Game.initial) !! p = Some st ->
            0 <= at_ 0 st i j <= 3.
Proof.
  apply (counts_stay_in_range (run_all narrowed_script Game.initial)).
  apply run_all_reachable. constructor.
Defined.

(** X16: [play_card] marks the card as played before it looks for it
    in the hand: for a card that is not in that player's hand the call
    raises [ValueError], and the card is left marked as played while
    nothing else has changed. *)
Theorem play_card_marks_first
    (g : Game.t) (player_id : Z) (card : nat) (c : Card.t) (hand : Hand.t) :
  0 <= player_id < Z.of_nat (length (Game.players g)) ->
  Game.objects g !! card = Some c ->
  Game.players g !! Z.to_nat player_id = Some hand ->
  card ∉ Hand.cards hand ->
  Game.play_card player_id card g
  = (Raise ValueError,
     Game.set_objects (<[card := Card.set_played true c]> (Game.objects g)) g).
Proof.
  intros Hp Hc Hhand Hnot.
  apply (play_card_not_in_hand g player_id card c hand ValueError); try assumption.
  - apply player_in_range_spec, Hp.
  - unfold Hand.remove_card. rewrite (remove_absent _ _ Hnot). reflexivity.
Qed.

Lemma play_card_marks_first_witness :
  Game.play_card 1 0 (run_all same_identity_script Game.initial)
  = (Raise ValueError,
     Game.set_objects
       (<[0%nat := Card.set_played true (fresh_card 0 0 0)]>
          (Game.objects (run_all same_identity_script Game.initial)))
       (run_all same_identity_script Game.initial)).
Proof.
  apply (play_card_marks_first (run_all same_identity_script Game.initial) 1 0
           (fresh_card 0 0 0) (Hand.make 1 [1%nat])).
  - vm_compute. split; [discriminate|reflexivity].
  - reflexivity.
  - reflexivity.
  - intros H. apply list_elem_of_singleton in H. discriminate.
Defined.

(** X17: [give_information] changes belief masks and nothing else:
    whether it returns or raises, the deck, the matrices, the hands,
    the stacks, the score and the penalty are as before, and so are
    the colour, value, owner, played flag and sibling snapshot of
    every card. *)
Theorem give_information_only_masks
    (g : Game.t) (player_id : Z) (card_index : list Z) (info : Information.t) :
  exists h',
    snd (Game.give_information player_id card_index info g) = Game.set_objects h' g
    /\ same_but_masks (Game.objects g) h'.
Proof.
  unfold Game.give_information, bind, Game.eval.
  destruct (Py.item (Game.players g) player_id) as [hand|e]; simpl.
  - rewrite with_objects_snd. eexists. split; [reflexivity|].
    apply hand_add_information_changes.
  - exists (Game.objects g). split; [symmetry; apply set_objects_same|].
    apply same_but_masks_refl.
Qed.

Lemma scored_core c g :
  Game.objects (scored c g) = Game.objects g
  /\ Game.deck (scored c g) = Game.deck g
  /\ Game.states (scored c g) = Game.states g
  /\ Game.players (scored c g) = Game.players g.
Proof.
  unfold scored. destruct (Game.stacks g !! Z.to_nat (Card.color c)) as [top|]; [|auto].
  destruct (top =? Card.value c); auto.
Qed.

(** X18: in a reachable state, playing a card that is in the hand of
    the player named returns.  The card is marked as played, its first
    occurrence leaves the hand, the deck and the other players'
    matrices do not change, the player's own matrix counts one card
    less of that identity, and either the card is the one its colour's
    stack expects, and that stack and the score go up by one, or the
    penalty goes up by one. *)
Theorem play_card_effect
    (g : Game.t) (player_id : Z) (card : nat) (c : Card.t) (hand hand' : Hand.t) :
  reachable g ->
  0 <= player_id < Z.of_nat (length (Game.players g)) ->
  Game.objects g !! card = Some c ->
  Game.players g !! Z.to_nat player_id = Some hand ->
  Hand.remove_card hand card = Ok hand' ->
  let k := Z.to_nat player_id in
  let i := Z.to_nat (Card.color c) in
  let j := Z.to_nat (Card.value c) in
  exists g',
    Game.play_card player_id card g = (Ok tt, g')
    /\ Game.objects g' = <[card := Card.set_played true c]> (Game.objects g)
    /\ Game.players g' = <[k := hand']> (Game.players g)
    /\ Game.deck g' = Game.deck g
    /\ (exists st st',
          Game.states g !! k = Some st /\ Game.states g' !! k = Some st'
          /\ at_ 0 st' i j = at_ 0 st i j - 1
          /\ forall i' j', (i', j') <> (i, j) -> at_ 0 st' i' j' = at_ 0 st i' j')
    /\ (forall p, p <> k -> Game.states g' !! p = Game.states g !! p)
    /\ exists top,
         Game.stacks g !! i = Some top
         /\ if top =? Card.value c
            then Game.stacks g' = <[i := top + 1]> (Game.stacks g)
                 /\ Game.score g' = Game.score g + 1
                 /\ Game.penalty g' = Game.penalty g
            else Game.stacks g' = Game.stacks g
                 /\ Game.score g' = Game.score g
                 /\ Game.penalty g' = Game.penalty g + 1.
Proof.
  intros Hr Hp Hc Hhand Hrem k i j.
  pose proof (reachable_consistent g Hr) as Hg.
  pose proof (reachable_accounted g Hr) as Ha.
  pose proof (Forall_lookup_1 _ _ _ _ (cons_cards g Hg) Hc) as Hvalid.
  pose proof Hvalid as [Hcol Hval].
  assert (Hi : (i < 5)%nat) by (subst i; lia).
  assert (Hj : (j < 5)%nat) by (subst j; lia).
  destruct (lookup_lt_is_Some_2 (Game.states g) k) as [st Hst].
  { rewrite (cons_len g Hg). subst k. lia. }
  pose proof (Forall_lookup_1 _ _ _ _ (cons_states_shape g Hg) Hst) as Hshape.
  simpl in Hshape.
  destruct (lookup_lt_is_Some_2 (Game.stacks g) i) as [top Htop].
  { rewrite (acc_stacks_len g Ha). exact Hi. }
  eexists. split.
  { apply (play_card_success g player_id card c hand hand' st); try assumption.
    - apply (acc_stacks_len g Ha).
    - apply player_in_range_spec, Hp. }
  destruct (scored_core c (played_state g k card c hand' st)) as (E1 & E2 & E3 & E4).
  fold k. rewrite E1, E2, E3, E4.
  split; [reflexivity|]. split; [reflexivity|]. split; [reflexivity|].
  split; [|split].
  - exists st. eexists. split; [exact Hst|]. unfold played_state. cbn [Game.states].
    split; [apply list_lookup_insert_eq; eapply lookup_lt_Some, Hst|].
    fold i j.
    assert (Hone : 1 <= at_ 0 st i j <= 3).
    { pose proof (cons_states g Hg _ _ _ i j Hhand Hst Hi Hj) as Hb.
      unfold Hand.remove_card in Hrem.
      destruct (Py.remove card (Hand.cards hand)) as [l|] eqn:Hl; [|discriminate].
      rewrite (held_remove _ _ _ _ i j Hl) in Hb.
      rewrite (is_identity_of _ _ _ _ _ Hc Hvalid) in Hb.
      rewrite bool_decide_eq_true_2 in Hb by (subst i j; auto).
      pose proof (held_nonneg (Game.objects g) l i j).
      pose proof (cons_deck_bounds g Hg i j Hi Hj). lia. }
    split.
    + rewrite at_set by (eapply shape_cell; eassumption).
      rewrite decide_True by auto. apply wrap32_small. lia.
    + intros i' j' Hne. rewrite at_set by (eapply shape_cell; eassumption).
      rewrite decide_False; [reflexivity|]. intros [-> ->]. congruence.
  - intros p Hne. unfold played_state. cbn [Game.states].
    apply list_lookup_insert_ne. congruence.
  - exists top. split; [exact Htop|].
    unfold scored. cbn [Game.stacks played_state]. fold i. rewrite Htop.
    destruct (top =? Card.value c); repeat split; reflexivity.
Qed.

Lemma play_card_effect_witness :
  exists g',
    Game.play_card 0 0 (run_all same_identity_script Game.initial) = (Ok tt, g')
    /\ Game.score g' = Game.score (run_all same_identity_script Game.initial) + 1.
Proof.
  destruct (play_card_effect (run_all same_identity_script Game.initial) 0 0
              (fresh_card 0 0 0) (Hand.make 0 [0%nat]) (Hand.make 0 []))
    as (g' & Hrun & _ & _ & _ & _ & _ & top & Htop & Hif).
  - apply run_all_reachable. constructor.
  - vm_compute. split; [discriminate|reflexivity].
  - reflexivity.
  - reflexivity.
  - reflexivity.
  - exists g'. split; [exact Hrun|].
    vm_compute in Htop. injection Htop as <-. simpl in Hif. apply Hif.
Defined.

(** ** Dealing a hand *)

Lemma random_card_Ok player_id sample g card g1 :
  Game.random_card player_id sample g = (Ok card, g1) ->
  exists hand c,
    Py.item (Game.players g) player_id = Ok hand
    /\ Card_init (sample / 5) (sample mod 5) hand = Ok c
    /\ card = length (Game.objects g)
    /\ g1 = Game.set_objects (Game.objects g ++ [c]) g.
Proof.
  unfold Game.random_card, Game.new_card, bind, gets, Game.eval, lift, raise.
  destruct (Np.sum (Game.deck g) =? 0); [discriminate|].
  destruct (Py.item (Game.players g) player_id) as [hand|]; [|discriminate].
  destruct (Card_init (sample / 5) (sample mod 5) hand) as [c|] eqn:Hc; [|discriminate].
  intros [= <- <-]. exists hand, c. auto.
Qed.

Lemma card_init_player color value hand c :
  Card_init color value hand = Ok c -> Card.player_id c = Hand.id hand.
Proof.
  unfold Card_init.
  destruct (check_isin color (0, 5)); simpl; [|discriminate].
  destruct (check_isin value (0, 5)); simpl; [|discriminate].
  intros [= <-]. reflexivity.
Qed.

Lemma dealt_sum g card game_start c hand :
  consistent g ->
  Game.objects g !! card = Some c ->
  at_ 0 (Game.deck g) (Z.to_nat (Card.color c)) (Z.to_nat (Card.value c)) <> 0 ->
  Np.sum (Game.deck (dealt g card game_start c hand)) = Np.sum (Game.deck g) - 1.
Proof.
  intros Hg Hc Hd.
  pose proof (Forall_lookup_1 _ _ _ _ (cons_cards g Hg) Hc) as [Hcol Hval].
  assert (Hi : (Z.to_nat (Card.color c) < 5)%nat) by lia.
  assert (Hj : (Z.to_nat (Card.value c) < 5)%nat) by lia.
  pose proof (cons_deck_bounds g Hg _ _ Hi Hj) as Hdeck.
  pose proof (init_array_bounds _ _ Hi Hj) as Hinit.
  unfold dealt. cbn [Game.deck].
  rewrite (sum_set _ _ _ (at_ 0 (Game.deck g) (Z.to_nat (Card.color c))
                             (Z.to_nat (Card.value c))))
    by (eapply at_cell; [apply (cons_deck_shape g Hg)|lia|lia]).
  rewrite wrap32_small by lia. lia.
Qed.

Lemma deal_hand_loop player_id game_start samples :
  forall g g',
    consistent g -> accounted g ->
    0 <= player_id < Z.of_nat (length (Game.players g)) ->
    for_each samples (fun sample =>
      let! card := Game.random_card player_id sample in
      Game.deal_card card game_start) g = (Ok tt, g') ->
    Np.sum (Game.deck g') = Np.sum (Game.deck g) - Z.of_nat (length samples)
    /\ length (Game.players g') = length (Game.players g)
    /\ (forall p, p <> Z.to_nat player_id -> Game.players g' !! p = Game.players g !! p)
    /\ forall hand, Game.players g !! Z.to_nat player_id = Some hand ->
         exists new,
           Game.players g' !! Z.to_nat player_id
           = Some (Hand.make (Hand.id hand) (Hand.cards hand ++ new))
           /\ length new = length samples.
Proof.
  induction samples as [|sample rest IH]; intros g g' Hg Ha Hp Hrun.
  - injection Hrun as <-. simpl. split; [lia|]. split; [reflexivity|].
    split; [reflexivity|]. intros hand Hhand. exists [].
    rewrite app_nil_r, hand_eta. split; [exact Hhand|reflexivity].
  - cbn [for_each] in Hrun. unfold bind at 1 in Hrun. unfold bind at 1 in Hrun.
    destruct (Game.random_card player_id sample g) as [[card|e] g1] eqn:Hrc;
      [|discriminate].
    destruct (Game.deal_card card game_start g1) as [[[]|e] g2] eqn:Hdc;
      [|discriminate].
    destruct (random_card_Ok _ _ _ _ _ Hrc) as (hand & c & Hitem & Hinit & -> & ->).
    destruct (item_in_range (Game.players g) _ Hp) as (hand0 & Hhand0 & Hitem0).
    assert (hand0 = hand) by congruence. subst hand0.
    pose proof (card_init_player _ _ _ _ Hinit) as Hpid.
    rewrite (acc_ids g Ha _ _ Hhand0), Z2Nat.id in Hpid by lia.
    set (g1 := Game.set_objects (Game.objects g ++ [c]) g) in *.
    assert (Hg1 : consistent g1).
    { apply consistent_new_object; [exact Hg|]. eapply card_init_valid, Hinit. }
    assert (Ha1 : accounted g1).
    { eapply accounted_same_books; [..|exact Ha]; reflexivity. }
    destruct (deal_card_cases (length (Game.objects g)) game_start g1 Hg1)
      as [[e He]|(c' & hand1 & Hc' & _ & Hhand1 & Hd & Hdeal)];
      [rewrite He in Hdc; discriminate|].
    assert (c' = c).
    { unfold g1 in Hc'. cbn [Game.objects Game.set_objects] in Hc'.
      rewrite list_lookup_middle in Hc' by reflexivity. congruence. }
    subst c'. rewrite Hpid in Hhand1.
    assert (hand1 = hand).
    { unfold g1 in Hhand1. cbn [Game.players Game.set_objects] in Hhand1. congruence. }
    subst hand1. rewrite Hdeal in Hdc. injection Hdc as <-.
    set (g2 := dealt g1 (length (Game.objects g)) game_start c hand) in *.
    assert (Hplayers2 : Game.players g2
              = <[Z.to_nat player_id :=
                    Hand.make (Hand.id hand)
                      (Hand.cards hand ++ [length (Game.objects g)])]> (Game.players g)).
    { unfold g2, dealt. cbn [Game.players]. rewrite Hpid. reflexivity. }
    assert (Hp2 : 0 <= player_id < Z.of_nat (length (Game.players g2))).
    { rewrite Hplayers2, length_insert. exact Hp. }
    destruct (IH g2 g') as (Hsum & Hlen & Hothers & Hmine).
    + apply dealt_consistent; try assumption.
      * apply player_in_range_spec. rewrite Hpid. exact Hp.
      * rewrite Hpid. exact Hhand0.
    + apply dealt_accounted; try assumption. rewrite Hpid. exact Hhand0.
    + exact Hp2.
    + exact Hrun.
    + split; [|split; [|split]].
      * rewrite Hsum. unfold g2. rewrite (dealt_sum g1) by assumption.
        simpl. lia.
      * rewrite Hlen, Hplayers2, length_insert. reflexivity.
      * intros p Hne. rewrite (Hothers p Hne), Hplayers2.
        apply list_lookup_insert_ne. congruence.
      * intros hand0 Hhand. assert (hand0 = hand) by congruence. subst hand0.
        destruct (Hmine (Hand.make (Hand.id hand)
                           (Hand.cards hand ++ [length (Game.objects g)])))
          as (new & Hnew & Hlnew).
        { rewrite Hplayers2. apply list_lookup_insert_eq.
          eapply lookup_lt_Some, Hhand0. }
        exists (length (Game.objects g) :: new). simpl in Hnew.
        rewrite <- app_assoc in Hnew. split; [exact Hnew|]. simpl. lia.
Qed.

(** X19: in a reachable state, a call of [deal_hand] that returns has
    dealt one card per draw to the player named: the deck holds that
    many cards less, the cards have been appended to that player's
    hand, and the other hands are as they were. *)
Theorem deal_hand_deals
    (g g' : Game.t) (player_id : Z) (samples : list Z) (game_start : bool) :
  reachable g ->
  Game.deal_hand player_id samples game_start g = (Ok tt, g') ->
  Np.sum (Game.deck g') = Np.sum (Game.deck g) - Z.of_nat (length samples)
  /\ (forall p, p <> Z.to_nat player_id -> Game.players g' !! p = Game.players g !! p)
  /\ exists hand new,
       Game.players g !! Z.to_nat player_id = Some hand
       /\ Game.players g' !! Z.to_nat player_id
          = Some (Hand.make (Hand.id hand) (Hand.cards hand ++ new))
       /\ length new = length samples.
Proof.
  intros Hr Hrun. unfold Game.deal_hand in Hrun.
  erewrite bind_ok in Hrun by reflexivity.
  destruct (player_in_range g player_id) eqn:Hp; cycle 1.
  { erewrite bind_raise in Hrun; [discriminate|].
    unfold lift. rewrite check_isin_players, Hp. reflexivity. }
  erewrite bind_ok in Hrun
    by (unfold lift; rewrite check_isin_players, Hp; reflexivity).
  apply player_in_range_spec in Hp.
  destruct (deal_hand_loop player_id game_start samples g g'
              (reachable_consistent g Hr) (reachable_accounted g Hr) Hp Hrun)
    as (Hsum & _ & Hothers & Hmine).
  split; [exact Hsum|]. split; [exact Hothers|].
  destruct (item_in_range (Game.players g) _ Hp) as (hand & Hhand & _).
  destruct (Hmine hand Hhand) as (new & Hnew & Hlen).
  exists hand, new. auto.
Qed.

Lemma deal_hand_deals_witness :
  Np.sum (Game.deck (snd (Game.deal_hand 1 [0; 7; 24] false
                            (run_all before_deal_script Game.initial))))
  = Np.sum (Game.deck (run_all before_deal_script Game.initial)) - 3.
Proof.
  refine (proj1 (deal_hand_deals (run_all before_deal_script Game.initial) _ 1
                   [0; 7; 24] false _ _)).
  - apply run_all_reachable. constructor.
  - vm_compute. reflexivity.
Defined.

(** X20: with an empty deck, [deal_hand] for at least one card raises
    [ValueError] at the first draw, before any card is constructed:
    nothing has changed. *)
Theorem deal_hand_empty_deck
    (g : Game.t) (player_id : Z) (sample : Z) (rest : list Z) (game_start : bool) :
  0 <= player_id < Z.of_nat (length (Game.players g)) ->
  Np.sum (Game.deck g) = 0 ->
  Game.deal_hand player_id (sample :: rest) game_start g = (Raise ValueError, g).
Proof.
  intros Hp Hsum. unfold Game.deal_hand.
  erewrite bind_ok by reflexivity.
  erewrite bind_ok; cycle 1.
  { unfold lift. rewrite check_isin_players.
    apply player_in_range_spec in Hp. rewrite Hp. reflexivity. }
  cbn [for_each]. erewrite bind_raise; [reflexivity|].
  erewrite bind_raise; [reflexivity|].
  unfold Game.random_card. erewrite bind_ok by reflexivity.
  rewrite Hsum. reflexivity.
Qed.

Lemma deal_hand_empty_deck_witness :
  Game.deal_hand 0 [3; 4] true
    (Game.set_deck (replicate 5 (replicate 5 0)) (run_all [AddPlayer] Game.initial))
  = (Raise ValueError,
     Game.set_deck (replicate 5 (replicate 5 0)) (run_all [AddPlayer] Game.initial)).
Proof.
  apply (deal_hand_empty_deck
           (Game.set_deck (replicate 5 (replicate 5 0)) (run_all [AddPlayer] Game.initial))
           0 3 [4] true).
  - vm_compute. split; [discriminate|reflexivity].
  - reflexivity.
Defined.

(** ** A card reported as well predicted *)

Lemma argwhere_cell {A} (p : A -> bool) (m : list (list A)) (i j : nat) :
  (i, j) ∈ Np.argwhere p m -> exists x, Np.cell m i j = Some x /\ p x = true.
Proof.
  unfold Np.argwhere. intros Hin.
  apply list_elem_of_In, in_concat in Hin as (l & Hl & Hin).
  apply list_elem_of_In in Hl, Hin.
  apply elem_of_lookup_imap in Hl as (i0 & r & -> & Hr).
  apply list_elem_of_omap in Hin as ([j0 x] & Hjx & Hsome).
  apply elem_of_lookup_imap in Hjx as (j1 & x1 & Heq & Hx).
  injection Heq as -> ->. simpl in Hsome.
  destruct (p x1) eqn:Hp; [|discriminate].
  injection Hsome as <- <-.
  exists x1. unfold Np.cell. rewrite Hr. auto.
Qed.

Section WellPredicted.

Context {FM : Type} {ops : FractionMatrix FM}.

(** X21: when [well_predicted] returns true, the card is determined
    and its belief mask still allows its true colour and value. *)
Theorem well_predicted_sound (fuel : nat) (g : Game.t) (self : nat) :
  well_predicted fuel g self = Ok true ->
  exists c,
    Game.objects g !! self = Some c
    /\ determined fuel g self = Ok true
    /\ 0 <= Card.color c /\ 0 <= Card.value c
    /\ Np.cell (Card.states c) (Z.to_nat (Card.color c)) (Z.to_nat (Card.value c))
       = Some true.
Proof.
  unfold well_predicted. intros H.
  destruct (card_of g self) as [c|] eqn:Hc; [|discriminate]. simpl in H.
  apply card_of_Ok in Hc. exists c. split; [exact Hc|].
  destruct (determined fuel g self) as [[|]|]; simpl in H; try discriminate.
  split; [reflexivity|].
  destruct (Np.argwhere (fun b : bool => b) (Card.states c)) as [|[i j] rest] eqn:Hw;
    [discriminate|].
  injection H as H. apply andb_true_iff in H as [Hi Hj].
  apply Z.eqb_eq in Hi, Hj.
  destruct (argwhere_cell (fun b : bool => b) (Card.states c) i j) as (x & Hx & Hpx).
  { rewrite Hw. left. }
  subst x. rewrite <- Hi, <- Hj, !Nat2Z.id.
  split; [lia|]. split; [lia|]. exact Hx.
Qed.

End WellPredicted.

Lemma well_predicted_sound_witness :
  exists c,
    Game.objects (run_all told_everything_script Game.initial) !! 0%nat = Some c
    /\ determined (FM := frac) 1 (run_all told_everything_script Game.initial) 0 = Ok true
    /\ 0 <= Card.color c /\ 0 <= Card.value c
    /\ Np.cell (Card.states c) (Z.to_nat (Card.color c)) (Z.to_nat (Card.value c))
       = Some true.
Proof.
  apply (well_predicted_sound (FM := frac) 1 (run_all told_everything_script Game.initial) 0).
  vm_compute. reflexivity.
Defined.

(** ** Further concrete instances *)

Lemma remove_card_first_occurrence_witness :
  Hand.remove_card (Hand.make 0 [4; 5; 4]%nat) 4 = Ok (Hand.make 0 [5; 4]%nat).
Proof.
  refine (proj2 (remove_card_first_occurrence (Hand.make 0 [4; 5; 4]%nat) 4)
                [] [5; 4]%nat _ _).
  - reflexivity.
  - intros H. inversion H.
Defined.

Lemma remove_card_at_position_witness :
  Hand.remove_card_at (Hand.make 0 [4; 5; 6]%nat) (-1) = Ok (Hand.make 0 [4; 5]%nat).
Proof.
  refine (proj2 (remove_card_at_position (Hand.make 0 [4; 5; 6]%nat) (-1)) 2%nat _ _).
  - repeat (apply NoDup_cons_2;
            [intros H; repeat (apply elem_of_cons in H as [H|H]; [discriminate|]);
             inversion H|]).
    apply NoDup_nil_2.
  - reflexivity.
Defined.
